(** * LeetShip: submission-to-commit pipeline

    A shallow embedding of the TypeScript sources of the LeetShip browser
    extension (template engine, GitHub REST client, commit manager, commit
    queue and background service, token manager and storage manager, page
    extractors), together with the properties stated about them.

    Conventions of the embedding.
    - JavaScript strings are modelled by [string] (one character per code
      unit); [String.length] is the [.length] of the source.
    - An [async] method is a state transformer that either returns a value
      or throws; the thrown value is an [Error], kept as its [message].
    - [browser.storage] calls are taken to succeed; what is stored under a
      key is kept in a typed slot of the state record. *)

From Stdlib Require Import ZArith Ascii String List Lia Bool DecimalString.
From stdpp Require Import base option list gmap strings.

Local Open Scope Z_scope.
Local Open Scope nat_scope.

(** ** JavaScript string primitives *)

Module JS.

(** [s.startsWith(p)], also the test of a literal pattern at the head. *)
Fixpoint startsWith (p s : string) : bool :=
  match p, s with
  | EmptyString, _ => true
  | String a p', String b s' => if Ascii.eqb a b then startsWith p' s' else false
  | String _ _, EmptyString => false
  end.

(** [s.includes(p)]. *)
Fixpoint includes (s p : string) : bool :=
  startsWith p s ||
  match s with
  | EmptyString => false
  | String _ s' => includes s' p
  end.

Fixpoint drop (n : nat) (s : string) : string :=
  match n, s with
  | 0, _ => s
  | S _, EmptyString => EmptyString
  | S k, String _ s' => drop k s'
  end.

Fixpoint take (n : nat) (s : string) : string :=
  match n, s with
  | 0, _ => EmptyString
  | S _, EmptyString => EmptyString
  | S k, String c s' => String c (take k s')
  end.

Definition is_upper (c : ascii) : bool :=
  let n := nat_of_ascii c in (65 <=? n) && (n <=? 90).

Definition lower_char (c : ascii) : ascii :=
  if is_upper c then ascii_of_nat (nat_of_ascii c + 32) else c.

(** [s.toLowerCase()] *)
Fixpoint toLowerCase (s : string) : string :=
  match s with
  | EmptyString => EmptyString
  | String c s' => String (lower_char c) (toLowerCase s')
  end.

(** White space in the sense of [\s] and of [trim]: tab, line feed,
    vertical tab, form feed, carriage return and space. *)
Definition is_space (c : ascii) : bool :=
  let n := nat_of_ascii c in
  ((9 <=? n) && (n <=? 13)) || (n =? 32).

Fixpoint trimStart (s : string) : string :=
  match s with
  | EmptyString => EmptyString
  | String c s' => if is_space c then trimStart s' else s
  end.

(** Drops the white space at the end: a character stays when something
    that is not white space follows it or it is not white space. *)
Fixpoint trimEnd (s : string) : string :=
  match s with
  | EmptyString => EmptyString
  | String c s' =>
      match trimEnd s' with
      | EmptyString => if is_space c then EmptyString else String c EmptyString
      | r => String c r
      end
  end.

(** [s.trim()] *)
Definition trim (s : string) : string := trimEnd (trimStart s).

(** Truthiness of a string: the empty string is falsy. *)
Definition truthy (s : string) : bool :=
  match s with EmptyString => false | _ => true end.

(** [a || b] on strings. *)
Definition or_else (a b : string) : string := if truthy a then a else b.

(** The replacement text of [String.prototype.replace]: [$$] is a dollar,
    [$&] the match, [$`] what precedes it and [$'] what follows it.  The
    patterns of this program have no capture group, so [$1] and the like
    stand for themselves. *)
Fixpoint getSubstitution (matched before after repl : string) : string :=
  match repl with
  | EmptyString => EmptyString
  | String c r =>
      if Ascii.eqb c "$" then
        match r with
        | String d r' =>
            if Ascii.eqb d "$" then String "$" (getSubstitution matched before after r')
            else if Ascii.eqb d "&" then matched +:+ getSubstitution matched before after r'
            else if Ascii.eqb d "`" then before +:+ getSubstitution matched before after r'
            else if Ascii.eqb d "'" then after +:+ getSubstitution matched before after r'
            else String c (getSubstitution matched before after r)
        | EmptyString => String c EmptyString
        end
      else String c (getSubstitution matched before after r)
  end.

(** [whole.replace(new RegExp(pat, 'g'), repl)] for a pattern [pat] that is
    a non-empty literal: every occurrence, from the left and without
    overlap.  [pos] is the index of the head of [s] in [whole], [skip] the
    number of characters of the current match still to pass over. *)
Fixpoint replaceAll_from (pat repl whole : string) (pos skip : nat) (s : string) : string :=
  match s with
  | EmptyString => EmptyString
  | String c s' =>
      match skip with
      | S k => replaceAll_from pat repl whole (S pos) k s'
      | 0 =>
          if startsWith pat s then
            getSubstitution pat (take pos whole) (drop (pos + String.length pat) whole) repl
            +:+ replaceAll_from pat repl whole (S pos) (String.length pat - 1) s'
          else String c (replaceAll_from pat repl whole (S pos) 0 s')
      end
  end.

Definition replaceAll (pat repl s : string) : string :=
  replaceAll_from pat repl s 0 0 s.

(** [s.replace(/[...]/g, r)] for a character class given by its test. *)
Fixpoint replaceClass (cls : ascii -> bool) (r : string) (s : string) : string :=
  match s with
  | EmptyString => EmptyString
  | String c s' =>
      if cls c then r +:+ replaceClass cls r s' else String c (replaceClass cls r s')
  end.

(** [s.replace(/c+/g, r)] for a class: each maximal run becomes one [r].
    [inrun] says that the previous character belonged to the class. *)
Fixpoint replaceRuns_from (cls : ascii -> bool) (r : string) (inrun : bool) (s : string) : string :=
  match s with
  | EmptyString => EmptyString
  | String c s' =>
      if cls c then
        if inrun then replaceRuns_from cls r true s'
        else r +:+ replaceRuns_from cls r true s'
      else String c (replaceRuns_from cls r false s')
  end.

Definition replaceRuns (cls : ascii -> bool) (r s : string) : string :=
  replaceRuns_from cls r false s.

(** [s.padStart(n, '0')] *)
Fixpoint zeros (n : nat) : string :=
  match n with 0 => EmptyString | S k => String "0" (zeros k) end.

Definition padStart0 (n : nat) (s : string) : string :=
  zeros (n - String.length s) +:+ s.

(** [parts.join(sep)] *)
Fixpoint join (sep : string) (parts : list string) : string :=
  match parts with
  | [] => EmptyString
  | [p] => p
  | p :: rest => p +:+ sep +:+ join sep rest
  end.

(** [s.split(sep)] for a separator that is not empty.  [cur] is the part
    being read, [skip] what is left of the separator just found. *)
Fixpoint split_from (sep : string) (skip : nat) (cur : string) (s : string) : list string :=
  match s with
  | EmptyString => [cur]
  | String c s' =>
      match skip with
      | S k => split_from sep k cur s'
      | 0 =>
          if startsWith sep s
          then cur :: split_from sep (String.length sep - 1) EmptyString s'
          else split_from sep 0 (cur +:+ String c EmptyString) s'
      end
  end.

Definition split (sep s : string) : list string := split_from sep 0 EmptyString s.

(** [table[key]] on an object literal with string values. *)
Fixpoint lookup_key (key : string) (table : list (string * string)) : option string :=
  match table with
  | [] => None
  | (k, v) :: rest => if String.eqb k key then Some v else lookup_key key rest
  end.

Definition nl : string := String (ascii_of_nat 10) EmptyString.

End JS.

(** ** Effects: state and exceptions *)

(** The outcome of running an [async] function: the value it resolves to, or
    the [message] of the [Error] it rejects with. *)
Inductive Res (A : Type) : Type :=
| Ok (a : A)
| Throw (message : string).
Arguments Ok {A} a.
Arguments Throw {A} message.

Definition M (S A : Type) : Type := S -> Res A * S.

Definition ret {S A} (a : A) : M S A := fun s => (Ok a, s).

Definition throw {S A} (message : string) : M S A := fun s => (Throw message, s).

Definition bind {S A B} (m : M S A) (k : A -> M S B) : M S B :=
  fun s =>
    match m s with
    | (Ok a, s') => k a s'
    | (Throw e, s') => (Throw e, s')
    end.

(** [try { m } catch (error) { handler(error.message) }] *)
Definition tryCatch {S A} (m : M S A) (handler : string -> M S A) : M S A :=
  fun s =>
    match m s with
    | (Ok a, s') => (Ok a, s')
    | (Throw e, s') => handler e s'
    end.

(** [try { m } finally { fin }]: [fin] runs in both cases; when it throws,
    its error replaces the outcome of [m]. *)
Definition tryFinally {S A} (m : M S A) (fin : M S unit) : M S A :=
  fun s =>
    match m s with
    | (r, s') =>
        match fin s' with
        | (Ok _, s'') => (r, s'')
        | (Throw e, s'') => (Throw e, s'')
        end
    end.

(** A call that cannot throw. *)
Definition total {S A} (f : S -> A * S) : M S A :=
  fun s => match f s with (a, s') => (Ok a, s') end.

Definition get {S} : M S S := fun s => (Ok s, s).
Definition gets {S A} (f : S -> A) : M S A := fun s => (Ok (f s), s).
Definition modify {S} (f : S -> S) : M S unit := fun s => (Ok tt, f s).

Declare Scope js_scope.
Delimit Scope js_scope with js.
Notation "x <- m ;; k" := (bind m (fun x => k))
  (at level 100, m at next level, k at level 200, right associativity) : js_scope.
Notation "m ;; k" := (bind m (fun _ => k))
  (at level 100, k at level 200, right associativity) : js_scope.
Local Open Scope js_scope.

Definition is_ok {A} (r : Res A) : bool :=
  match r with Ok _ => true | Throw _ => false end.

(** Decimal rendering of a number inside a template literal. *)
Definition show_nat (n : nat) : string :=
  NilEmpty.string_of_uint (Nat.to_uint n).

(** The same for a time in milliseconds. *)
Definition show_N (n : N) : string :=
  NilEmpty.string_of_uint (N.to_uint n).

(** ** Data model ([types.ts]) *)

Record LeetCodeSubmission := mkSubmission {
  sub_id : string;
  sub_title : string;
  sub_titleSlug : string;
  sub_difficulty : string;
  sub_tags : list string;
  sub_link : string;
  sub_runtime : string;
  sub_memory : string;
  sub_language : string;
  sub_timestamp : string;
  sub_code : string;
  sub_status : string;
  sub_runtimePercentile : option string;
  sub_memoryPercentile : option string;
  sub_fileExtension : option string
}.

Record QueuedCommit := mkQueuedCommit {
  qc_id : string;
  qc_submission : LeetCodeSubmission;
  qc_timestamp : N;
  qc_retryCount : nat;
  qc_lastError : option string
}.

Record GitHubConfig := mkGitHubConfig {
  gh_username : string;
  gh_repository : string;
  gh_branch : string;
  gh_accessToken : string;
  gh_refreshToken : option string;
  gh_tokenExpiry : option N
}.

Record Templates := mkTemplates {
  tpl_commitMessage : string;
  tpl_readme : string;
  tpl_folderLayout : string
}.

Record Settings := mkSettings {
  set_includeProblemStatement : bool;
  set_sanitizeFilenames : bool;
  set_skipDuplicates : bool;
  set_autoRetry : bool;
  set_privateRepoWarning : bool;
  set_telemetry : bool
}.

Record ExtensionConfig := mkExtensionConfig {
  cfg_github : option GitHubConfig;
  cfg_templates : Templates;
  cfg_settings : Settings;
  cfg_version : nat
}.

(** The defaults of [storage.ts]; [github] starts out as [null]. *)
Definition emdash : string :=
  String (ascii_of_nat 226) (String (ascii_of_nat 128) (String (ascii_of_nat 148) EmptyString)).

Definition DEFAULT_templates : Templates :=
  mkTemplates
    ("feat(leetcode): AC {{id}}. {{title}} [{{difficulty}}] ({{lang}}) " +:+ emdash
       +:+ " runtime: {{runtime}}, memory: {{memory}}")
    (JS.join JS.nl
       [ "# {{title}}"; EmptyString; "[LeetCode Problem]({{link}})"; EmptyString;
         "**Difficulty:** {{difficulty}}"; "**Tags:** {{tags}}"; "**Language:** {{lang}}";
         "**Runtime:** {{runtime}}"; "**Memory:** {{memory}}";
         "**Submitted:** {{timestamp}}"; EmptyString ])
    "{{difficulty}}/{{id}}-{{slug}}".

Definition DEFAULT_settings : Settings := mkSettings false true true true true false.

(** ** Template engine ([templates.ts]) *)

Module TemplateEngine.

Record TemplateVariables := mkVars {
  id : string;
  title : string;
  slug : string;
  difficulty : string;
  tags : string;
  lang : string;
  runtime : string;
  memory : string;
  timestamp : string;
  link : string;
  runtimePercentile : option string;
  memoryPercentile : option string
}.

(** The character class of the two sanitising replacements: less-than,
    greater-than, colon, double quote, slash, backslash, bar, question
    mark and star. *)
Definition path_illegal (c : ascii) : bool :=
  let n := nat_of_ascii c in
  (n =? 60) || (n =? 62) || (n =? 58) || (n =? 34) || (n =? 47)
  || (n =? 92) || (n =? 124) || (n =? 63) || (n =? 42).

Definition is_slash (c : ascii) : bool := nat_of_ascii c =? 47.

Definition sanitizeFilename (filename : string) : string :=
  JS.toLowerCase
    (JS.replaceRuns JS.is_space "-" (JS.replaceClass path_illegal "-" filename)).

(** [Object.entries(variables)]: the properties in the order in which the
    object literal of [getVariables] lists them; an absent optional
    property reads as the empty string through [value || '']. *)
Definition entries (v : TemplateVariables) : list (string * string) :=
  [ ("id", id v); ("title", title v); ("slug", slug v);
    ("difficulty", difficulty v); ("tags", tags v); ("lang", lang v);
    ("runtime", runtime v); ("memory", memory v);
    ("timestamp", timestamp v); ("link", link v);
    ("runtimePercentile", default EmptyString (runtimePercentile v));
    ("memoryPercentile", default EmptyString (memoryPercentile v)) ].

Definition render (template : string) (variables : TemplateVariables) : string :=
  fold_left
    (fun result kv => JS.replaceAll ("{{" +:+ fst kv +:+ "}}") (snd kv) result)
    (entries variables) template.

Definition generateFolderPath (folderTemplate : string) (variables : TemplateVariables) : string :=
  let path := render folderTemplate variables in
  JS.replaceRuns is_slash "/" (JS.replaceClass path_illegal "-" path).

Definition generateCommitMessage (template : string) (variables : TemplateVariables) : string :=
  render template variables.

Definition formatTags (tags : list string) : string :=
  JS.join ", " (map (fun tag => JS.replaceRuns JS.is_space "-" (JS.toLowerCase tag)) tags).

Definition formatDifficulty (difficulty : string) : string := JS.toLowerCase difficulty.

(** [toISOString] stands for [new Date(t).toISOString()], which throws a
    [RangeError] on a time that does not parse. *)
Definition getVariables (toISOString : string -> Res string)
    (submission : LeetCodeSubmission) : Res TemplateVariables :=
  let paddedId := JS.padStart0 4 (sub_id submission) in
  let sanitizedSlug := sanitizeFilename (sub_titleSlug submission) in
  match toISOString (sub_timestamp submission) with
  | Throw e => Throw e
  | Ok iso =>
      Ok (mkVars paddedId (sub_title submission) sanitizedSlug
            (formatDifficulty (sub_difficulty submission))
            (formatTags (sub_tags submission))
            (JS.toLowerCase (sub_language submission))
            (sub_runtime submission) (sub_memory submission) iso
            (sub_link submission)
            (sub_runtimePercentile submission) (sub_memoryPercentile submission))
  end.

Definition extensions : list (string * string) :=
  [ ("python", "py"); ("python3", "py"); ("java", "java"); ("javascript", "js");
    ("typescript", "ts"); ("cpp", "cpp"); ("c++", "cpp"); ("c", "c");
    ("csharp", "cs"); ("c#", "cs"); ("go", "go"); ("rust", "rs"); ("ruby", "rb");
    ("php", "php"); ("swift", "swift"); ("kotlin", "kt"); ("scala", "scala");
    ("mysql", "sql"); ("postgresql", "sql"); ("oracle", "sql") ].

(** [generateFilename(language)], with the default [attempt] of one. *)
Definition generateFilename (language : string) : string :=
  let ext := default "txt" (JS.lookup_key (JS.toLowerCase language) extensions) in
  "solution." +:+ ext.

Definition langMap : list (string * string) :=
  [ ("python", "python"); ("python3", "python"); ("java", "java");
    ("javascript", "javascript"); ("typescript", "typescript"); ("cpp", "cpp");
    ("c++", "cpp"); ("c", "c"); ("csharp", "csharp"); ("c#", "csharp"); ("go", "go");
    ("rust", "rust"); ("ruby", "ruby"); ("php", "php"); ("swift", "swift");
    ("kotlin", "kotlin"); ("scala", "scala"); ("mysql", "sql");
    ("postgresql", "sql"); ("oracle", "sql") ].

Definition generateCodeBlock (code language : string) : string :=
  let lang := default (JS.toLowerCase language)
                (JS.lookup_key (JS.toLowerCase language) langMap) in
  "```" +:+ lang +:+ JS.nl +:+ code +:+ JS.nl +:+ "```".

Definition quoted (s : string) : string :=
  String (ascii_of_nat 34) (s +:+ String (ascii_of_nat 34) EmptyString).

Definition percentile_line (key : string) (value : option string) : string :=
  match value with
  | Some v => if JS.truthy v then JS.nl +:+ key +:+ ": " +:+ quoted v else EmptyString
  | None => EmptyString
  end.

Definition generateFrontMatter (variables : TemplateVariables) : string :=
  let tags := JS.join ", " (map quoted (JS.split ", " (tags variables))) in
  "---" +:+ JS.nl
  +:+ "id: " +:+ id variables +:+ JS.nl
  +:+ "title: " +:+ quoted (title variables) +:+ JS.nl
  +:+ "slug: " +:+ slug variables +:+ JS.nl
  +:+ "difficulty: " +:+ difficulty variables +:+ JS.nl
  +:+ "tags: [" +:+ tags +:+ "]" +:+ JS.nl
  +:+ "lang: " +:+ lang variables +:+ JS.nl
  +:+ "runtime: " +:+ quoted (runtime variables) +:+ JS.nl
  +:+ "memory: " +:+ quoted (memory variables) +:+ JS.nl
  +:+ "submittedAt: " +:+ quoted (timestamp variables) +:+ JS.nl
  +:+ "link: " +:+ quoted (link variables)
  +:+ percentile_line "runtimePercentile" (runtimePercentile variables)
  +:+ percentile_line "memoryPercentile" (memoryPercentile variables)
  +:+ JS.nl +:+ "---".

Definition generateReadme (template : string) (variables : TemplateVariables)
    (code : string) (problemStatement : option string) : string :=
  let codeBlock := generateCodeBlock code (lang variables) in
  let frontMatter := generateFrontMatter variables in
  let content := frontMatter +:+ JS.nl +:+ JS.nl +:+ render template variables in
  let content := content +:+ JS.nl +:+ JS.nl +:+ "## Solution" +:+ JS.nl +:+ JS.nl +:+ codeBlock in
  match problemStatement with
  | Some statement =>
      if JS.truthy statement
      then content +:+ JS.nl +:+ JS.nl +:+ "## Problem Statement" +:+ JS.nl +:+ JS.nl +:+ statement
      else content
  | None => content
  end.

End TemplateEngine.

(** ** GitHub REST client ([github/api.ts]) *)

Inductive Method := GET | PUT.

(** The JSON body of a [PUT] on the contents endpoint, before
    [JSON.stringify]; [sha] and [branch] are present only when set. *)
Record PutBody := mkPutBody {
  pb_message : string;
  pb_content : string;
  pb_sha : option string;
  pb_branch : option string
}.

Record Request := mkRequest {
  req_url : string;
  req_method : Method;
  req_token : string;
  req_body : option PutBody
}.

(** A [Response]: its status and its body, which the client reads either
    with [text()] or with [json()]. *)
Record Response (Body : Type) := mkResponse {
  status : nat;
  body : Body
}.
Arguments mkResponse {Body} status body.
Arguments status {Body} r.
Arguments body {Body} r.

Definition response_ok {Body} (r : Response Body) : bool :=
  (200 <=? status r) && (status r <=? 299).

Record GitHubFile := mkGitHubFile {
  file_path : string;
  file_sha : string;
  file_content : string
}.

Record CommitResult := mkCommitResult {
  commit_sha : string;
  commit_html_url : string
}.

(** What [JSON.parse(errorBody)] yields, as far as the client looks at it. *)
Record ErrorData := mkErrorData { message : option string }.

(** What the client needs from its surroundings: the network, the storage
    manager, and the platform's codecs.  A decoder throws when the body is
    not JSON of the expected shape. *)
Class Host (Env Body : Type) := {
  fetch : Request -> M Env (Response Body);
  storage_getDecryptedConfig : M Env ExtensionConfig;
  storage_forceTokenRefresh : M Env unit;
  response_text : Body -> string;
  response_json_file : Body -> Res GitHubFile;
  response_json_commit : Body -> Res CommitResult;
  JSON_parse : string -> Res ErrorData;
  btoa_utf8 : string -> string;
  atob : string -> Res string;
  encodeURIComponent : string -> string
}.

(** The state of the client: its surroundings and, as a ghost field, the
    requests handed to [fetch] so far (oldest first). *)
Record Net (Env : Type) := mkNet {
  sent : list Request;
  env : Env
}.
Arguments mkNet {Env} sent env.
Arguments sent {Env} n.
Arguments env {Env} n.

Definition liftEnv {Env A} (m : M Env A) : M (Net Env) A :=
  fun w => match m (env w) with (r, e') => (r, mkNet (sent w) e') end.

Definition of_res {S A} (r : Res A) : M S A :=
  match r with Ok a => ret a | Throw e => throw e end.

Module GitHubAPI.
Section WithHost.
Context {Env Body : Type} `{Host Env Body}.

Definition baseURL : string := "https://api.github.com".

(** Returns the token of the [Authorization] header. *)
Definition getAuthHeaders : M (Net Env) string :=
  config <- liftEnv storage_getDecryptedConfig ;;
  match cfg_github config with
  | Some g =>
      if JS.truthy (gh_accessToken g) then ret (gh_accessToken g)
      else throw "No GitHub access token available"
  | None => throw "No GitHub access token available"
  end.

Definition send (r : Request) : M (Net Env) (Response Body) :=
  modify (fun w => mkNet (sent w ++ [r]) (env w)) ;;
  liftEnv (fetch r).

Definition rate_limit_message : string :=
  "GitHub API rate limit exceeded. Please try again later.".

Definition bad_credentials_message (st : nat) : string :=
  "GitHub API error (" +:+ show_nat st
    +:+ "): Bad credentials. Please re-authenticate with a valid token.".

Definition api_error_message (st : nat) (errorBody : string) : string :=
  "GitHub API error (" +:+ show_nat st +:+ "): " +:+ errorBody.

Definition makeRequest {T} (json : Body -> Res T)
    (endpoint : string) (method : Method) (payload : option PutBody) : M (Net Env) T :=
  token <- getAuthHeaders ;;
  response <- send (mkRequest (baseURL +:+ endpoint) method token payload) ;;
  if negb (response_ok response) then
    let errorBody := response_text (body response) in
    if status response =? 401 then
      liftEnv storage_forceTokenRefresh ;;
      throw (bad_credentials_message (status response))
    else
      (if status response =? 403 then
         tryCatch
           (errorData <- of_res (JSON_parse errorBody) ;;
            if match message errorData with
               | Some m => JS.includes m "rate limit"
               | None => false
               end
            then throw rate_limit_message
            else ret tt)
           (fun parseError => ret tt)
       else ret tt) ;;
      throw (api_error_message (status response) errorBody)
  else of_res (json (body response)).

Definition contents_endpoint (owner repo path : string) : string :=
  "/repos/" +:+ owner +:+ "/" +:+ repo +:+ "/contents/" +:+ encodeURIComponent path.

Definition getFile (owner repo path branch : string) : M (Net Env) (option GitHubFile) :=
  tryCatch
    (let endpoint := contents_endpoint owner repo path in
     let url := if JS.truthy branch then endpoint +:+ "?ref=" +:+ branch else endpoint in
     f <- makeRequest response_json_file url GET None ;;
     ret (Some f))
    (fun error => if JS.includes error "404" then ret None else throw error).

Definition branch_field (branch : string) : option string :=
  if JS.truthy branch then Some branch else None.

Definition createFile (owner repo path content message branch : string)
  : M (Net Env) CommitResult :=
  let encodedContent := btoa_utf8 content in
  makeRequest response_json_commit (contents_endpoint owner repo path) PUT
    (Some (mkPutBody message encodedContent None (branch_field branch))).

Definition updateFile (owner repo path content message sha branch : string)
  : M (Net Env) CommitResult :=
  let encodedContent := btoa_utf8 content in
  makeRequest response_json_commit (contents_endpoint owner repo path) PUT
    (Some (mkPutBody message encodedContent (Some sha) (branch_field branch))).

Definition createOrUpdateFile (owner repo path content message branch : string)
  : M (Net Env) CommitResult :=
  existingFile <- getFile owner repo path branch ;;
  match existingFile with
  | Some f => updateFile owner repo path content message (file_sha f) branch
  | None => createFile owner repo path content message branch
  end.

(** The two requests of [createOrUpdateFile], as [fetch] receives them. *)
Definition read_url (owner repo path branch : string) : string :=
  baseURL +:+
  (if JS.truthy branch
   then contents_endpoint owner repo path +:+ "?ref=" +:+ branch
   else contents_endpoint owner repo path).

Definition write_url (owner repo path : string) : string :=
  baseURL +:+ contents_endpoint owner repo path.


End WithHost.
End GitHubAPI.

(** ** Commit manager ([background/commit-manager.ts]) *)

Record ProblemDetails := mkProblemDetails {
  pd_content : option string
}.

Record CommitFile := mkCommitFile {
  cf_name : string;
  cf_content : string
}.

(** What the commit manager needs beyond the client: the problem API of the
    coding site and the date parser of the platform. *)
Class CommitHost (Env : Type) := {
  leetcodeAPI_getProblemDetails : string -> M Env ProblemDetails;
  Date_toISOString : string -> Res string
}.

Module CommitManager.
Section WithHost.
Context {Env Body : Type} `{Host Env Body} `{CommitHost Env}.

(** [updateReadmeWithNewSubmission]: the listing of the difficulty
    folders, the parsing of the front matter and the splicing of the
    three regions of the README are not embedded; the method is a
    parameter, and what is proved holds whatever it computes and whether
    or not it throws. *)
Variable updateReadmeWithNewSubmission :
  string -> string -> string -> string -> M (Net Env) string.

Definition getProblemDetails (titleSlug : string) : M (Net Env) (option ProblemDetails) :=
  tryCatch
    (details <- liftEnv (leetcodeAPI_getProblemDetails titleSlug) ;; ret (Some details))
    (fun _ => ret None).

Definition generateFiles (submission : LeetCodeSubmission)
    (problemDetails : option ProblemDetails) : M (Net Env) (list CommitFile) :=
  config <- liftEnv storage_getDecryptedConfig ;;
  variables <- of_res (TemplateEngine.getVariables Date_toISOString submission) ;;
  let filename := TemplateEngine.generateFilename (sub_language submission) in
  let problemStatement :=
    if set_includeProblemStatement (cfg_settings config)
    then problemDetails ≫= pd_content
    else None in
  let readmeContent :=
    TemplateEngine.generateReadme (tpl_readme (cfg_templates config)) variables
      (sub_code submission) problemStatement in
  ret [ mkCommitFile filename (sub_code submission);
        mkCommitFile "README.md" readmeContent ].

Definition generateInitialReadme : string :=
  JS.join JS.nl
    [ "# LeetCode Solutions"; EmptyString;
      "This repository contains my LeetCode solutions, automatically synced by LeetShip.";
      EmptyString; "## Statistics"; EmptyString;
      "| Difficulty | Count |"; "|------------|-------|";
      "| Easy | 0 |"; "| Medium | 0 |"; "| Hard | 0 |"; "| **Total** | **0** |";
      EmptyString; "## Latest Submissions"; EmptyString;
      "<!-- LeetShip:latest-submissions -->"; "<!-- /LeetShip:latest-submissions -->";
      EmptyString; "## All Solutions"; EmptyString;
      "<!-- LeetShip:solutions-table -->"; "<!-- /LeetShip:solutions-table -->";
      EmptyString; "---"; EmptyString;
      "*Generated with [LeetShip](https://github.com/leetship/extension) - Automatically commit your accepted LeetCode submissions to GitHub*";
      EmptyString ].

Definition updateRepositoryReadme (owner repo branch _commitMessage : string)
  : M (Net Env) unit :=
  tryCatch
    (existingReadme <- GitHubAPI.getFile owner repo "README.md" branch ;;
     readmeContent <-
       match existingReadme with
       | Some f => of_res (atob (file_content f))
       | None => ret generateInitialReadme
       end ;;
     readmeContent <- updateReadmeWithNewSubmission readmeContent owner repo branch ;;
     GitHubAPI.createOrUpdateFile owner repo "README.md" readmeContent
       "docs: update README with new submission" branch ;;
     ret tt)
    (fun _ => ret tt).

(** The loop over the files of one submission; the pause after each
    write lets time pass and does nothing else. *)
Fixpoint writeFiles (owner repo branch folderPath commitMessage : string)
    (files : list CommitFile) : M (Net Env) (list CommitResult) :=
  match files with
  | [] => ret []
  | file :: rest =>
      let fullPath := folderPath +:+ "/" +:+ cf_name file in
      result <-
        tryCatch
          (GitHubAPI.createOrUpdateFile owner repo fullPath (cf_content file)
             commitMessage branch)
          (fun error => throw error) ;;
      results <- writeFiles owner repo branch folderPath commitMessage rest ;;
      ret (result :: results)
  end.

Definition processCommit (queuedCommit : QueuedCommit) : M (Net Env) unit :=
  config <- liftEnv storage_getDecryptedConfig ;;
  match cfg_github config with
  | None => throw "GitHub configuration not found"
  | Some github =>
      let submission := qc_submission queuedCommit in
      variables <- of_res (TemplateEngine.getVariables Date_toISOString submission) ;;
      let folderPath :=
        TemplateEngine.generateFolderPath (tpl_folderLayout (cfg_templates config)) variables in
      problemDetails <- getProblemDetails (sub_titleSlug submission) ;;
      files <- generateFiles submission problemDetails ;;
      let commitMessage :=
        TemplateEngine.generateCommitMessage (tpl_commitMessage (cfg_templates config))
          variables in
      let owner := gh_username github in
      let repo := gh_repository github in
      let branch := gh_branch github in
      if negb (JS.truthy repo) then throw "No repository configured"
      else
        results <- writeFiles owner repo branch folderPath commitMessage files ;;
        updateRepositoryReadme owner repo branch commitMessage
  end.

(** The steps of [processCommit] up to and including the writes of the
    files of the submission all succeed from [w]; [w4] is the state after
    the last write. *)
Definition files_written (queuedCommit : QueuedCommit) (w : Net Env)
    (config : ExtensionConfig) (github : GitHubConfig)
    (variables : TemplateEngine.TemplateVariables) (w4 : Net Env) : Prop :=
  exists problemDetails files results w1 w2 w3,
    liftEnv storage_getDecryptedConfig w = (Ok config, w1)
    /\ cfg_github config = Some github
    /\ TemplateEngine.getVariables Date_toISOString (qc_submission queuedCommit) = Ok variables
    /\ getProblemDetails (sub_titleSlug (qc_submission queuedCommit)) w1
         = (Ok problemDetails, w2)
    /\ generateFiles (qc_submission queuedCommit) problemDetails w2 = (Ok files, w3)
    /\ JS.truthy (gh_repository github) = true
    /\ writeFiles (gh_username github) (gh_repository github) (gh_branch github)
         (TemplateEngine.generateFolderPath (tpl_folderLayout (cfg_templates config)) variables)
         (TemplateEngine.generateCommitMessage (tpl_commitMessage (cfg_templates config))
            variables)
         files w3 = (Ok results, w4).

End WithHost.
End CommitManager.

(** ** Test doubles for the remote API

    Two hosts on which the client can be run end to end: one that replays
    a list of responses, and one that keeps the files of a repository and
    answers as the contents endpoint does. *)

(** A response body with its two readings. *)
Inductive Payload :=
| PText (t : string)
| PFile (f : GitHubFile)
| PCommit (c : CommitResult).

Definition payload_text (p : Payload) : string :=
  match p with PText t => t | _ => EmptyString end.

Definition payload_file (p : Payload) : Res GitHubFile :=
  match p with PFile f => Ok f | _ => Throw "SyntaxError: Unexpected token" end.

Definition payload_commit (p : Payload) : Res CommitResult :=
  match p with PCommit c => Ok c | _ => Throw "SyntaxError: Unexpected token" end.

Definition dquote : string := String (ascii_of_nat 34) EmptyString.

(** What follows the first occurrence of [marker] in [s]. *)
Fixpoint after_marker (marker s : string) : option string :=
  if JS.startsWith marker s then Some (JS.drop (String.length marker) s)
  else match s with
       | EmptyString => None
       | String _ s' => after_marker marker s'
       end.

Fixpoint until_char (c : ascii) (s : string) : string :=
  match s with
  | EmptyString => EmptyString
  | String a s' => if Ascii.eqb a c then EmptyString else String a (until_char c s')
  end.

(** [JSON.parse] on the body of an error response, for flat objects: the
    text has to open with a brace, and the [message] property is the string
    after its key. *)
Definition parse_error_body (t : string) : Res ErrorData :=
  if JS.startsWith "{" t then
    Ok (mkErrorData
          (until_char (ascii_of_nat 34)
             <$> after_marker (dquote +:+ "message" +:+ dquote +:+ ":" +:+ dquote) t))
  else Throw "SyntaxError: Unexpected token".

Definition config_with_token (token : string) : ExtensionConfig :=
  mkExtensionConfig
    (Some (mkGitHubConfig "octocat" "leetcode" "main" token None None))
    DEFAULT_templates DEFAULT_settings 1.

Definition clear_tokens (c : ExtensionConfig) : ExtensionConfig :=
  mkExtensionConfig
    ((fun g => mkGitHubConfig (gh_username g) (gh_repository g) (gh_branch g)
                 EmptyString None None) <$> cfg_github c)
    (cfg_templates c) (cfg_settings c) (cfg_version c).

Module Scripted.

Record Env := mkEnv {
  script : list (Response Payload);
  config : ExtensionConfig;
  refreshes : nat
}.

Definition replay (r : Request) : M Env (Response Payload) :=
  fun e =>
    match script e with
    | rsp :: rest => (Ok rsp, mkEnv rest (config e) (refreshes e))
    | [] => (Throw "Failed to fetch", e)
    end.

Definition refresh : M Env unit :=
  modify (fun e => mkEnv (script e) (clear_tokens (config e)) (S (refreshes e))).

#[global] Instance host : Host Env Payload := {|
  fetch := replay;
  storage_getDecryptedConfig := gets config;
  storage_forceTokenRefresh := refresh;
  response_text := payload_text;
  response_json_file := payload_file;
  response_json_commit := payload_commit;
  JSON_parse := parse_error_body;
  btoa_utf8 := fun s => s;
  atob := fun s => Ok s;
  encodeURIComponent := fun s => s
|}.

Definition start (token : string) (rs : list (Response Payload)) : Net Env :=
  mkNet [] (mkEnv rs (config_with_token token) 0).

End Scripted.

Module Remote.

Record RemoteFile := mkRemoteFile {
  rf_content : string;
  rf_sha : string
}.

Record Repo := mkRepo {
  files : gmap string RemoteFile;
  commits : nat;
  config : ExtensionConfig
}.

(** The resource of a request: its URL without the query. *)
Definition resource (url : string) : string := until_char "?" url.

Definition sha_of_commit (n : nat) : string := "sha-" +:+ show_nat n.

Definition commit_result (n : nat) : CommitResult :=
  mkCommitResult (sha_of_commit n) ("https://github.com/commit/" +:+ sha_of_commit n).

(** The contents endpoint: a [GET] answers 200 with the file or 404; a
    [PUT] without [sha] creates a file that does not exist yet, a [PUT]
    with the current [sha] replaces the file, anything else is refused. *)
Definition serve (r : Request) (s : Repo) : Response Payload * Repo :=
  let key := resource (req_url r) in
  match req_method r with
  | GET =>
      match files s !! key with
      | Some f => (mkResponse 200 (PFile (mkGitHubFile key (rf_sha f) (rf_content f))), s)
      | None => (mkResponse 404 (PText "Not Found"), s)
      end
  | PUT =>
      match req_body r with
      | None => (mkResponse 422 (PText "Invalid request"), s)
      | Some b =>
          let n := S (commits s) in
          let stored := mkRepo (<[key := mkRemoteFile (pb_content b) (sha_of_commit n)]> (files s))
                               n (config s) in
          match files s !! key, pb_sha b with
          | None, None => (mkResponse 201 (PCommit (commit_result n)), stored)
          | Some f, Some sha =>
              if String.eqb sha (rf_sha f)
              then (mkResponse 200 (PCommit (commit_result n)), stored)
              else (mkResponse 409 (PText "sha does not match"), s)
          | Some _, None => (mkResponse 422 (PText "sha was not supplied"), s)
          | None, Some _ => (mkResponse 422 (PText "sha given for a new file"), s)
          end
      end
  end.

(** A write that the remote accepts: the create of a new file, or an
    update that carries the current [sha]. *)
Definition accepted (s : Repo) (key : string) (sha : option string) : bool :=
  match files s !! key, sha with
  | None, None => true
  | Some f, Some x => String.eqb x (rf_sha f)
  | _, _ => false
  end.

Definition answer (r : Request) : M Repo (Response Payload) :=
  fun s => match serve r s with (rsp, s') => (Ok rsp, s') end.

Definition refresh : M Repo unit :=
  modify (fun s => mkRepo (files s) (commits s) (clear_tokens (config s))).

#[global] Instance host : Host Repo Payload := {|
  fetch := answer;
  storage_getDecryptedConfig := gets config;
  storage_forceTokenRefresh := refresh;
  response_text := payload_text;
  response_json_file := payload_file;
  response_json_commit := payload_commit;
  JSON_parse := parse_error_body;
  btoa_utf8 := fun s => s;
  atob := fun s => Ok s;
  encodeURIComponent := fun s => s
|}.

Definition start (token : string) : Net Repo :=
  mkNet [] (mkRepo ∅ 0 (config_with_token token)).

(** The problem API of the coding site is out of reach; dates are kept
    as they are. *)
#[global] Instance commit_host : CommitHost Repo := {|
  leetcodeAPI_getProblemDetails := fun _ => throw "Failed to fetch";
  Date_toISOString := fun t => Ok t
|}.

(** An update of the aggregate README that fails. *)
Definition readme_update_fails (readmeContent owner repo branch : string)
  : M (Net Repo) string :=
  throw "Failed to update README sections".

End Remote.

(** The body of a rate-limit response of the remote API. *)
Definition rate_limit_body : string :=
  "{" +:+ dquote +:+ "message" +:+ dquote +:+ ":" +:+ dquote
  +:+ "API rate limit exceeded for user ID 1." +:+ dquote +:+ "}".

(** A client about to receive that body with status 403. *)
Definition rate_limited :=
  Scripted.start "ghp_token" [mkResponse 403 (PText rate_limit_body)].


(** ** Background service ([background/index.ts]) and the queue part of
       the storage manager ([storage.ts]) *)

(** What the service calls outside itself: the clock, the token manager,
    the authentication helper, the commit manager, and the browser.  None
    of them touches the queue, the processed list or the in-flight set,
    which is why they act on the state [Env] of the surroundings only.
    [isAuthenticated], [getGitHubToken] and [getDecryptedConfig] catch
    whatever is thrown inside them and return a value, so they are given
    the type of a call that cannot throw. *)
Class ServiceHost (Env : Type) := {
  Date_now : Env -> N * Env;
  tokenManager_isAuthenticated : Env -> bool * Env;
  tokenManager_getGitHubToken : Env -> option string * Env;
  githubAuth_clearInvalidToken : M Env unit;
  service_getDecryptedConfig : Env -> ExtensionConfig * Env;
  commitManager_processCommit : QueuedCommit -> M Env unit;
  tabs_create : string -> M Env unit;
  notifications_create : string -> string -> M Env unit
}.

(** [Partial<QueuedCommit>] as [updateCommitInQueue] receives it. *)
Record QueuedCommitUpdates := mkUpdates {
  upd_retryCount : option nat;
  upd_lastError : option (option string)
}.

(** [{ ...commit, ...updates }] *)
Definition apply_updates (commit : QueuedCommit) (updates : QueuedCommitUpdates) : QueuedCommit :=
  mkQueuedCommit (qc_id commit) (qc_submission commit) (qc_timestamp commit)
    (default (qc_retryCount commit) (upd_retryCount updates))
    (default (qc_lastError commit) (upd_lastError updates)).

(** [queue[index] = v] after [index = queue.findIndex(p)]; nothing happens
    when no element satisfies [p]. *)
Fixpoint update_first {A} (p : A -> bool) (f : A -> A) (l : list A) : list A :=
  match l with
  | [] => []
  | x :: rest => if p x then f x :: rest else x :: update_first p f rest
  end.

(** [set.add(x)] on a set kept in insertion order. *)
Definition ordered_add (x : string) (l : list string) : list string :=
  if bool_decide (x ∈ l) then l else l ++ [x].

(** [Array.from(new Set(array))] *)
Definition ordered_set (l : list string) : list string :=
  fold_left (fun acc x => ordered_add x acc) l [].

Module Background.

(** The state of the service.  [attempts] is a ghost field: the calls of
    [commitManager.processCommit] so far, each with the message of the
    error it threw, if it threw. *)
Record Service (Env : Type) := mkService {
  processing : gset string;
  local_queue : list QueuedCommit;
  local_processed : list string;
  attempts : list (QueuedCommit * option string);
  outside : Env
}.
Arguments mkService {Env} processing local_queue local_processed attempts outside.
Arguments processing {Env} s.
Arguments local_queue {Env} s.
Arguments local_processed {Env} s.
Arguments attempts {Env} s.
Arguments outside {Env} s.

Definition toInt32 (z : Z) : Z := ((z + 2147483648) mod 4294967296 - 2147483648)%Z.

(** [((hash << 5) - hash + c) & 0xffffffff] *)
Definition hash_step (hash : Z) (c : ascii) : Z :=
  toInt32 (toInt32 (hash * 32) - hash + Z.of_nat (nat_of_ascii c))%Z.

Fixpoint hash_loop (hash : Z) (str : string) : Z :=
  match str with
  | EmptyString => hash
  | String c rest => hash_loop (hash_step hash c) rest
  end.

Definition digit36 (d : Z) : ascii :=
  if (d <? 10)%Z then ascii_of_nat (48 + Z.to_nat d) else ascii_of_nat (87 + Z.to_nat d).

(** [n.toString(36)] for a natural number; seven digits are enough below
    [36^7], so eight rounds cover every 32-bit magnitude. *)
Fixpoint toString36_from (rounds : nat) (n : Z) (acc : string) : string :=
  match rounds with
  | 0 => acc
  | S k =>
      let acc' := String (digit36 (n mod 36)%Z) acc in
      if (n / 36 =? 0)%Z then acc' else toString36_from k (n / 36)%Z acc'
  end.

Definition simpleHash (str : string) : string :=
  toString36_from 8 (Z.abs (hash_loop 0%Z str)) EmptyString.

Definition generateSubmissionKey (submission : LeetCodeSubmission) : string :=
  let codeLength := String.length (sub_code submission) in
  let codeHash := simpleHash (sub_code submission) in
  sub_titleSlug submission +:+ "-" +:+ sub_language submission +:+ "-"
    +:+ show_nat codeLength +:+ "-" +:+ codeHash.

Definition isValidSubmission (submission : LeetCodeSubmission) : bool :=
  JS.truthy (sub_title submission) && JS.truthy (sub_titleSlug submission)
  && JS.truthy (sub_code submission) && JS.truthy (sub_language submission).

Section WithHost.
Context {Env : Type} `{ServiceHost Env}.

Definition liftHost {A} (m : M Env A) : M (Service Env) A :=
  fun s =>
    match m (outside s) with
    | (r, e') =>
        (r, mkService (processing s) (local_queue s) (local_processed s) (attempts s) e')
    end.

Definition set_processing (f : gset string -> gset string) : M (Service Env) unit :=
  modify (fun s =>
    mkService (f (processing s)) (local_queue s) (local_processed s) (attempts s) (outside s)).

Definition set_queue (q : list QueuedCommit) : M (Service Env) unit :=
  modify (fun s =>
    mkService (processing s) q (local_processed s) (attempts s) (outside s)).

Definition set_processed (p : list string) : M (Service Env) unit :=
  modify (fun s =>
    mkService (processing s) (local_queue s) p (attempts s) (outside s)).

Definition record_attempt (q : QueuedCommit) (outcome : option string) : M (Service Env) unit :=
  modify (fun s =>
    mkService (processing s) (local_queue s) (local_processed s)
      (attempts s ++ [(q, outcome)]) (outside s)).

(** *** [StorageManager]: queue and processed list *)

Definition storage_getCommitQueue : M (Service Env) (list QueuedCommit) :=
  gets local_queue.

Definition storage_addToCommitQueue (commit : QueuedCommit) : M (Service Env) unit :=
  queue <- storage_getCommitQueue ;;
  set_queue (queue ++ [commit]).

Definition storage_removeFromCommitQueue (commitId : string) : M (Service Env) unit :=
  queue <- storage_getCommitQueue ;;
  let filtered := List.filter (fun commit => negb (String.eqb (qc_id commit) commitId)) queue in
  set_queue filtered.

Definition storage_updateCommitInQueue (commitId : string) (updates : QueuedCommitUpdates)
  : M (Service Env) unit :=
  queue <- storage_getCommitQueue ;;
  if existsb (fun commit => String.eqb (qc_id commit) commitId) queue then
    set_queue (update_first (fun commit => String.eqb (qc_id commit) commitId)
                 (fun commit => apply_updates commit updates) queue)
  else ret tt.

Definition storage_getProcessedSubmissions : M (Service Env) (list string) :=
  processed <- gets local_processed ;;
  ret (ordered_set processed).

Definition storage_markSubmissionProcessed (submissionId : string) : M (Service Env) unit :=
  processed <- storage_getProcessedSubmissions ;;
  set_processed (ordered_add submissionId processed).

(** *** [LeetShipBackgroundService] *)

(** The pictograph that opens each title in the source is left out. *)
Definition showNotification (title message : string) : M (Service Env) unit :=
  tryCatch (liftHost (notifications_create title message)) (fun _ => ret tt).

Definition showSuccessNotification (submission : LeetCodeSubmission) : M (Service Env) unit :=
  showNotification "LeetShip Success" (sub_title submission +:+ " committed to GitHub!").

Definition showErrorNotification (title message : string) : M (Service Env) unit :=
  showNotification ("LeetShip: " +:+ title) message.

Definition showAuthRequiredNotification : M (Service Env) unit :=
  showNotification "LeetShip: Setup Required"
    "Connect your GitHub account to commit solutions".

Definition open_options_page : M (Service Env) unit :=
  tryCatch (liftHost (tabs_create "options.html")) (fun _ => ret tt).

Definition handleMissingAuth : M (Service Env) unit :=
  showAuthRequiredNotification ;;
  open_options_page.

Definition handleInvalidToken (_errorMessage : string) : M (Service Env) unit :=
  liftHost githubAuth_clearInvalidToken ;;
  showNotification "LeetShip: Token Issue"
    "GitHub token is invalid or expired. Please re-authenticate." ;;
  open_options_page.

Definition validateAuthentication : M (Service Env) bool :=
  tryCatch
    (isAuthenticated <- liftHost (total tokenManager_isAuthenticated) ;;
     if negb isAuthenticated then
       handleMissingAuth ;; ret false
     else
       token <- liftHost (total tokenManager_getGitHubToken) ;;
       if negb (JS.truthy (default EmptyString token)) then
         handleMissingAuth ;; ret false
       else ret true)
    (fun error => handleInvalidToken error ;; ret false).

(** The call [this.commitManager.processCommit(queuedCommit)], with its
    outcome noted in the ghost field. *)
Definition processCommit (queuedCommit : QueuedCommit) : M (Service Env) unit :=
  fun s =>
    match liftHost (commitManager_processCommit queuedCommit) s with
    | (Ok v, s') => record_attempt queuedCommit None s'
    | (Throw e, s') =>
        (Throw e, snd (record_attempt queuedCommit (Some e) s'))
    end.

Definition isDuplicateSubmission (submission : LeetCodeSubmission) : M (Service Env) bool :=
  processed <- storage_getProcessedSubmissions ;;
  let key := generateSubmissionKey submission in
  ret (bool_decide (key ∈ processed)).

Definition markSubmissionProcessed (submission : LeetCodeSubmission) : M (Service Env) unit :=
  let key := generateSubmissionKey submission in
  storage_markSubmissionProcessed key.

Definition processSubmissionImmediately (submission : LeetCodeSubmission) : M (Service Env) unit :=
  t1 <- liftHost (total Date_now) ;;
  t2 <- liftHost (total Date_now) ;;
  let queuedCommit :=
    mkQueuedCommit ("immediate-" +:+ show_N t1) submission t2 0 None in
  processCommit queuedCommit.

Definition queueSubmissionForRetry (submission : LeetCodeSubmission) (error : string)
  : M (Service Env) unit :=
  t1 <- liftHost (total Date_now) ;;
  t2 <- liftHost (total Date_now) ;;
  let queuedCommit :=
    mkQueuedCommit ("retry-" +:+ show_N t1) submission t2 0 (Some error) in
  storage_addToCommitQueue queuedCommit.

Definition handleSubmissionAccepted (submissionData : LeetCodeSubmission) : M (Service Env) unit :=
  now <- liftHost (total Date_now) ;;
  let processingKey :=
    sub_titleSlug submissionData +:+ "-" +:+ sub_language submissionData
      +:+ "-" +:+ show_N now in
  has <- gets (fun s => bool_decide (processingKey ∈ processing s)) ;;
  if has then ret tt
  else
    set_processing (fun p => p ∪ {[processingKey]}) ;;
    tryFinally
      (tryCatch
         (isAuthenticated <- validateAuthentication ;;
          if negb isAuthenticated then ret tt
          else
            config <- liftHost (total service_getDecryptedConfig) ;;
            if negb (isValidSubmission submissionData) then throw "Invalid submission data"
            else
              duplicate <-
                (if set_skipDuplicates (cfg_settings config)
                 then isDuplicateSubmission submissionData
                 else ret false) ;;
              if duplicate then ret tt
              else
                processSubmissionImmediately submissionData ;;
                markSubmissionProcessed submissionData ;;
                showSuccessNotification submissionData)
         (fun error =>
            if JS.includes error "Bad credentials" || JS.includes error "401" then
              handleInvalidToken error
            else
              queueSubmissionForRetry submissionData error ;;
              showErrorNotification "Commit failed" error))
      (set_processing (fun p => p ∖ {[processingKey]})).

(** The [for ... of queue] loop, over the snapshot [queue].  The pause
    after each item lets time pass and does nothing else. *)
Fixpoint drain (queue : list QueuedCommit) : M (Service Env) unit :=
  match queue with
  | [] => ret tt
  | queuedCommit :: rest =>
      has <- gets (fun s => bool_decide (qc_id queuedCommit ∈ processing s)) ;;
      if has then drain rest
      else if 3 <=? qc_retryCount queuedCommit then
        storage_removeFromCommitQueue (qc_id queuedCommit) ;;
        drain rest
      else
        set_processing (fun p => p ∪ {[qc_id queuedCommit]}) ;;
        tryFinally
          (tryCatch
             (processCommit queuedCommit ;;
              storage_removeFromCommitQueue (qc_id queuedCommit) ;;
              markSubmissionProcessed (qc_submission queuedCommit))
             (fun error =>
                storage_updateCommitInQueue (qc_id queuedCommit)
                  (mkUpdates (Some (qc_retryCount queuedCommit + 1)) (Some (Some error)))))
          (set_processing (fun p => p ∖ {[qc_id queuedCommit]})) ;;
        drain rest
  end.

Definition processQueuedCommits : M (Service Env) unit :=
  tryCatch
    (queue <- storage_getCommitQueue ;;
     isAuthenticated <- validateAuthentication ;;
     if negb isAuthenticated then ret tt
     else drain queue)
    (fun _ => ret tt).

(** *** Vocabulary of the properties *)

(** Two states of the service that differ in the surroundings only. *)
Definition same_store (st st' : Service Env) : Prop :=
  processing st' = processing st
  /\ local_queue st' = local_queue st
  /\ local_processed st' = local_processed st
  /\ attempts st' = attempts st.

(** A computation that returns normally and leaves the store alone. *)
Definition quiet {A} (m : M (Service Env) A) : Prop :=
  forall st, exists a st', m st = (Ok a, st') /\ same_store st st'.

(** A computation that leaves the store alone, also when it throws. *)
Definition framed {A} (m : M (Service Env) A) : Prop :=
  forall st r st', m st = (r, st') -> same_store st st'.

Definition in_flight (p : gset string) (q : QueuedCommit) : bool :=
  bool_decide (qc_id q ∈ p).

(** The items of a snapshot on which a drain invokes the commit
    protocol. *)
Definition attempted (p : gset string) (queue : list QueuedCommit) : list QueuedCommit :=
  List.filter (fun q => negb (in_flight p q) && negb (3 <=? qc_retryCount q)) queue.

Definition failed (q : QueuedCommit) (error : string) : QueuedCommit :=
  apply_updates q (mkUpdates (Some (qc_retryCount q + 1)) (Some (Some error))).

(** The drain as the specification words it: an item in flight is
    skipped, an item with three retries or more is abandoned, any other
    item is attempted and then removed on success, or kept with one more
    retry and the error on failure.  [outcomes] are the results of the
    attempts in order. *)
Fixpoint settle (p : gset string) (queue : list QueuedCommit)
    (outcomes : list (option string)) : list QueuedCommit :=
  match queue with
  | [] => []
  | q :: rest =>
      if in_flight p q then q :: settle p rest outcomes
      else if 3 <=? qc_retryCount q then settle p rest outcomes
      else match outcomes with
           | None :: os => settle p rest os
           | Some e :: os => failed q e :: settle p rest os
           | [] => q :: settle p rest []
           end
  end.

End WithHost.
End Background.

(** A host for the background service that runs by itself: a clock, a
    switch for the credential, and a list of problems whose commit the
    remote rejects.  Its configuration is the default one, in which
    [skipDuplicates] is on. *)
Module Plain.

Record Env := mkEnv {
  clock : N;
  authenticated : bool;
  failing : list string;
  shown : list (string * string)
}.

Definition tick (e : Env) : N * Env :=
  (clock e, mkEnv (N.succ (clock e)) (authenticated e) (failing e) (shown e)).

Definition commit (q : QueuedCommit) : M Env unit :=
  fun e =>
    if bool_decide (sub_titleSlug (qc_submission q) ∈ failing e)
    then (Throw "GitHub API error (409): conflict", e)
    else (Ok tt, e).

Definition sign_out : M Env unit :=
  modify (fun e => mkEnv (clock e) false (failing e) (shown e)).

Definition show (t m : string) : M Env unit :=
  modify (fun e => mkEnv (clock e) (authenticated e) (failing e) (shown e ++ [(t, m)])).

#[global] Instance host : ServiceHost Env := {|
  Date_now := tick;
  tokenManager_isAuthenticated := fun e => (authenticated e, e);
  tokenManager_getGitHubToken :=
    fun e => (if authenticated e then Some "ghp_token" else None, e);
  githubAuth_clearInvalidToken := sign_out;
  service_getDecryptedConfig := fun e => (config_with_token "ghp_token", e);
  commitManager_processCommit := commit;
  tabs_create := fun _ => ret tt;
  notifications_create := show
|}.

Definition submission (t slug code : string) : LeetCodeSubmission :=
  mkSubmission "1" t slug "Easy" [] ("https://leetcode.com/problems/" +:+ slug)
    "52 ms" "15.3 MB" "Python3" "2024-01-01T00:00:00.000Z" code "Accepted"
    None None None.

Definition two_sum : LeetCodeSubmission :=
  submission "Two Sum" "two-sum" "class Solution: pass".

Definition add_two : LeetCodeSubmission :=
  submission "Add Two Numbers" "add-two-numbers" "class Solution: ...".

(** A valid credential; the commit of [add-two-numbers] is rejected. *)
Definition signed_in : Env :=
  mkEnv 1700000000000%N true ["add-two-numbers"] [].

(** A queue with an item that will fail again, one that has used up its
    retries, and one that will go through. *)
Definition some_queue : list QueuedCommit :=
  [ mkQueuedCommit "retry-1" add_two 1%N 2 (Some "GitHub API error (409): conflict");
    mkQueuedCommit "retry-2" two_sum 2%N 3 (Some "GitHub API error (500): oops");
    mkQueuedCommit "retry-3" two_sum 3%N 1 (Some "Failed to fetch") ].

Definition service (queue : list QueuedCommit) (processed : list string) (e : Env)
  : Background.Service Env :=
  Background.mkService ∅ queue processed [] e.

End Plain.

(** A submission as the page extractor can hand it over when the title
    element of the page is empty: every field but the title is there. *)
Definition untitled_two_sum : LeetCodeSubmission :=
  Plain.submission EmptyString "two-sum" "class Solution: pass".

(** The service after [two-sum] has been committed once: the fingerprint is
    in the processed list, the queue is empty. *)
Definition seen_two_sum : Background.Service Plain.Env :=
  Plain.service [] [Background.generateSubmissionKey untitled_two_sum] Plain.signed_in.

(** The background service with the commit manager of this repository in
    the place of [commitManager.processCommit]; [base] supplies the rest. *)
Definition with_commitManager {Env : Type} (base : ServiceHost Env)
    (processCommit : QueuedCommit -> M Env unit) : ServiceHost Env := {|
  Date_now := @Date_now Env base;
  tokenManager_isAuthenticated := @tokenManager_isAuthenticated Env base;
  tokenManager_getGitHubToken := @tokenManager_getGitHubToken Env base;
  githubAuth_clearInvalidToken := @githubAuth_clearInvalidToken Env base;
  service_getDecryptedConfig := @service_getDecryptedConfig Env base;
  commitManager_processCommit := processCommit;
  tabs_create := @tabs_create Env base;
  notifications_create := @notifications_create Env base
|}.

(** A burst of reports: reads of the clock are a tenth of a millisecond
    apart, the credential is valid, and the remote refuses every commit. *)
Module Burst.

Record Env := mkEnv {
  micros : N;
  shown : list (string * string)
}.

(** [Date.now()]: the time in whole milliseconds. *)
Definition tick (e : Env) : N * Env :=
  ((micros e / 1000)%N, mkEnv (micros e + 100)%N (shown e)).

Definition show (t m : string) : M Env unit :=
  modify (fun e => mkEnv (micros e) (shown e ++ [(t, m)])).

Definition host : ServiceHost Env := {|
  Date_now := tick;
  tokenManager_isAuthenticated := fun e => (true, e);
  tokenManager_getGitHubToken := fun e => (Some "ghp_token", e);
  githubAuth_clearInvalidToken := ret tt;
  service_getDecryptedConfig := fun e => (config_with_token "ghp_token", e);
  commitManager_processCommit := fun _ => throw "GitHub API error (409): conflict";
  tabs_create := fun _ => ret tt;
  notifications_create := show
|}.

Definition start : Background.Service Env :=
  Background.mkService ∅ [] [] [] (mkEnv 1700000000000000%N []).

(** Two accepted submissions are reported one after the other. *)
Definition reported : Background.Service Env :=
  snd (@Background.handleSubmissionAccepted Env host Plain.add_two
         (snd (@Background.handleSubmissionAccepted Env host Plain.two_sum start))).

(** The state after [n] further runs of [processQueuedCommits]. *)
Fixpoint passes (n : nat) (st : Background.Service Env) : Background.Service Env :=
  match n with
  | 0 => st
  | S k => passes k (snd (@Background.processQueuedCommits Env host st))
  end.

Definition conflict : string := "GitHub API error (409): conflict".

(** The two items of the queue as a pass over it leaves them. *)
Definition first_item : QueuedCommit :=
  mkQueuedCommit "retry-1700000000000" Plain.two_sum 1700000000000%N 1 (Some conflict).

Definition second_item : QueuedCommit :=
  mkQueuedCommit "retry-1700000000000" Plain.add_two 1700000000000%N 0 (Some conflict).

(** The attempts so far on the queued item of a problem, and those of
    them that threw. *)
Definition queued_attempts (slug : string) (st : Background.Service Env)
  : list (QueuedCommit * option string) :=
  List.filter
    (fun a => JS.startsWith "retry-" (qc_id (fst a))
              && String.eqb (sub_titleSlug (qc_submission (fst a))) slug)
    (Background.attempts st).

Definition thrown (a : QueuedCommit * option string) : bool :=
  match snd a with Some _ => true | None => false end.

End Burst.

Module RemoteService.

(** The surroundings of the background service, with a credential that
    validates. *)
#[global] Instance service_host : ServiceHost (Net Remote.Repo) := {|
  Date_now := fun w => (N.of_nat (length (sent w)), w);
  tokenManager_isAuthenticated := fun w => (true, w);
  tokenManager_getGitHubToken := fun w => (Some "ghp_token", w);
  githubAuth_clearInvalidToken := ret tt;
  service_getDecryptedConfig := fun w => (Remote.config (env w), w);
  commitManager_processCommit := fun _ => ret tt;
  tabs_create := fun _ => ret tt;
  notifications_create := fun _ _ => ret tt
|}.

(** The service with the commit manager, the reference remote, and an
    aggregate README whose update fails. *)
Definition host : ServiceHost (Net Remote.Repo) :=
  with_commitManager service_host
    (CommitManager.processCommit Remote.readme_update_fails).

Definition queued_two_sum : QueuedCommit :=
  mkQueuedCommit "retry-1700000000000" Plain.two_sum 1700000000000%N 1
    (Some "Failed to fetch").

Definition start : Background.Service (Net Remote.Repo) :=
  Background.mkService ∅ [queued_two_sum] [] [] (Remote.start "ghp_token").

(** The run of [processCommit] on the queued item, step by step. *)
Definition two_sum_variables : TemplateEngine.TemplateVariables :=
  TemplateEngine.mkVars "0001" "Two Sum" "two-sum" "easy" EmptyString "python3"
    "52 ms" "15.3 MB" "2024-01-01T00:00:00.000Z"
    "https://leetcode.com/problems/two-sum" None None.

Definition two_sum_files : list CommitFile :=
  [ mkCommitFile "solution.py" "class Solution: pass";
    mkCommitFile "README.md"
      (TemplateEngine.generateReadme (tpl_readme DEFAULT_templates) two_sum_variables
         "class Solution: pass" None) ].

Definition two_sum_written : Res (list CommitResult) * Net Remote.Repo :=
  CommitManager.writeFiles "octocat" "leetcode" "main" "easy-0001-two-sum"
    (TemplateEngine.generateCommitMessage (tpl_commitMessage DEFAULT_templates)
       two_sum_variables)
    two_sum_files
    (Remote.start "ghp_token").

End RemoteService.

(** ** Credential store ([security/secure-storage.ts],
       [security/token-manager.ts], [storage.ts], [auth/github.ts]) *)

Record TokenMetadata := mkTokenMetadata {
  storedAt : N;
  tokenExpiry : option N;
  lastValidated : N
}.

Record CacheEntry := mkCacheEntry {
  valid : bool;
  expires : N
}.

(** What sits under a key of [browser.storage]: a string, or the JSON text
    of a GitHub configuration or of the token metadata, or the
    configuration record. *)
Inductive Stored :=
| VText (s : string)
| VGitHubConfig (g : GitHubConfig)
| VMetadata (m : TokenMetadata)
| VConfig (c : ExtensionConfig).

(** The platform: the hash of [crypto.subtle], the two endpoints of the
    remote API that take a token ([None] when [fetch] rejects; the body of
    [/user] is reduced to its [login]), the time a request takes, and the
    decryption of the previous storage format. *)
Class Platform := {
  hashToken : string -> string;
  GET_rate_limit : string -> N -> option (Response string);
  GET_user : string -> N -> option (Response (option string));
  round_trip : N;
  legacy_decrypt : string -> string
}.

(** The storage areas of the browser, the memory of the token manager and
    of the storage module, and the clock.  [session] is [None] in a browser
    without [storage.session].  [validations] is a ghost field: the tokens
    sent to the remote API for validation, oldest first. *)
Record Vault := mkVault {
  local : gmap string Stored;
  session : option (gmap string Stored);
  tokenValidationCache : gmap string CacheEntry;
  DEFAULT_CONFIG_github : option GitHubConfig;
  clock : N;
  validations : list string
}.

Definition with_local (f : gmap string Stored -> gmap string Stored) (v : Vault) : Vault :=
  mkVault (f (local v)) (session v) (tokenValidationCache v) (DEFAULT_CONFIG_github v)
    (clock v) (validations v).

Definition with_session (s : option (gmap string Stored)) (v : Vault) : Vault :=
  mkVault (local v) s (tokenValidationCache v) (DEFAULT_CONFIG_github v)
    (clock v) (validations v).

Definition with_cache (f : gmap string CacheEntry -> gmap string CacheEntry) (v : Vault) : Vault :=
  mkVault (local v) (session v) (f (tokenValidationCache v)) (DEFAULT_CONFIG_github v)
    (clock v) (validations v).

Definition with_DEFAULT_CONFIG_github (g : option GitHubConfig) (v : Vault) : Vault :=
  mkVault (local v) (session v) (tokenValidationCache v) g (clock v) (validations v).

(** A request for validation leaves at the current time and takes
    [round_trip]. *)
Definition with_validation `{Platform} (token : string) (v : Vault) : Vault :=
  mkVault (local v) (session v) (tokenValidationCache v) (DEFAULT_CONFIG_github v)
    (clock v + round_trip)%N (validations v ++ [token]).

(** Time passing between two calls. *)
Definition elapse (d : N) (v : Vault) : Vault :=
  mkVault (local v) (session v) (tokenValidationCache v) (DEFAULT_CONFIG_github v)
    (clock v + d)%N (validations v).

(** A restart of the browser: the session area and the memory are lost. *)
Definition restart (v : Vault) : Vault :=
  mkVault (local v) ((fun _ => ∅) <$> session v) ∅ None (clock v) (validations v).

Definition Date_now_vault : M Vault N := gets clock.

(** A stored string, read through [value || null]. *)
Definition stored_text (v : option Stored) : option string :=
  match v with
  | Some (VText s) => if JS.truthy s then Some s else None
  | _ => None
  end.

Module SecureStorage.

Definition setSecureData (key : string) (data : Stored) : M Vault unit :=
  modify (with_local (fun m => <[key := data]> m)).

Definition getSecureData (key : string) : M Vault (option Stored) :=
  gets (fun v => local v !! key).

Definition setSessionData (key : string) (data : string) : M Vault unit :=
  tryCatch
    (v <- get ;;
     match session v with
     | Some s => modify (with_session (Some (<[key := VText data]> s)))
     | None => setSecureData ("session:" +:+ key) (VText data)
     end)
    (fun _ => setSecureData ("session:" +:+ key) (VText data)).

Definition getSessionData (key : string) : M Vault (option string) :=
  tryCatch
    (v <- get ;;
     match session v with
     | Some s => ret (stored_text (s !! key))
     | None => data <- getSecureData ("session:" +:+ key) ;; ret (stored_text data)
     end)
    (fun _ => data <- getSecureData ("session:" +:+ key) ;; ret (stored_text data)).

Definition clearSessionData (key : string) : M Vault unit :=
  tryCatch
    (v <- get ;;
     match session v with
     | Some s => modify (with_session (Some (delete key s)))
     | None => modify (with_local (fun m => delete ("session:" +:+ key) m))
     end)
    (fun _ => ret tt).

End SecureStorage.

Module TokenManager.
Section WithPlatform.
Context `{Platform}.

Definition CACHE_DURATION : N := (5 * 60 * 1000)%N.
Definition GITHUB_TOKEN : string := "secure:github:access_token".
Definition GITHUB_REFRESH : string := "secure:github:refresh_token".
Definition GITHUB_CONFIG : string := "secure:github:config".
Definition TOKEN_METADATA : string := "secure:token:metadata".

(** [{ ...config, accessToken: '', refreshToken: '' }] *)
Definition without_tokens (config : GitHubConfig) : GitHubConfig :=
  mkGitHubConfig (gh_username config) (gh_repository config) (gh_branch config)
    EmptyString (Some EmptyString) (gh_tokenExpiry config).

Definition storeGitHubToken (config : GitHubConfig) : M Vault unit :=
  tryCatch
    ((if JS.truthy (gh_accessToken config)
      then SecureStorage.setSessionData GITHUB_TOKEN (gh_accessToken config)
      else ret tt) ;;
     (match gh_refreshToken config with
      | Some refreshToken =>
          if JS.truthy refreshToken
          then SecureStorage.setSecureData GITHUB_REFRESH (VText refreshToken)
          else ret tt
      | None => ret tt
      end) ;;
     let safeConfig := without_tokens config in
     SecureStorage.setSecureData GITHUB_CONFIG (VGitHubConfig safeConfig) ;;
     storedAt <- Date_now_vault ;;
     lastValidated <- Date_now_vault ;;
     SecureStorage.setSecureData TOKEN_METADATA
       (VMetadata (mkTokenMetadata storedAt (gh_tokenExpiry config) lastValidated)))
    (fun _ => throw "Failed to store GitHub token securely").

Definition validateTokenWithGitHub (token : string) : M Vault bool :=
  tryCatch
    (now <- Date_now_vault ;;
     modify (with_validation token) ;;
     match GET_rate_limit token now with
     | Some response => ret (response_ok response)
     | None => throw "Failed to fetch"
     end)
    (fun _ => ret false).

Definition validateTokenWithCache (token : string) : M Vault bool :=
  let tokenHash := hashToken token in
  cached <- gets (fun v => tokenValidationCache v !! tokenHash) ;;
  now <- Date_now_vault ;;
  match cached with
  | Some entry =>
      if (now <? expires entry)%N then ret (valid entry)
      else
        isValid <- validateTokenWithGitHub token ;;
        now' <- Date_now_vault ;;
        modify (with_cache (fun c =>
          <[tokenHash := mkCacheEntry isValid (now' + CACHE_DURATION)%N]> c)) ;;
        ret isValid
  | None =>
      isValid <- validateTokenWithGitHub token ;;
      now' <- Date_now_vault ;;
      modify (with_cache (fun c =>
        <[tokenHash := mkCacheEntry isValid (now' + CACHE_DURATION)%N]> c)) ;;
      ret isValid
  end.

Definition clearAllTokens : M Vault unit :=
  tryCatch
    (SecureStorage.clearSessionData GITHUB_TOKEN ;;
     modify (with_local (fun m =>
       delete TOKEN_METADATA (delete GITHUB_CONFIG (delete GITHUB_REFRESH m)))) ;;
     modify (with_cache (fun _ => ∅)))
    (fun _ => throw "Failed to clear tokens").

(** [JSON.parse] of the stored metadata. *)
Definition parse_metadata (data : Stored) : M Vault TokenMetadata :=
  match data with
  | VMetadata m => ret m
  | _ => throw "SyntaxError: Unexpected token"
  end.

Definition parse_github_config (data : Stored) : M Vault GitHubConfig :=
  match data with
  | VGitHubConfig g => ret g
  | _ => throw "SyntaxError: Unexpected token"
  end.

Definition expired (metadata : TokenMetadata) (now : N) : bool :=
  match tokenExpiry metadata with
  | Some expiry => negb (expiry =? 0)%N && (expiry <? now)%N
  | None => false
  end.

Definition refreshTokenFromStorage : M Vault (option string) :=
  tryCatch
    (metadataStr <- SecureStorage.getSecureData TOKEN_METADATA ;;
     match metadataStr with
     | None => ret None
     | Some data =>
         metadata <- parse_metadata data ;;
         now <- Date_now_vault ;;
         if expired metadata now then
           clearAllTokens ;; ret None
         else
           refreshToken <- SecureStorage.getSecureData GITHUB_REFRESH ;;
           match stored_text refreshToken with
           | Some token =>
               isValid <- validateTokenWithGitHub token ;;
               if isValid then ret (Some token) else ret None
           | None => ret None
           end
     end)
    (fun _ => ret None).

Definition getGitHubToken : M Vault (option string) :=
  tryCatch
    (token <- SecureStorage.getSessionData GITHUB_TOKEN ;;
     found <-
       match token with
       | Some t =>
           isValid <- validateTokenWithCache t ;;
           if isValid then ret (Some t)
           else SecureStorage.clearSessionData GITHUB_TOKEN ;; ret None
       | None => ret None
       end ;;
     match found with
     | Some t => ret (Some t)
     | None =>
         token <- refreshTokenFromStorage ;;
         match token with
         | Some t =>
             tryCatch (SecureStorage.setSessionData GITHUB_TOKEN t) (fun _ => ret tt) ;;
             ret (Some t)
         | None => ret None
         end
     end)
    (fun _ => ret None).

Definition getGitHubConfig : M Vault (option GitHubConfig) :=
  tryCatch
    (configData <- SecureStorage.getSecureData GITHUB_CONFIG ;;
     match configData with
     | None => ret None
     | Some data =>
         config <- parse_github_config data ;;
         accessToken <- getGitHubToken ;;
         refreshToken <- SecureStorage.getSecureData GITHUB_REFRESH ;;
         ret (Some (mkGitHubConfig (gh_username config) (gh_repository config)
                      (gh_branch config)
                      (default EmptyString accessToken)
                      (Some (default EmptyString (stored_text refreshToken)))
                      (gh_tokenExpiry config)))
     end)
    (fun _ => ret None).

Definition isAuthenticated : M Vault bool :=
  token <- getGitHubToken ;;
  ret (match token with Some t => JS.truthy t | None => false end).

Definition forceTokenRefresh : M Vault unit :=
  SecureStorage.clearSessionData GITHUB_TOKEN ;;
  modify (with_cache (fun _ => ∅)).

End WithPlatform.
End TokenManager.

Module StorageManager.
Section WithPlatform.
Context `{Platform}.

Definition CONFIG : string := "LeetShip:config".

(** [DEFAULT_CONFIG] is one object for the whole module; its [github]
    property is the only one that is ever assigned. *)
Definition DEFAULT_CONFIG (v : Vault) : ExtensionConfig :=
  mkExtensionConfig (DEFAULT_CONFIG_github v) DEFAULT_templates DEFAULT_settings 1.

Definition with_github (g : option GitHubConfig) (c : ExtensionConfig) : ExtensionConfig :=
  mkExtensionConfig g (cfg_templates c) (cfg_settings c) (cfg_version c).

Definition setConfig (config : ExtensionConfig) : M Vault unit :=
  tryCatch
    ((match cfg_github config with
      | Some github => TokenManager.storeGitHubToken github
      | None => ret tt
      end) ;;
     let configToStore :=
       with_github (TokenManager.without_tokens <$> cfg_github config) config in
     modify (with_local (fun m => <[CONFIG := VConfig configToStore]> m)))
    (fun error => throw error).

(** The configuration and whether it is the object [DEFAULT_CONFIG]
    itself rather than a copy. *)
Definition getConfig : M Vault (ExtensionConfig * bool) :=
  tryCatch
    (stored <- gets (fun v => local v !! CONFIG) ;;
     match stored with
     | Some (VConfig c) => ret (c, false)
     | _ =>
         d <- gets DEFAULT_CONFIG ;;
         setConfig d ;;
         d' <- gets DEFAULT_CONFIG ;;
         ret (d', true)
     end)
    (fun _ => d <- gets DEFAULT_CONFIG ;; ret (d, true)).

(** [config.github = g] on what [getConfig] returned. *)
Definition assign_github (g : option GitHubConfig) (alias : bool) : M Vault unit :=
  if alias then modify (with_DEFAULT_CONFIG_github g) else ret tt.

(** The configuration with the tokens put back in, and whether it is the
    object [DEFAULT_CONFIG] itself. *)
Definition getDecryptedConfig : M Vault (ExtensionConfig * bool) :=
  current <- getConfig ;;
  let config := fst current in
  let alias := snd current in
  githubConfig <- TokenManager.getGitHubConfig ;;
  match githubConfig with
  | Some g =>
      assign_github (Some g) alias ;;
      ret (with_github (Some g) config, alias)
  | None =>
      match cfg_github config with
      | None => ret (config, alias)
      | Some github =>
          let accessToken :=
            if JS.truthy (gh_accessToken github)
            then legacy_decrypt (gh_accessToken github) else gh_accessToken github in
          let refreshToken :=
            match gh_refreshToken github with
            | Some r => Some (if JS.truthy r then legacy_decrypt r else r)
            | None => None
            end in
          let decrypted :=
            mkGitHubConfig (gh_username github) (gh_repository github) (gh_branch github)
              accessToken refreshToken (gh_tokenExpiry github) in
          let cleared :=
            mkGitHubConfig (gh_username github) (gh_repository github) (gh_branch github)
              EmptyString (Some EmptyString) (gh_tokenExpiry github) in
          assign_github (Some decrypted) alias ;;
          final <-
            tryCatch
              ((if JS.truthy accessToken then TokenManager.storeGitHubToken decrypted
                else ret tt) ;;
               ret decrypted)
              (fun _ => assign_github (Some cleared) alias ;; ret cleared) ;;
          ret (with_github (Some final) config, alias)
      end
  end.

Definition forceTokenRefresh : M Vault unit :=
  tryCatch
    (TokenManager.forceTokenRefresh ;;
     current <- getConfig ;;
     let config := fst current in
     let alias := snd current in
     match cfg_github config with
     | Some github =>
         let github' :=
           mkGitHubConfig (gh_username github) (gh_repository github) (gh_branch github)
             EmptyString (Some EmptyString) None in
         assign_github (Some github') alias ;;
         modify (with_local (fun m => <[CONFIG := VConfig (with_github (Some github') config)]> m))
     | None => ret tt
     end)
    (fun error => throw error).

End WithPlatform.
End StorageManager.

Module GitHubAuth.
Section WithPlatform.
Context `{Platform}.

(** A request with a token: it leaves at the current time and takes
    [round_trip]. *)
Definition ghFetch {A} (endpoint : string -> N -> option (Response A)) (token : string)
  : M Vault (Response A) :=
  now <- Date_now_vault ;;
  modify (elapse round_trip) ;;
  match endpoint token now with
  | Some response => ret response
  | None => throw "Failed to fetch"
  end.

Definition assertTokenAccepted (token : string) : M Vault unit :=
  response <- ghFetch GET_rate_limit token ;;
  if negb (response_ok response) then
    throw ("Token validation failed (" +:+ show_nat (status response) +:+ "): "
           +:+ body response)
  else ret tt.

(** Returns the [login] of the user, when the remote tells. *)
Definition tryGetUserInfo (token : string) : M Vault (option string) :=
  tryCatch
    (response <- ghFetch GET_user token ;;
     if status response =? 403 then ret None
     else if negb (response_ok response) then
       throw ("Failed to get user info (" +:+ show_nat (status response) +:+ ")")
     else ret (body response))
    (fun _ => ret None).

Definition authenticateWithToken (token : string) : M Vault GitHubConfig :=
  tryCatch
    (assertTokenAccepted token ;;
     userInfo <- tryGetUserInfo token ;;
     ret (mkGitHubConfig (default EmptyString userInfo) EmptyString "main" token
            (Some EmptyString) None))
    (fun error => throw error).

End WithPlatform.
End GitHubAuth.

(** The payload of an [AUTH_WITH_PAT] message and the response to it. *)
Record AuthPayload := mkAuthPayload {
  pay_token : string;
  pay_owner : option string;
  pay_repository : string;
  pay_branch : string
}.

Record AuthResponse := mkAuthResponse {
  auth_success : bool;
  auth_error : option string;
  auth_config : option GitHubConfig
}.

(** [handleAuthWithPAT] of the background service ([background/index.ts]). *)
Module BackgroundAuth.
Section WithPlatform.
Context `{Platform}.

Definition handleAuthWithPAT (payload : AuthPayload) : M Vault AuthResponse :=
  tryCatch
    (config <- GitHubAuth.authenticateWithToken (pay_token payload) ;;
     let username :=
       match pay_owner payload with
       | Some owner =>
           if JS.truthy owner && negb (JS.truthy (gh_username config))
           then owner else gh_username config
       | None => gh_username config
       end in
     let config :=
       mkGitHubConfig username (pay_repository payload) (pay_branch payload)
         (gh_accessToken config) (gh_refreshToken config) (gh_tokenExpiry config) in
     current <- StorageManager.getDecryptedConfig ;;
     StorageManager.assign_github (Some config) (snd current) ;;
     StorageManager.setConfig (StorageManager.with_github (Some config) (fst current)) ;;
     ret (mkAuthResponse true None (Some config)))
    (fun error => ret (mkAuthResponse false (Some error) None)).

End WithPlatform.
End BackgroundAuth.

(** [handleAuthWithPAT] of the Firefox background script
    ([background/firefox-background.js]).  The script reads and writes the
    configuration record with its own [storage.get] and [storage.set]; a
    record that is missing starts as an empty object, which is rendered
    here by the default templates and settings around the [github]
    property. *)
Module FirefoxBackground.
Section WithPlatform.
Context `{Platform}.

Definition storage_get (key : string) : M Vault (option Stored) :=
  tryCatch (gets (fun v => local v !! key)) (fun _ => ret None).

Definition storage_set (key : string) (value : Stored) : M Vault bool :=
  tryCatch (modify (with_local (fun m => <[key := value]> m)) ;; ret true)
    (fun _ => ret false).

Definition handleAuthWithPAT (payload : AuthPayload) : M Vault AuthResponse :=
  tryCatch
    (GitHubAuth.assertTokenAccepted (pay_token payload) ;;
     userInfo <- GitHubAuth.tryGetUserInfo (pay_token payload) ;;
     let config :=
       mkGitHubConfig
         (JS.or_else (default EmptyString userInfo)
            (JS.or_else (default EmptyString (pay_owner payload)) EmptyString))
         (pay_repository payload)
         (JS.or_else (pay_branch payload) "main")
         (pay_token payload) (Some EmptyString) None in
     stored <- storage_get "LeetShip:config" ;;
     let currentConfig :=
       match stored with
       | Some (VConfig c) => c
       | _ => mkExtensionConfig None DEFAULT_templates DEFAULT_settings 1
       end in
     storage_set "LeetShip:config"
       (VConfig (StorageManager.with_github (Some config) currentConfig)) ;;
     ret (mkAuthResponse true None (Some config)))
    (fun error => ret (mkAuthResponse false (Some error) None)).

End WithPlatform.
End FirefoxBackground.

(** A platform whose remote accepts every token. *)
Module Accepting.

#[global] Instance platform : Platform := {|
  hashToken := fun t => "sha256:" +:+ t;
  GET_rate_limit := fun _ _ => Some (mkResponse 200 "{}");
  GET_user := fun _ _ => Some (mkResponse 200 (Some "octocat"));
  round_trip := 120%N;
  legacy_decrypt := fun s => s
|}.

(** A browser with a session area and nothing stored. *)
Definition fresh : Vault := mkVault ∅ (Some ∅) ∅ None 1700000000000%N [].

(** A credential whose refresh token is the access token, which is what
    [refreshTokenFromStorage] takes the durable copy of a personal access
    token to be. *)
Definition both_tokens : GitHubConfig :=
  mkGitHubConfig "octocat" "leetcode" "main" "ghp_token" (Some "ghp_token") None.

(** The credential has been stored, then the browser was restarted: the
    token is in the durable tier only. *)
Definition after_restart : Vault :=
  restart (snd (TokenManager.storeGitHubToken both_tokens fresh)).

Definition pat_payload : AuthPayload :=
  mkAuthPayload "ghp_token" None "leetcode" "main".

End Accepting.

(** *** Vocabulary of the properties *)

(** The record under the plain configuration key holds no token. *)
Definition plain_record_clean (v : Vault) : Prop :=
  forall c g,
    local v !! StorageManager.CONFIG = Some (VConfig c) ->
    cfg_github c = Some g ->
    gh_accessToken g = EmptyString /\ gh_refreshToken g = Some EmptyString.

(** The configuration as [setConfig] stores it. *)
Definition stripped (config : ExtensionConfig) : ExtensionConfig :=
  StorageManager.with_github (TokenManager.without_tokens <$> cfg_github config) config.

(** A computation that writes neither the plain configuration record nor
    the [github] property of [DEFAULT_CONFIG], whether it returns or
    throws. *)
Definition keeps_plain {A} (m : M Vault A) : Prop :=
  forall v r v',
    m v = (r, v') ->
    local v' !! StorageManager.CONFIG = local v !! StorageManager.CONFIG
    /\ DEFAULT_CONFIG_github v' = DEFAULT_CONFIG_github v.

(** A computation that returns. *)
Definition returns {A} (m : M Vault A) : Prop :=
  forall v, exists a v', m v = (Ok a, v').

(** ** Language names ([leetcode/language-mapping.ts]) *)

Module LanguageMapping.

Definition LANGUAGE_EXTENSIONS : list (string * string) :=
  [ ("C", ".c"); ("C++", ".cpp"); ("C#", ".cs"); ("Bash", ".sh"); ("Dart", ".dart");
    ("Elixir", ".ex"); ("Erlang", ".erl"); ("Go", ".go"); ("Java", ".java");
    ("JavaScript", ".js"); ("Javascript", ".js"); ("Kotlin", ".kt"); ("MySQL", ".sql");
    ("MS SQL Server", ".sql"); ("Oracle", ".sql"); ("PHP", ".php"); ("Pandas", ".py");
    ("PostgreSQL", ".sql"); ("Python", ".py"); ("Python3", ".py"); ("Racket", ".rkt");
    ("Ruby", ".rb"); ("Rust", ".rs"); ("Scala", ".scala"); ("Swift", ".swift");
    ("TypeScript", ".ts") ].

Definition variations : list (string * string) :=
  [ ("js", ".js"); ("javascript", ".js"); ("python", ".py"); ("python3", ".py");
    ("cpp", ".cpp"); ("c++", ".cpp"); ("c#", ".cs"); ("csharp", ".cs"); ("java", ".java");
    ("typescript", ".ts"); ("ts", ".ts"); ("rust", ".rs"); ("go", ".go");
    ("swift", ".swift"); ("kotlin", ".kt"); ("scala", ".scala"); ("php", ".php");
    ("ruby", ".rb"); ("dart", ".dart"); ("elixir", ".ex"); ("erlang", ".erl");
    ("racket", ".rkt"); ("bash", ".sh"); ("shell", ".sh"); ("sql", ".sql");
    ("mysql", ".sql"); ("postgresql", ".sql"); ("oracle", ".sql");
    ("ms sql server", ".sql"); ("pandas", ".py") ].

(** The first entry whose name, in lower case, is [lower]. *)
Fixpoint caseInsensitive (lower : string) (table : list (string * string)) : option string :=
  match table with
  | [] => None
  | (lang, ext) :: rest =>
      if String.eqb (JS.toLowerCase lang) lower then Some ext
      else caseInsensitive lower rest
  end.

Definition getLanguageExtension (language : string) : option string :=
  if negb (JS.truthy language) then None
  else
    let normalizedLanguage := JS.trim language in
    match JS.lookup_key normalizedLanguage LANGUAGE_EXTENSIONS with
    | Some ext => Some ext
    | None =>
        let lowerLanguage := JS.toLowerCase normalizedLanguage in
        match caseInsensitive lowerLanguage LANGUAGE_EXTENSIONS with
        | Some ext => Some ext
        | None => JS.lookup_key lowerLanguage variations
        end
    end.

(** The first entry that has the extension [ext]. *)
Fixpoint canonical (ext : string) (table : list (string * string)) : option string :=
  match table with
  | [] => None
  | (lang, extension) :: rest =>
      if String.eqb extension ext then Some lang else canonical ext rest
  end.

Definition getDisplayName (language : string) : string :=
  match getLanguageExtension language with
  | None => language
  | Some ext => default language (canonical ext LANGUAGE_EXTENSIONS)
  end.

End LanguageMapping.

(** ** The problem page and the two extractors of the content script *)

(** An element of the document, with what the extractors read of it.
    [el_viewLines] is the text of the children of the element's parent that
    carry the class [view-line]: the list the scan of a Monaco view builds
    from [element.parentElement?.children]. *)
Record Element := mkElement {
  el_tagName : string;
  el_value : string;
  el_textContent : option string;
  el_className : option string;
  el_attributes : list (string * string);
  el_viewLines : list string
}.

Definition getAttribute (name : string) (e : Element) : option string :=
  JS.lookup_key name (el_attributes e).

Definition hasAttribute (name : string) (e : Element) : bool :=
  match getAttribute name e with Some _ => true | None => false end.

(** [window.monaco]: absent, present with the models of its editor, or
    throwing when it is asked. *)
Inductive Monaco :=
| MonacoAbsent
| MonacoThrows
| MonacoModels (models : list string).

Record Lang := mkLang { lang_name : string; lang_verboseName : string }.

Record Question := mkQuestion {
  q_title : string; q_titleSlug : string; q_difficulty : string }.

(** The [submissionDetails] object of the GraphQL answer. *)
Record SubmissionDetails := mkDetails {
  d_runtime : string;
  d_runtimeDisplay : string;
  d_memory : string;
  d_memoryDisplay : string;
  d_code : string;
  d_lang : option Lang;
  d_question : option Question
}.

(** The outcome of the [fetch] of the GraphQL endpoint: a rejected promise,
    or a response whose JSON body may fail to parse ([None]) and may lack
    [data.submissionDetails] ([Some None]). *)
Inductive Fetched :=
| NetworkError
| Responded (ok : bool) (status : nat) (json : option (option SubmissionDetails)).

(** A page state: the document through its selector queries, in document
    order, the location, the editor API, what the GraphQL endpoint answers
    for a submission id, and the clock.  An extraction reads one state. *)
Record Page := mkPage {
  querySelectorAll : string -> list Element;
  body_textContent : option string;
  location_href : string;
  location_pathname : string;
  monaco : Monaco;
  graphql : string -> Fetched;
  page_now : N;
  page_toISOString : string
}.

Definition querySelector (page : Page) (selector : string) : option Element :=
  head (querySelectorAll page selector).

(** A loop that returns from its body at the first element that gives a
    result. *)
Fixpoint firstSome {A B : Type} (f : A -> option B) (l : list A) : option B :=
  match l with
  | [] => None
  | x :: rest =>
      match f x with
      | Some y => Some y
      | None => firstSome f rest
      end
  end.

Definition is_digit (c : ascii) : bool :=
  let n := nat_of_ascii c in (48 <=? n) && (n <=? 57).

Definition is_digit_or_dot (c : ascii) : bool :=
  is_digit c || (nat_of_ascii c =? 46).

Definition not_slash (c : ascii) : bool :=
  negb (nat_of_ascii c =? 47).

(** The longest prefix made of characters of a class. *)
Fixpoint run (cls : ascii -> bool) (s : string) : string :=
  match s with
  | EmptyString => EmptyString
  | String c s' => if cls c then String c (run cls s') else EmptyString
  end.

(** The group of the first match of [prefix(cls+)], as for
    [/submissions\/(\d+)/] and [/\/problems\/([^/]+)/]. *)
Fixpoint match_after (prefix : string) (cls : ascii -> bool) (s : string) : option string :=
  let here :=
    if JS.startsWith prefix s then
      match run cls (JS.drop (String.length prefix) s) with
      | EmptyString => None
      | group => Some group
      end
    else None in
  match here with
  | Some group => Some group
  | None =>
      match s with
      | EmptyString => None
      | String _ s' => match_after prefix cls s'
      end
  end.

(** The group of the first match of [(cls+)\s*unit], as for [/(\d+)\s*ms/]
    and [/([\d.]+)\s*MB/]: no character of the class is white space or the
    head of the unit, so only the longest run can be followed by it. *)
Fixpoint match_before (cls : ascii -> bool) (unit : string) (s : string) : option string :=
  let here :=
    match run cls s with
    | EmptyString => None
    | group =>
        if JS.startsWith unit (JS.trimStart (JS.drop (String.length group) s))
        then Some group else None
    end in
  match here with
  | Some group => Some group
  | None =>
      match s with
      | EmptyString => None
      | String _ s' => match_before cls unit s'
      end
  end.

(** [element.textContent?.toLowerCase() || ''] and the like. *)
Definition lower_or_empty (text : option string) : string :=
  default EmptyString (JS.toLowerCase <$> text).

(** [element.textContent?.trim()] followed by [|| ''] *)
Definition trim_or_empty (text : option string) : string :=
  default EmptyString (JS.trim <$> text).

Definition text_or_empty (text : option string) : string :=
  default EmptyString text.

(** [code && code.length > n] *)
Definition longer_than (n : nat) (code : string) : bool :=
  JS.truthy code && (n <? String.length code).

(** The two [forEach] loops over the statistics: a later match replaces an
    earlier one. *)
Definition scanStats (elements : list Element) : string * string :=
  fold_left
    (fun acc el =>
       let text := text_or_empty (el_textContent el) in
       let runtime :=
         match match_before is_digit "ms" text with
         | Some group => group +:+ " ms"
         | None => fst acc
         end in
       let memory :=
         match match_before is_digit_or_dot "MB" text with
         | Some group => group +:+ " MB"
         | None => snd acc
         end in
       (runtime, memory))
    elements ("N/A", "N/A").

Definition getLanguageFrom (page : Page) (langSelectors : list string) : string :=
  default "Unknown"
    (firstSome
       (fun selector =>
          match querySelector page selector with
          | Some element =>
              match JS.trim <$> el_textContent element with
              | Some text =>
                  if JS.truthy text && negb (String.eqb text "Select Language")
                  then Some (LanguageMapping.getDisplayName text)
                  else None
              | None => None
              end
          | None => None
          end)
       langSelectors).

Definition extractTitleSlugFromUrl (page : Page) : string :=
  default EmptyString (match_after "/problems/" not_slash (location_pathname page)).

Record ProblemInfo := mkProblemInfo {
  pi_title : string; pi_titleSlug : string; pi_difficulty : string }.

(** The object literal the two DOM paths return. *)
Definition pageSubmission (page : Page) (problemInfo : ProblemInfo) (code language : string)
    (stats : string * string) : LeetCodeSubmission :=
  {| sub_id := show_N (page_now page);
     sub_title := pi_title problemInfo;
     sub_titleSlug := pi_titleSlug problemInfo;
     sub_difficulty := pi_difficulty problemInfo;
     sub_language := language;
     sub_code := code;
     sub_status := "Accepted";
     sub_runtime := JS.or_else (fst stats) "N/A";
     sub_memory := JS.or_else (snd stats) "N/A";
     sub_timestamp := page_toISOString page;
     sub_link := location_href page;
     sub_fileExtension := LanguageMapping.getLanguageExtension language;
     sub_tags := [];
     sub_runtimePercentile := None;
     sub_memoryPercentile := None |}.

Module LeetCodeV1.

Definition successSelectors : list string :=
  [ ".fa-check-circle"; ".accepted"; "div[data-cy=" +:+ dquote +:+ "accept-color" +:+ dquote +:+ "]";
    ".text-green-500"; ".text-success"; "[class*=" +:+ dquote +:+ "success" +:+ dquote +:+ "]";
    "[class*=" +:+ dquote +:+ "accepted" +:+ dquote +:+ "]";
    "svg[data-icon=" +:+ dquote +:+ "check" +:+ dquote +:+ "]" ].

Definition isSubmissionSuccess (page : Page) : bool :=
  existsb
    (fun selector =>
       existsb
         (fun element =>
            let text := lower_or_empty (el_textContent element) in
            JS.includes text "accepted" || JS.includes text "success"
            || JS.includes text "correct")
         (querySelectorAll page selector))
    successSelectors.

Definition codeSelectors : list string :=
  [ ".CodeMirror-code"; ".ace_content"; "textarea[name=" +:+ dquote +:+ "code" +:+ dquote +:+ "]";
    ".CodeMirror textarea"; ".ace_editor textarea";
    "[data-cy=" +:+ dquote +:+ "code-area" +:+ dquote +:+ "]" ].

Definition getCode (page : Page) : option string :=
  firstSome
    (fun selector =>
       firstSome
         (fun element =>
            let code :=
              if String.eqb (el_tagName element) "TEXTAREA" then el_value element
              else text_or_empty (el_textContent element) in
            let code := JS.trim code in
            if longer_than 10 code then Some code else None)
         (querySelectorAll page selector))
    codeSelectors.

Definition extractDifficulty (page : Page) : string :=
  let byDegree :=
    match querySelector page "[data-degree]" with
    | Some difficultyElement =>
        match getAttribute "data-degree" difficultyElement with
        | Some "1" => Some "Easy"
        | Some "2" => Some "Medium"
        | Some "3" => Some "Hard"
        | _ => None
        end
    | None => None
    end in
  match byDegree with
  | Some difficulty => difficulty
  | None =>
      let text := lower_or_empty (body_textContent page) in
      if JS.includes text "easy" then "Easy"
      else if JS.includes text "medium" then "Medium"
      else if JS.includes text "hard" then "Hard"
      else "Easy"
  end.

Definition getProblemInfo (page : Page) : option ProblemInfo :=
  match querySelector page ("[data-cy=" +:+ dquote +:+ "question-title" +:+ dquote +:+ "], h3") with
  | None => None
  | Some titleElement =>
      Some (mkProblemInfo (trim_or_empty (el_textContent titleElement))
              (extractTitleSlugFromUrl page) (extractDifficulty page))
  end.

Definition getLanguage (page : Page) : string :=
  getLanguageFrom page
    [ "[data-cy=" +:+ dquote +:+ "lang-select" +:+ dquote +:+ "] button span";
      ".ant-select-selection-item" ].

Definition getStats (page : Page) : string * string :=
  scanStats (querySelectorAll page
    ("[data-cy=" +:+ dquote +:+ "runtime" +:+ dquote +:+ "], [data-cy="
     +:+ dquote +:+ "memory" +:+ dquote +:+ "]")).

Definition getSubmissionDetails (page : Page) : option LeetCodeSubmission :=
  if negb (isSubmissionSuccess page) then None
  else
    match getProblemInfo page, getCode page with
    | Some problemInfo, Some code =>
        if negb (JS.truthy code) then None
        else Some (pageSubmission page problemInfo code (getLanguage page) (getStats page))
    | _, _ => None
    end.

End LeetCodeV1.

Module LeetCodeV2.

Definition successSelectors : list string :=
  [ "[data-e2e-locator=" +:+ dquote +:+ "submission-result" +:+ dquote +:+ "]";
    "[data-testid=" +:+ dquote +:+ "submission-result" +:+ dquote +:+ "]";
    ".submission-result";
    "[class*=" +:+ dquote +:+ "text-green" +:+ dquote +:+ "]";
    "[class*=" +:+ dquote +:+ "bg-green" +:+ dquote +:+ "]";
    ".text-success"; ".bg-success";
    "[aria-label*=" +:+ dquote +:+ "Accepted" +:+ dquote +:+ "]";
    "[title*=" +:+ dquote +:+ "Accepted" +:+ dquote +:+ "]";
    "svg[data-icon=" +:+ dquote +:+ "check" +:+ dquote +:+ "]";
    ".fa-check"; ".checkmark" ].

Definition successKeywords : list string :=
  [ "accepted"; "success"; "correct"; "passed"; "great job"; "well done" ].

Definition isSubmissionSuccess (page : Page) : bool :=
  existsb
    (fun selector =>
       existsb
         (fun element =>
            let text := lower_or_empty (el_textContent element) in
            let ariaLabel := lower_or_empty (getAttribute "aria-label" element) in
            let title := lower_or_empty (getAttribute "title" element) in
            let className := lower_or_empty (el_className element) in
            let allText :=
              JS.toLowerCase (text +:+ " " +:+ ariaLabel +:+ " " +:+ title +:+ " " +:+ className) in
            existsb (fun keyword => JS.includes allText keyword) successKeywords)
         (querySelectorAll page selector))
    successSelectors
  || existsb
       (fun element =>
          let text := lower_or_empty (el_textContent element) in
          let dataStatus := lower_or_empty (getAttribute "data-status" element) in
          (JS.includes text "accepted" || JS.includes dataStatus "accepted")
          && negb (JS.includes text "wrong")
          && negb (JS.includes text "error"))
       (querySelectorAll page
          ("[class*=" +:+ dquote +:+ "status" +:+ dquote +:+ "], [class*="
           +:+ dquote +:+ "result" +:+ dquote +:+ "], [data-status]")).

(** The first part of [getCode]: the value of the first model of the
    editor, returned as it is. *)
Definition monacoCode (page : Page) : option string :=
  match monaco page with
  | MonacoModels (code :: _) => Some code
  | _ => None
  end.

Definition codeSelectors : list string :=
  [ ".monaco-editor .view-lines"; ".monaco-editor textarea"; ".view-lines .view-line";
    ".CodeMirror-code"; ".CodeMirror textarea"; ".code-editor textarea";
    "textarea[data-mode]"; "[data-cy=" +:+ dquote +:+ "code-area" +:+ dquote +:+ "]";
    ".ace_content";
    "[contenteditable=" +:+ dquote +:+ "true" +:+ dquote +:+ "][data-mode]";
    ".editor-content" ].

(** The second part: the scan of the selectors. *)
Definition selectorCode (page : Page) : option string :=
  firstSome
    (fun selector =>
       firstSome
         (fun element =>
            let code :=
              if String.eqb (el_tagName element) "TEXTAREA" then el_value element
              else if hasAttribute "contenteditable" element
              then text_or_empty (el_textContent element)
              else if JS.includes selector "view-line" then
                match el_viewLines element with
                | [] => EmptyString
                | lines => JS.join JS.nl lines
                end
              else text_or_empty (el_textContent element) in
            let code := JS.trim code in
            if longer_than 10 code then Some code else None)
         (querySelectorAll page selector))
    codeSelectors.

(** The third part: any text area that looks like code. *)
Definition textareaCode (page : Page) : option string :=
  firstSome
    (fun textarea =>
       let code := JS.trim (el_value textarea) in
       if longer_than 20 code
          && (JS.includes code "function" || JS.includes code "class"
              || JS.includes code "def")
       then Some code else None)
    (querySelectorAll page "textarea").

Definition getCode (page : Page) : option string :=
  match monacoCode page with
  | Some code => Some code
  | None =>
      match selectorCode page with
      | Some code => Some code
      | None => textareaCode page
      end
  end.

Definition difficultySelectors : list string :=
  [ "[class*=" +:+ dquote +:+ "text-olive" +:+ dquote +:+ "]";
    "[class*=" +:+ dquote +:+ "text-yellow" +:+ dquote +:+ "]";
    "[class*=" +:+ dquote +:+ "text-red" +:+ dquote +:+ "]";
    "[class*=" +:+ dquote +:+ "bg-olive" +:+ dquote +:+ "]";
    "[class*=" +:+ dquote +:+ "bg-yellow" +:+ dquote +:+ "]";
    "[class*=" +:+ dquote +:+ "bg-red" +:+ dquote +:+ "]" ].

Definition extractDifficulty (page : Page) : string :=
  default "Easy"
    (firstSome
       (fun selector =>
          match querySelector page selector with
          | Some element =>
              let text := lower_or_empty (el_textContent element) in
              if JS.includes text "easy" then Some "Easy"
              else if JS.includes text "medium" then Some "Medium"
              else if JS.includes text "hard" then Some "Hard"
              else None
          | None => None
          end)
       difficultySelectors).

Definition getProblemInfo (page : Page) : option ProblemInfo :=
  match querySelector page ("[data-cy=" +:+ dquote +:+ "question-title" +:+ dquote +:+ "], h1, h2") with
  | None => None
  | Some titleElement =>
      Some (mkProblemInfo (trim_or_empty (el_textContent titleElement))
              (extractTitleSlugFromUrl page) (extractDifficulty page))
  end.

Definition findSubmissionId (page : Page) : option string :=
  match match_after "submissions/" is_digit (location_href page) with
  | Some id => Some id
  | None =>
      firstSome
        (fun el =>
           match getAttribute "data-submission-id" el with
           | Some id => if JS.truthy id then Some id else None
           | None => None
           end)
        (querySelectorAll page "[data-submission-id]")
  end.

(** The body of the [try]: [None] stands for anything thrown, which the
    [catch] turns into [null].  Reading [details.question] or
    [details.lang] where the answer has none throws a [TypeError]. *)
Definition getSubmissionFromGraphQL (page : Page) (submissionId : string)
    : option LeetCodeSubmission :=
  match graphql page submissionId with
  | NetworkError => None
  | Responded ok _ json =>
      if negb ok then None
      else
        match json with
        | Some (Some details) =>
            match d_question details, d_lang details with
            | Some question, Some lang =>
                let language := JS.or_else (lang_verboseName lang) (lang_name lang) in
                Some {| sub_id := submissionId;
                        sub_title := q_title question;
                        sub_titleSlug := q_titleSlug question;
                        sub_difficulty := q_difficulty question;
                        sub_language := language;
                        sub_code := d_code details;
                        sub_status := "Accepted";
                        sub_runtime :=
                          JS.or_else (d_runtimeDisplay details) (d_runtime details +:+ " ms");
                        sub_memory :=
                          JS.or_else (d_memoryDisplay details) (d_memory details +:+ " MB");
                        sub_timestamp := page_toISOString page;
                        sub_link := location_href page;
                        sub_fileExtension := LanguageMapping.getLanguageExtension language;
                        sub_tags := [];
                        sub_runtimePercentile := None;
                        sub_memoryPercentile := None |}
            | _, _ => None
            end
        | _ => None
        end
  end.

Definition getLanguage (page : Page) : string :=
  getLanguageFrom page
    [ "[data-cy=" +:+ dquote +:+ "lang-select" +:+ dquote +:+ "] .ant-select-selection-item";
      ".ant-select-selection-item";
      "[role=" +:+ dquote +:+ "combobox" +:+ dquote +:+ "] span" ].

Definition getStats (page : Page) : string * string :=
  scanStats (querySelectorAll page
    ("[data-e2e-locator=" +:+ dquote +:+ "submission-result" +:+ dquote +:+ "] *")).

Definition getSubmissionFromPage (page : Page) : option LeetCodeSubmission :=
  match getProblemInfo page, getCode page with
  | Some problemInfo, Some code =>
      if negb (JS.truthy code) then None
      else Some (pageSubmission page problemInfo code (getLanguage page) (getStats page))
  | _, _ => None
  end.

Definition getSubmissionDetails (page : Page) : option LeetCodeSubmission :=
  if negb (isSubmissionSuccess page) then None
  else
    match findSubmissionId page with
    | Some submissionId => getSubmissionFromGraphQL page submissionId
    | None => getSubmissionFromPage page
    end.

End LeetCodeV2.

(** Page states for the examples. *)
Module Pages.

Definition div (text : string) : Element :=
  mkElement "DIV" EmptyString (Some text) (Some EmptyString) [] [].

Definition view_line (lines : list string) (text : string) : Element :=
  mkElement "DIV" EmptyString (Some text) (Some "view-line") [] lines.

Definition unanswered : string -> Fetched := fun _ => NetworkError.

(** The old site after an accepted run, the solution in a CodeMirror
    editor. *)
Definition classic : Page :=
  {| querySelectorAll := fun selector =>
       if String.eqb selector ".accepted" then [div "Accepted"]
       else if String.eqb selector
                 ("[data-cy=" +:+ dquote +:+ "question-title" +:+ dquote +:+ "], h3")
       then [div "1. Two Sum"]
       else if String.eqb selector ".CodeMirror-code" then [div "  class Solution: pass  "]
       else [];
     body_textContent := Some "1. Two Sum Easy Accepted class Solution: pass";
     location_href := "https://leetcode.com/problems/two-sum/";
     location_pathname := "/problems/two-sum/";
     monaco := MonacoAbsent;
     graphql := unanswered;
     page_now := 1700000000000%N;
     page_toISOString := "2023-11-14T22:13:20.000Z" |}.

(** The new site with everything but the editor and the result. *)
Definition modern (href : string) (editor : Monaco) (answer : string -> Fetched)
    (lines : list string) : Page :=
  {| querySelectorAll := fun selector =>
       if String.eqb selector ".submission-result" then [div "Accepted"]
       else if String.eqb selector
                 ("[data-cy=" +:+ dquote +:+ "question-title" +:+ dquote +:+ "], h1, h2")
       then [div "1. Two Sum"]
       else if String.eqb selector ".monaco-editor .view-lines"
       then match lines with [] => [] | _ => [div (JS.join EmptyString lines)] end
       else if String.eqb selector ".view-lines .view-line"
       then map (view_line lines) lines
       else [];
     body_textContent := Some "1. Two Sum Easy Accepted";
     location_href := href;
     location_pathname := "/problems/two-sum/";
     monaco := editor;
     graphql := answer;
     page_now := 1700000000000%N;
     page_toISOString := "2023-11-14T22:13:20.000Z" |}.

(** The editor API is not exposed to the content script, the code is read
    from the rendered lines. *)
Definition rendered : Page :=
  modern "https://leetcode.com/problems/two-sum/" MonacoAbsent unanswered
    ["class Solution:"; "    pass"].

Definition short_details : SubmissionDetails :=
  {| d_runtime := "0"; d_runtimeDisplay := "0 ms";
     d_memory := "17"; d_memoryDisplay := "17.1 MB";
     d_code := "pass";
     d_lang := Some (mkLang "python3" "Python3");
     d_question := Some (mkQuestion "Two Sum" "two-sum" "Easy") |}.

(** The page of a submission whose stored code is four characters long. *)
Definition answered_short : Page :=
  modern "https://leetcode.com/problems/two-sum/submissions/1234/" MonacoAbsent
    (fun id => if String.eqb id "1234" then Responded true 200 (Some (Some short_details))
               else Responded true 200 (Some None))
    [].

(** The editor API is exposed and its first model holds four
    characters. *)
Definition editor_short : Page :=
  modern "https://leetcode.com/problems/two-sum/" (MonacoModels ["pass"]) unanswered
    ["pass"].

End Pages.

(** ** The tasks of the service on the event loop *)

(** The service is one object on one thread.  A call of
    [handleSubmissionAccepted] or of [processQueuedCommits] is a task: it
    runs alone until it reaches an [await], and any other task may run
    before it goes on.  The functions below cut the two methods at the
    points where they touch the in-flight set; the state of a task says
    which piece comes next.  The effects of what a task does between
    adding its key and deleting it, which spans many [await]s, are placed
    at one instant of that span. *)
Module EventLoop.
Section WithHost.
Context {Env : Type} `{ServiceHost Env}.
Import Background.

Definition processingKey (submissionData : LeetCodeSubmission) (now : N) : string :=
  sub_titleSlug submissionData +:+ "-" +:+ sub_language submissionData
    +:+ "-" +:+ show_N now.

(** [handleSubmissionAccepted] up to its [try]: the key that was added,
    or nothing when the method returned at once. *)
Definition enter (submissionData : LeetCodeSubmission) : M (Service Env) (option string) :=
  now <- liftHost (total Date_now) ;;
  let processingKey := processingKey submissionData now in
  has <- gets (fun s => bool_decide (processingKey ∈ processing s)) ;;
  if has then ret None
  else
    set_processing (fun p => p ∪ {[processingKey]}) ;;
    ret (Some processingKey).

(** The [try] and the [catch] of [handleSubmissionAccepted]. *)
Definition handle (submissionData : LeetCodeSubmission) : M (Service Env) unit :=
  tryCatch
    (isAuthenticated <- validateAuthentication ;;
     if negb isAuthenticated then ret tt
     else
       config <- liftHost (total service_getDecryptedConfig) ;;
       if negb (isValidSubmission submissionData) then throw "Invalid submission data"
       else
         duplicate <-
           (if set_skipDuplicates (cfg_settings config)
            then isDuplicateSubmission submissionData
            else ret false) ;;
         if duplicate then ret tt
         else
           processSubmissionImmediately submissionData ;;
           markSubmissionProcessed submissionData ;;
           showSuccessNotification submissionData)
    (fun error =>
       if JS.includes error "Bad credentials" || JS.includes error "401" then
         handleInvalidToken error
       else
         queueSubmissionForRetry submissionData error ;;
         showErrorNotification "Commit failed" error).

(** The [finally] of both methods. *)
Definition leave (key : string) : M (Service Env) unit :=
  set_processing (fun p => p ∖ {[key]}).

(** The head of the loop body of [processQueuedCommits]. *)
Inductive Verdict :=
| Skipped
| Abandoned
| Taken.

Definition claim (queuedCommit : QueuedCommit) : M (Service Env) Verdict :=
  has <- gets (fun s => bool_decide (qc_id queuedCommit ∈ processing s)) ;;
  if has then ret Skipped
  else if 3 <=? qc_retryCount queuedCommit then
    storage_removeFromCommitQueue (qc_id queuedCommit) ;;
    ret Abandoned
  else
    set_processing (fun p => p ∪ {[qc_id queuedCommit]}) ;;
    ret Taken.

(** The [try] and the [catch] inside the loop. *)
Definition attempt (queuedCommit : QueuedCommit) : M (Service Env) unit :=
  tryCatch
    (processCommit queuedCommit ;;
     storage_removeFromCommitQueue (qc_id queuedCommit) ;;
     markSubmissionProcessed (qc_submission queuedCommit))
    (fun error =>
       storage_updateCommitInQueue (qc_id queuedCommit)
         (mkUpdates (Some (qc_retryCount queuedCommit + 1)) (Some (Some error)))).

(** [processQueuedCommits] up to its loop: the snapshot of the queue, or
    nothing when the method returned. *)
Definition open_queue : M (Service Env) (option (list QueuedCommit)) :=
  queue <- storage_getCommitQueue ;;
  isAuthenticated <- validateAuthentication ;;
  if negb isAuthenticated then ret None
  else ret (Some queue).

Inductive Task :=
| Handling (processingKey : string) (submissionData : LeetCodeSubmission)
| Handled (processingKey : string)
| Started
| Draining (queue : list QueuedCommit)
| Committing (queuedCommit : QueuedCommit) (rest : list QueuedCommit)
| Committed (queuedCommit : QueuedCommit) (outcome : Res unit) (rest : list QueuedCommit)
| Finished.

(** The key a task has added to the in-flight set and not yet deleted:
    the task is between [processing.add] and the [finally]. *)
Definition holds (t : Task) : option string :=
  match t with
  | Handling processingKey _ => Some processingKey
  | Handled processingKey => Some processingKey
  | Committing queuedCommit _ => Some (qc_id queuedCommit)
  | Committed queuedCommit _ _ => Some (qc_id queuedCommit)
  | Started | Draining _ | Finished => None
  end.

(** The loop from its head to the next [await]: an item in flight is
    passed over without one.  An error ends the method in its outer
    [catch]. *)
Fixpoint advance (queue : list QueuedCommit) (st : Service Env) : Task * Service Env :=
  match queue with
  | [] => (Finished, st)
  | queuedCommit :: rest =>
      match claim queuedCommit st with
      | (Ok Skipped, st') => advance rest st'
      | (Ok Abandoned, st') => (Draining rest, st')
      | (Ok Taken, st') => (Committing queuedCommit rest, st')
      | (Throw _, st') => (Finished, st')
      end
  end.

(** A task goes on. *)
Definition resume (t : Task) (st : Service Env) : Task * Service Env :=
  match t with
  | Handling processingKey submissionData =>
      (Handled processingKey, snd (handle submissionData st))
  | Handled processingKey =>
      (Finished, snd (leave processingKey st))
  | Started =>
      match tryCatch open_queue (fun _ => ret None) st with
      | (Ok (Some queue), st') => advance queue st'
      | (_, st') => (Finished, st')
      end
  | Draining queue => advance queue st
  | Committing queuedCommit rest =>
      match attempt queuedCommit st with
      | (outcome, st') => (Committed queuedCommit outcome rest, st')
      end
  | Committed queuedCommit outcome rest =>
      match leave (qc_id queuedCommit) st with
      | (Ok _, st') =>
          match outcome with
          | Ok _ => (Draining rest, st')
          | Throw _ => (Finished, st')
          end
      | (Throw _, st') => (Finished, st')
      end
  | Finished => (Finished, st)
  end.

(** A task going on [n] times with nothing in between. *)
Fixpoint alone (n : nat) (t : Task) (st : Service Env) : Task * Service Env :=
  match n with
  | 0 => (t, st)
  | S m => alone m (fst (resume t st)) (snd (resume t st))
  end.

(** What happens next: the content script reports a submission, the
    alarm of the queue fires, or the task at some position goes on. *)
Inductive Event :=
| SubmissionAccepted (submissionData : LeetCodeSubmission)
| AlarmFired
| Resumed (i : nat).

Definition react (c : Service Env * list Task) (ev : Event) : Service Env * list Task :=
  match ev with
  | SubmissionAccepted submissionData =>
      match enter submissionData (fst c) with
      | (Ok (Some key), st') => (st', snd c ++ [Handling key submissionData])
      | (_, st') => (st', snd c)
      end
  | AlarmFired => (fst c, snd c ++ [Started])
  | Resumed i =>
      match snd c !! i with
      | Some t => (snd (resume t (fst c)), <[i := fst (resume t (fst c))]> (snd c))
      | None => c
      end
  end.

Definition play (events : list Event) (st : Service Env) : Service Env * list Task :=
  fold_left react events (st, []).

(** *** Vocabulary of the properties *)

(** No two tasks hold the same key. *)
Definition exclusive (tasks : list Task) : Prop :=
  forall i j ti tj key,
    tasks !! i = Some ti -> tasks !! j = Some tj ->
    holds ti = Some key -> holds tj = Some key -> i = j.

(** Every key held is in the in-flight set. *)
Definition registered (st : Service Env) (tasks : list Task) : Prop :=
  forall i t key,
    tasks !! i = Some t -> holds t = Some key -> key ∈ processing st.

Definition keeps_processing {A} (m : M (Service Env) A) : Prop :=
  forall st, processing (snd (m st)) = processing st.

End WithHost.
End EventLoop.

(** The example host with a clock that stands still, as within one
    millisecond. *)
Module Paused.

Definition host : ServiceHost Plain.Env := {|
  Date_now := fun e => (Plain.clock e, e);
  tokenManager_isAuthenticated := @tokenManager_isAuthenticated _ Plain.host;
  tokenManager_getGitHubToken := @tokenManager_getGitHubToken _ Plain.host;
  githubAuth_clearInvalidToken := @githubAuth_clearInvalidToken _ Plain.host;
  service_getDecryptedConfig := @service_getDecryptedConfig _ Plain.host;
  commitManager_processCommit := @commitManager_processCommit _ Plain.host;
  tabs_create := @tabs_create _ Plain.host;
  notifications_create := @notifications_create _ Plain.host
|}.

(** The same submission reported twice within the millisecond, then the
    alarm firing twice over a queue of three. *)
Definition twice : list EventLoop.Event :=
  [ EventLoop.SubmissionAccepted Plain.two_sum;
    EventLoop.SubmissionAccepted Plain.two_sum;
    EventLoop.AlarmFired;
    EventLoop.AlarmFired;
    EventLoop.Resumed 1;
    EventLoop.Resumed 2 ].

Definition start : Background.Service Plain.Env :=
  Plain.service Plain.some_queue [] Plain.signed_in.

End Paused.

(** * Further code of the repository *)

(** ** Vocabulary on strings *)

(** Every character of a string passes a test. *)
Fixpoint every (test : ascii -> bool) (s : string) : bool :=
  match s with
  | EmptyString => true
  | String c s' => test c && every test s'
  end.

(** ** GitHub REST client: repositories and batches ([github/api.ts]) *)

Record Permissions := mkPermissions {
  perm_admin : bool;
  perm_push : bool;
  perm_pull : bool
}.

Record Repository := mkRepository {
  repo_id : nat;
  repo_name : string;
  repo_full_name : string;
  repo_private : bool;
  repo_html_url : string;
  repo_default_branch : string;
  repo_permissions : Permissions
}.


Module GitHubRepositories.
Section WithHost.
Context {Env Body : Type} `{Host Env Body}.

(** The two readings of a response body that these methods need. *)
Variable response_json_repository : Body -> Res Repository.
Variable response_json_repositories : Body -> Res (list Repository).

Definition getRepositories : M (Net Env) (list Repository) :=
  repos <- GitHubAPI.makeRequest response_json_repositories
             "/user/repos?sort=updated&per_page=100" GET None ;;
  ret (List.filter (fun repo => perm_push (repo_permissions repo)) repos).





End WithHost.
End GitHubRepositories.



(** The replaying host for the commit manager: the problem API does not
    answer, dates are kept as they are. *)
Definition scripted_commit_host : CommitHost Scripted.Env := {|
  leetcodeAPI_getProblemDetails := fun _ => throw "Failed to fetch";
  Date_toISOString := fun t => Ok t
|}.

(** The remote says the file is not there, then refuses the write. *)
Definition write_refused : Net Scripted.Env :=
  Scripted.start "ghp_token"
    [mkResponse 404 (PText "Not Found"); mkResponse 500 (PText "oops")].

(** The example host before the user has connected an account. *)
Definition not_connected : ServiceHost Plain.Env := {|
  Date_now := @Date_now _ Plain.host;
  tokenManager_isAuthenticated := fun e => (false, e);
  tokenManager_getGitHubToken := fun e => (None, e);
  githubAuth_clearInvalidToken := @githubAuth_clearInvalidToken _ Plain.host;
  service_getDecryptedConfig := @service_getDecryptedConfig _ Plain.host;
  commitManager_processCommit := @commitManager_processCommit _ Plain.host;
  tabs_create := @tabs_create _ Plain.host;
  notifications_create := @notifications_create _ Plain.host
|}.

(** The test of the [catch] of [handleSubmissionAccepted] for an error of
    authentication. *)
Definition names_bad_credentials (error : string) : bool :=
  JS.includes error "Bad credentials" || JS.includes error "401".

(** ** Vocabulary on numbers in base 36 *)

(** A digit or a lower-case letter. *)
Definition is_base36 (c : ascii) : bool :=
  let n := nat_of_ascii c in
  ((48 <=? n) && (n <=? 57)) || ((97 <=? n) && (n <=? 122)).

Definition digit_value (c : ascii) : Z :=
  let n := Z.of_nat (nat_of_ascii c) in
  if (n <? 58)%Z then (n - 48)%Z else (n - 87)%Z.

(** [parseInt(s, 36)] on a string of such characters, continuing from
    [acc]. *)
Fixpoint parseInt36_from (acc : Z) (s : string) : Z :=
  match s with
  | EmptyString => acc
  | String c rest => parseInt36_from (acc * 36 + digit_value c)%Z rest
  end.

Definition parseInt36 (s : string) : Z := parseInt36_from 0%Z s.

(** ** Credential store: maintenance and validation
       ([security/token-manager.ts], [auth/github.ts]) *)

Module TokenMaintenance.
Section WithPlatform.
Context `{Platform}.

Definition getTokenMetadata : M Vault (option TokenMetadata) :=
  tryCatch
    (metadataStr <- SecureStorage.getSecureData TokenManager.TOKEN_METADATA ;;
     match metadataStr with
     | Some data => metadata <- TokenManager.parse_metadata data ;; ret (Some metadata)
     | None => ret None
     end)
    (fun _ => ret None).

(** The loop deletes the entries with [now >= value.expires]. *)
Definition performSecurityCleanup : M Vault unit :=
  tryCatch
    (now <- Date_now_vault ;;
     modify (with_cache (filter (fun entry => (now < expires entry.2)%N))) ;;
     metadata <- getTokenMetadata ;;
     match metadata with
     | Some m =>
         if TokenManager.expired m now then TokenManager.clearAllTokens else ret tt
     | None => ret tt
     end)
    (fun _ => ret tt).

End WithPlatform.
End TokenMaintenance.

(** The object [validateToken] resolves to; [user] is reduced to the
    [login], as the body of [/user] is. *)
Record TokenValidation := mkTokenValidation {
  tv_valid : bool;
  tv_user : option string;
  tv_error : option string
}.

Module GitHubAuthValidation.
Section WithPlatform.
Context `{Platform}.

Definition validateToken (accessToken : string) : M Vault TokenValidation :=
  tryCatch
    (response <- GitHubAuth.ghFetch GET_rate_limit accessToken ;;
     if negb (response_ok response) then
       let errorMessage :=
         if status response =? 401 then "Token is invalid or expired"
         else if status response =? 403 then "Token lacks required permissions"
         else if status response =? 422 then "Token format is invalid"
         else "Token validation failed" in
       ret (mkTokenValidation false None (Some errorMessage))
     else
       userInfo <- GitHubAuth.tryGetUserInfo accessToken ;;
       ret (mkTokenValidation true userInfo None))
    (fun _ =>
       ret (mkTokenValidation false None (Some "Network error during token validation"))).

End WithPlatform.
End GitHubAuthValidation.

(** A platform whose remote rejects every token. *)
Module Rejecting.

Definition platform : Platform := {|
  hashToken := fun t => "sha256:" +:+ t;
  GET_rate_limit := fun _ _ => Some (mkResponse 401 "Bad credentials");
  GET_user := fun _ _ => Some (mkResponse 401 None);
  round_trip := 120%N;
  legacy_decrypt := fun s => s
|}.

(** A session area that holds a token the remote no longer accepts. *)
Definition revoked : Vault :=
  mkVault ∅ (Some {[ TokenManager.GITHUB_TOKEN := VText "ghp_revoked" ]}) ∅ None
    1700000000000%N [].

End Rejecting.

(** A store whose credential carries an expiry date that has passed. *)
Module Expired.

Definition metadata : TokenMetadata :=
  mkTokenMetadata 1600000000000%N (Some 1650000000000%N) 1600000000000%N.

Definition vault : Vault :=
  mkVault
    (<[ TokenManager.TOKEN_METADATA := VMetadata metadata ]>
       (<[ TokenManager.GITHUB_REFRESH := VText "ghp_token" ]>
          (<[ TokenManager.GITHUB_CONFIG :=
                VGitHubConfig (TokenManager.without_tokens Accepting.both_tokens) ]> ∅)))
    (Some ∅) ∅ None 1700000000000%N [].

End Expired.

(** The settings of a user who has connected a repository. *)
Module Saved.

Definition config : ExtensionConfig :=
  mkExtensionConfig (Some Accepting.both_tokens) DEFAULT_templates DEFAULT_settings 1.

End Saved.

(** The path of [validateTokenWithCache] when the cache has nothing to say:
    the remote is asked and its answer is noted. *)
Definition asks_remote `{Platform} (token : string) : M Vault bool :=
  isValid <- TokenManager.validateTokenWithGitHub token ;;
  now' <- Date_now_vault ;;
  modify (with_cache (fun c =>
    <[hashToken token := mkCacheEntry isValid (now' + TokenManager.CACHE_DURATION)%N]> c)) ;;
  ret isValid.

(** ** Vocabulary on extracted submissions *)

(** What every submission an extractor builds from a page has: the
    accepted status, the address and the date of the page, no tags, the
    file extension of its language, and some text for the two
    statistics. *)
Definition built_from (page : Page) (sub : LeetCodeSubmission) : Prop :=
  sub_status sub = "Accepted"
  /\ sub_link sub = location_href page
  /\ sub_timestamp sub = page_toISOString page
  /\ sub_tags sub = []
  /\ sub_fileExtension sub = LanguageMapping.getLanguageExtension (sub_language sub)
  /\ sub_runtime sub <> EmptyString
  /\ sub_memory sub <> EmptyString.

(** A statistic as [getStats] reports it: not available, or a number
    followed by its unit. *)
Definition measured (cls : ascii -> bool) (unit text : string) : Prop :=
  text = "N/A"
  \/ exists number,
       number <> EmptyString /\ every cls number = true /\ text = number +:+ " " +:+ unit.

(** ** Signing out ([storage.ts], [auth/github.ts]) *)

Module SignOut.
Section WithPlatform.
Context `{Platform}.

(** [clearAll] of the storage module. *)
Definition clearAll : M Vault unit :=
  tryCatch
    (TokenManager.clearAllTokens ;;
     modify (with_local (fun _ => ∅)) ;;
     v <- get ;;
     match session v with
     | Some _ => modify (with_session (Some ∅))
     | None => ret tt
     end)
    (fun error => throw error).

Definition signOut : M Vault unit :=
  tryCatch clearAll (fun error => throw error).

End WithPlatform.
End SignOut.

(** * Properties *)

(** ** Stepping through a computation *)

Lemma bind_ok {S A B} (m : M S A) (k : A -> M S B) s a s' :
  m s = (Ok a, s') -> bind m k s = k a s'.
Proof. intros H. unfold bind. now rewrite H. Qed.

Lemma bind_throw {S A B} (m : M S A) (k : A -> M S B) s e s' :
  m s = (Throw e, s') -> bind m k s = (Throw e, s').
Proof. intros H. unfold bind. now rewrite H. Qed.


(** ** Template engine *)

Lemma render_default_layout t tg l r m ts lk rp mp :
  TemplateEngine.render "{{difficulty}}/{{id}}-{{slug}}"
    (TemplateEngine.mkVars "0001" t "two-sum" "easy" tg l r m ts lk rp mp)
  = "easy/0001-two-sum".
Proof. reflexivity. Qed.

(** C3.  On the layout [{{difficulty}}/{{id}}-{{slug}}] with id 0001,
    difficulty easy and slug two-sum, [generateFolderPath] does not return
    [easy/0001-two-sum]: the template renders to that string, and the
    sanitising replacement, whose character class contains the slash, then
    turns the separator into a dash. *)
Theorem generateFolderPath_default_layout :
  forall t tg l r m ts lk rp mp,
    TemplateEngine.generateFolderPath "{{difficulty}}/{{id}}-{{slug}}"
      (TemplateEngine.mkVars "0001" t "two-sum" "easy" tg l r m ts lk rp mp)
    = "easy-0001-two-sum".
Proof. intros. reflexivity. Qed.

(** ** GitHub REST client: classification of failed requests *)

Section MakeRequest.
Context {Env Body : Type} `{Host Env Body}.
Context {T : Type} (json : Body -> Res T).
Variables (endpoint : string) (method : Method) (payload : option PutBody).
Variables (w w1 w2 : Net Env) (token : string) (rsp : Response Body).
Hypothesis Hauth : GitHubAPI.getAuthHeaders w = (Ok token, w1).
Hypothesis Hsend :
  GitHubAPI.send (mkRequest (GitHubAPI.baseURL +:+ endpoint) method token payload) w1
  = (Ok rsp, w2).

(** The [try] block around [JSON.parse] completes normally whatever the
    body is: the rate-limit error is thrown inside the block and caught
    by its own [catch]. *)
Lemma rate_limit_block_swallowed (errorBody : string) :
  tryCatch
    (errorData <- of_res (JSON_parse errorBody) ;;
     if match message errorData with
        | Some m => JS.includes m "rate limit"
        | None => false
        end
     then throw GitHubAPI.rate_limit_message
     else ret tt)
    (fun parseError => ret tt) w2
  = (Ok tt, w2).
Proof.
  unfold tryCatch, bind, of_res.
  destruct (JSON_parse errorBody) as [d|e]; cbn; [|reflexivity].
  destruct (message d) as [m|]; cbn; [|reflexivity].
  destruct (JS.includes m "rate limit"); reflexivity.
Qed.

Lemma makeRequest_403 :
  status rsp = 403 ->
  GitHubAPI.makeRequest json endpoint method payload w
  = (Throw (GitHubAPI.api_error_message 403 (response_text (body rsp))), w2).
Proof.
  intros Hst. unfold GitHubAPI.makeRequest.
  rewrite (bind_ok _ _ _ _ _ Hauth), (bind_ok _ _ _ _ _ Hsend).
  unfold response_ok. rewrite Hst. cbn [Nat.leb Nat.eqb andb negb].
  erewrite bind_ok by apply rate_limit_block_swallowed.
  reflexivity.
Qed.

Lemma makeRequest_401 :
  status rsp = 401 ->
  GitHubAPI.makeRequest json endpoint method payload w
  = match liftEnv storage_forceTokenRefresh w2 with
    | (Ok _, w3) => (Throw (GitHubAPI.bad_credentials_message 401), w3)
    | (Throw e, w3) => (Throw e, w3)
    end.
Proof.
  intros Hst. unfold GitHubAPI.makeRequest.
  rewrite (bind_ok _ _ _ _ _ Hauth), (bind_ok _ _ _ _ _ Hsend).
  unfold response_ok. rewrite Hst. cbn [Nat.leb Nat.eqb andb negb].
  unfold bind. destruct (liftEnv storage_forceTokenRefresh w2) as [[[]|e] w3]; reflexivity.
Qed.

Lemma makeRequest_other_failure :
  response_ok rsp = false -> status rsp <> 401 -> status rsp <> 403 ->
  GitHubAPI.makeRequest json endpoint method payload w
  = (Throw (GitHubAPI.api_error_message (status rsp) (response_text (body rsp))), w2).
Proof.
  intros Hok H401 H403. unfold GitHubAPI.makeRequest.
  rewrite (bind_ok _ _ _ _ _ Hauth), (bind_ok _ _ _ _ _ Hsend).
  rewrite Hok. cbn [negb].
  destruct (Nat.eqb_spec (status rsp) 401) as [|_]; [contradiction|].
  destruct (Nat.eqb_spec (status rsp) 403) as [|_]; [contradiction|].
  reflexivity.
Qed.

Lemma makeRequest_success :
  response_ok rsp = true ->
  GitHubAPI.makeRequest json endpoint method payload w = of_res (json (body rsp)) w2.
Proof.
  intros Hok. unfold GitHubAPI.makeRequest.
  rewrite (bind_ok _ _ _ _ _ Hauth), (bind_ok _ _ _ _ _ Hsend).
  now rewrite Hok.
Qed.

End MakeRequest.

(** C6.  A 403 response whose body is the rate-limit message of the remote
    API: [JSON.parse] finds the message and the message contains the
    rate-limit marker, yet [makeRequest] rejects with the generic API error
    that carries the status and the raw body, not with the rate-limit
    error. *)
Theorem makeRequest_rate_limit_response :
  parse_error_body rate_limit_body
    = Ok (mkErrorData (Some "API rate limit exceeded for user ID 1."))
  /\ JS.includes "API rate limit exceeded for user ID 1." "rate limit" = true
  /\ fst (GitHubAPI.makeRequest payload_file "/user/repos" GET None rate_limited)
     = Throw (GitHubAPI.api_error_message 403 rate_limit_body)
  /\ GitHubAPI.api_error_message 403 rate_limit_body <> GitHubAPI.rate_limit_message.
Proof.
  split; [reflexivity|]. split; [reflexivity|]. split.
  - vm_compute. reflexivity.
  - vm_compute. discriminate.
Qed.

(** ** GitHub REST client: read, then create or update *)



Section Protocol.
Context {Env Body : Type} `{Host Env Body}.







End Protocol.

(** *** The client against the reference remote *)

Section RemoteRun.
Variables (owner repo path content message branch : string).
Variables (s : Remote.Repo) (g : GitHubConfig).
Hypothesis Hcfg : cfg_github (Remote.config s) = Some g.
Hypothesis Htok : JS.truthy (gh_accessToken g) = true.

Let key := Remote.resource (GitHubAPI.write_url owner repo path).
Let stored (b : PutBody) : Remote.Repo :=
  Remote.mkRepo
    (<[key := Remote.mkRemoteFile (pb_content b) (Remote.sha_of_commit (S (Remote.commits s)))]>
       (Remote.files s))
    (S (Remote.commits s)) (Remote.config s).

Lemma remote_auth l :
  GitHubAPI.getAuthHeaders (mkNet l s) = (Ok (gh_accessToken g), mkNet l s).
Proof.
  unfold GitHubAPI.getAuthHeaders, bind, liftEnv. cbn. rewrite Hcfg, Htok. reflexivity.
Qed.




Lemma remote_put_refused l (b : PutBody) r w' :
  Remote.accepted s key (pb_sha b) = false ->
  GitHubAPI.makeRequest response_json_commit
    (GitHubAPI.contents_endpoint owner repo path) PUT (Some b) (mkNet l s) = (r, w') ->
  is_ok r = false.
Proof.
  intros Hacc. unfold Remote.accepted in Hacc.
  unfold GitHubAPI.makeRequest. rewrite (bind_ok _ _ _ _ _ (remote_auth l)).
  unfold bind at 1. unfold GitHubAPI.send at 1, bind at 1, modify, liftEnv.
  cbn [env sent fetch Remote.host Remote.answer].
  unfold Remote.answer, Remote.serve. cbn [req_method req_url req_body].
  fold (GitHubAPI.write_url owner repo path). fold key.
  destruct (Remote.files s !! key) as [f|], (pb_sha b) as [x|]; try discriminate.
  - rewrite Hacc. intros [= <- <-]. reflexivity.
  - intros [= <- <-]. reflexivity.
  - intros [= <- <-]. reflexivity.
Qed.


End RemoteRun.




(** ** Background service: calls that leave the store alone *)

Section ServiceFrames.
Context {Env : Type} `{ServiceHost Env}.
Import Background.

Lemma same_store_refl (st : Service Env) : same_store st st.
Proof. repeat split. Qed.

Lemma same_store_trans (a b c : Service Env) :
  same_store a b -> same_store b c -> same_store a c.
Proof.
  intros (P1 & Q1 & R1 & A1) (P2 & Q2 & R2 & A2).
  repeat split; congruence.
Qed.

Lemma liftHost_same {A} (m : M Env A) st r st' :
  liftHost m st = (r, st') -> same_store st st'.
Proof.
  unfold liftHost. destruct (m (outside st)) as [r0 e]. intros [= <- <-].
  repeat split.
Qed.

Lemma quiet_ret {A} (a : A) : quiet (ret a : M (Service Env) A).
Proof. intros st. exists a, st. split; [reflexivity | apply same_store_refl]. Qed.

Lemma quiet_bind {A B} (m : M (Service Env) A) (k : A -> M (Service Env) B) :
  quiet m -> (forall a, quiet (k a)) -> quiet (bind m k).
Proof.
  intros Hm Hk st. destruct (Hm st) as (a & st1 & E1 & S1).
  destruct (Hk a st1) as (b & st2 & E2 & S2).
  exists b, st2. split; [| eapply same_store_trans; eassumption].
  unfold bind. now rewrite E1.
Qed.

Lemma quiet_total {A} (f : Env -> A * Env) : quiet (liftHost (total f)).
Proof.
  intros st. unfold liftHost, total.
  destruct (f (outside st)) as [a e] eqn:E.
  eexists _, _. split; [reflexivity | repeat split].
Qed.

(** [try { host call } catch { }] *)
Lemma quiet_guarded (m : M Env unit) :
  quiet (tryCatch (liftHost m) (fun _ => ret tt)).
Proof.
  intros st. unfold tryCatch.
  destruct (liftHost m st) as [[[]|e] st1] eqn:E; apply liftHost_same in E;
    exists tt, st1; split; try reflexivity; exact E.
Qed.

Lemma quiet_tryCatch {A} (m : M (Service Env) A) h : quiet m -> quiet (tryCatch m h).
Proof.
  intros Hm st. destruct (Hm st) as (a & st1 & E1 & S1).
  exists a, st1. split; [| exact S1]. unfold tryCatch. now rewrite E1.
Qed.

Lemma quiet_showNotification t m : quiet (showNotification t m).
Proof. apply quiet_guarded. Qed.

Lemma quiet_open_options_page : quiet open_options_page.
Proof. apply quiet_guarded. Qed.

Lemma quiet_handleMissingAuth : quiet handleMissingAuth.
Proof.
  apply quiet_bind; [apply quiet_showNotification | intros _; apply quiet_open_options_page].
Qed.

(** [validateAuthentication] always returns: what its [try] block calls
    cannot throw, so the [catch] is never entered. *)
Lemma quiet_validateAuthentication : quiet validateAuthentication.
Proof.
  apply quiet_tryCatch.
  apply quiet_bind; [apply quiet_total|]. intros b.
  destruct b; cbn [negb].
  - apply quiet_bind; [apply quiet_total|]. intros token.
    destruct (negb (JS.truthy (default EmptyString token))).
    + apply quiet_bind; [apply quiet_handleMissingAuth | intros _; apply quiet_ret].
    + apply quiet_ret.
  - apply quiet_bind; [apply quiet_handleMissingAuth | intros _; apply quiet_ret].
Qed.

End ServiceFrames.

(** ** Background service: the drain of the queue *)

Section Drain.
Context {Env : Type} `{ServiceHost Env}.
Import Background.

Lemma filter_other_ids (pre : list QueuedCommit) (i : string) :
  i ∉ map qc_id pre ->
  List.filter (fun c => negb (String.eqb (qc_id c) i)) pre = pre.
Proof.
  induction pre as [|c pre IH]; cbn; [reflexivity|]. intros Hn.
  apply not_elem_of_cons in Hn as [Hc Hp].
  destruct (String.eqb_spec (qc_id c) i) as [E|_]; [congruence|].
  cbn. now rewrite IH.
Qed.

Lemma remove_unique (pre : list QueuedCommit) q rest :
  NoDup (map qc_id (pre ++ q :: rest)) ->
  List.filter (fun c => negb (String.eqb (qc_id c) (qc_id q))) (pre ++ q :: rest)
  = pre ++ rest.
Proof.
  rewrite map_app. cbn [map]. intros Hnd.
  apply NoDup_app in Hnd as (_ & Hdis & Hr).
  apply NoDup_cons in Hr as [Hq _].
  rewrite List.filter_app. cbn [List.filter]. rewrite String.eqb_refl. cbn [negb].
  rewrite !filter_other_ids; [reflexivity | exact Hq |].
  intros Hin. apply (Hdis _ Hin). left.
Qed.

Lemma update_unique (pre : list QueuedCommit) q rest f :
  qc_id q ∉ map qc_id pre ->
  update_first (fun c => String.eqb (qc_id c) (qc_id q)) f (pre ++ q :: rest)
  = pre ++ f q :: rest.
Proof.
  induction pre as [|c pre IH]; cbn [app update_first map]; intros Hn.
  - now rewrite String.eqb_refl.
  - apply not_elem_of_cons in Hn as [Hc Hp].
    destruct (String.eqb_spec (qc_id c) (qc_id q)) as [E|_]; [congruence|].
    now rewrite IH.
Qed.

Lemma existsb_mid (pre : list QueuedCommit) q rest :
  existsb (fun c => String.eqb (qc_id c) (qc_id q)) (pre ++ q :: rest) = true.
Proof.
  rewrite existsb_app. cbn. rewrite String.eqb_refl. now rewrite orb_true_r.
Qed.

(** One pass through the body of the loop for an item that is attempted. *)
Let attempt_block (q : QueuedCommit) : M (Service Env) unit :=
  set_processing (fun p => p ∪ {[qc_id q]}) ;;
  tryFinally
    (tryCatch
       (processCommit q ;;
        storage_removeFromCommitQueue (qc_id q) ;;
        markSubmissionProcessed (qc_submission q))
       (fun error =>
          storage_updateCommitInQueue (qc_id q)
            (mkUpdates (Some (qc_retryCount q + 1)) (Some (Some error)))))
    (set_processing (fun p => p ∖ {[qc_id q]})).

Lemma attempt_block_run q (pre rest : list QueuedCommit) st :
  local_queue st = pre ++ q :: rest ->
  NoDup (map qc_id (pre ++ q :: rest)) ->
  qc_id q ∉ processing st ->
  qc_retryCount q < 3 ->
  exists st' outcome,
    attempt_block q st = (Ok tt, st')
    /\ processing st' = processing st
    /\ attempts st' = attempts st ++ [(q, outcome)]
    /\ local_queue st' = pre ++ settle (processing st) [q] [outcome] ++ rest.
Proof.
  intros Hq Hnd Hfl Hrc.
  assert (Hset : forall outcome,
             settle (processing st) [q] [outcome]
             = match outcome with None => [] | Some e => [failed q e] end).
  { intros o. cbn [settle]. unfold in_flight.
    rewrite bool_decide_eq_false_2 by exact Hfl.
    destruct (Nat.leb_spec 3 (qc_retryCount q)); [lia|]. now destruct o. }
  assert (Hp : (processing st ∪ {[qc_id q]}) ∖ {[qc_id q]} = processing st).
  { rewrite difference_union_distr_l_L, difference_diag_L, union_empty_r_L.
    apply difference_disjoint_L, disjoint_singleton_r. exact Hfl. }
  unfold attempt_block, bind, set_processing, modify, tryFinally, tryCatch, processCommit,
    liftHost, record_attempt. cbn [outside processing local_queue local_processed attempts].
  destruct (commitManager_processCommit q (outside st)) as [[[]|e] e'].
  - eexists _, None. rewrite Hset.
    unfold storage_removeFromCommitQueue, markSubmissionProcessed,
      storage_markSubmissionProcessed, storage_getProcessedSubmissions,
      storage_getCommitQueue, set_queue, set_processed, bind, gets, modify, ret.
    cbn [outside processing local_queue local_processed attempts snd fst].
    split; [reflexivity|]. cbn [outside processing local_queue local_processed attempts].
    split; [exact Hp|]. split; [reflexivity|].
    rewrite Hq. now rewrite remove_unique.
  - eexists _, (Some e). rewrite Hset.
    unfold storage_updateCommitInQueue, storage_getCommitQueue, set_queue, bind, gets, modify, ret.
    cbn [outside processing local_queue local_processed attempts snd fst].
    rewrite Hq, existsb_mid.
    split; [reflexivity|]. cbn [outside processing local_queue local_processed attempts].
    split; [exact Hp|]. split; [reflexivity|].
    rewrite update_unique; [reflexivity|].
    rewrite map_app in Hnd. apply NoDup_app in Hnd as (_ & Hdis & _).
    intros Hin. apply (Hdis _ Hin). left.
Qed.

(** The loop computes what the specification says.  The queue in storage
    is the part already settled followed by the rest of the snapshot. *)
Lemma drain_settles (snapshot : list QueuedCommit) :
  forall (pre : list QueuedCommit) (st : Service Env),
    local_queue st = pre ++ snapshot ->
    NoDup (map qc_id (pre ++ snapshot)) ->
    exists st' new,
      drain snapshot st = (Ok tt, st')
      /\ processing st' = processing st
      /\ attempts st' = attempts st ++ new
      /\ map fst new = attempted (processing st) snapshot
      /\ local_queue st' = pre ++ settle (processing st) snapshot (map snd new).
Proof.
  induction snapshot as [|q rest IH]; intros pre st Hq Hnd.
  - exists st, []. cbn. rewrite !app_nil_r. repeat split; auto. now rewrite app_nil_r in Hq.
  - cbn [drain]. unfold bind at 1, gets at 1.
    change (bool_decide (qc_id q ∈ processing st)) with (in_flight (processing st) q).
    unfold attempted. cbn [List.filter settle]. fold (attempted (processing st) rest).
    destruct (in_flight (processing st) q) eqn:Hfl; cbn [negb andb].
    + (* in flight: skipped *)
      destruct (IH (pre ++ [q]) st) as (st' & new & E & P & A & F & Q).
      { now rewrite <- app_assoc. } { now rewrite <- app_assoc. }
      exists st', new. repeat split; auto.
      rewrite Q, <- app_assoc. reflexivity.
    + unfold in_flight in Hfl. apply bool_decide_eq_false in Hfl.
      destruct (Nat.leb_spec 3 (qc_retryCount q)) as [Hrc|Hrc]; cbn [negb].
      * (* abandoned *)
        unfold bind at 1.
        unfold storage_removeFromCommitQueue at 1, storage_getCommitQueue, set_queue,
          bind at 1, gets, modify.
        rewrite Hq, remove_unique by exact Hnd.
        set (st1 := mkService _ _ _ _ _).
        destruct (IH pre st1) as (st' & new & E & P & A & F & Q).
        { reflexivity. }
        { cbn. rewrite map_app in *. apply NoDup_app in Hnd as (Hp & Hd & Hr).
          apply NoDup_cons in Hr as [_ Hr]. apply NoDup_app. repeat split; auto.
          intros x Hx Hx'. apply (Hd x Hx). now right. }
        exists st', new. repeat split; auto.
      * (* attempted *)
        destruct (attempt_block_run q pre rest st Hq Hnd Hfl Hrc)
          as (st1 & outcome & E1 & P1 & A1 & Q1).
        unfold attempt_block in E1.
        change (drain (q :: rest)) with (drain (q :: rest)).
        unfold bind at 1. unfold bind at 1 in E1.
        destruct (set_processing _ st) as [[[]|e0] st0] eqn:E0; [|discriminate E0].
        unfold bind at 1. rewrite E1.
        assert (Hset : settle (processing st) [q] [outcome]
                       = match outcome with None => [] | Some e => [failed q e] end).
        { cbn [settle]. unfold in_flight.
          rewrite bool_decide_eq_false_2 by exact Hfl.
          destruct (Nat.leb_spec 3 (qc_retryCount q)); [lia|]. now destruct outcome. }
        rewrite Hset in Q1.
        destruct (IH (pre ++ match outcome with None => [] | Some e => [failed q e] end) st1)
          as (st' & new & E & P & A & F & Q).
        { now rewrite <- app_assoc. }
        { rewrite map_app in *. cbn [map] in Hnd. rewrite map_app.
          destruct outcome as [e|]; cbn [map app]; [|rewrite app_nil_r].
          - rewrite <- app_assoc. exact Hnd.
          - apply NoDup_app in Hnd as (Hp & Hd & Hr).
            apply NoDup_cons in Hr as [_ Hr]. apply NoDup_app. repeat split; auto.
            intros x Hx Hx'. apply (Hd x Hx). now right. }
        exists st', ((q, outcome) :: new). rewrite P1 in *.
        split; [exact E|]. split; [exact P|].
        split; [rewrite A, A1, <- app_assoc; reflexivity|].
        split; [cbn [map fst]; now rewrite F|].
        rewrite Q. cbn [map snd]. rewrite <- app_assoc.
        destruct outcome; reflexivity.
Qed.

End Drain.

(** ** The specification of the drain, and what follows from it *)

Section Settle.
Import Background.

Lemma failed_id q e : qc_id (failed q e) = qc_id q.
Proof. reflexivity. Qed.

Lemma failed_retryCount q e : qc_retryCount (failed q e) = S (qc_retryCount q).
Proof. cbn. lia. Qed.

Lemma attempted_elem (p : gset string) (queue : list QueuedCommit) q :
  q ∈ attempted p queue ->
  q ∈ queue /\ in_flight p q = false /\ qc_retryCount q < 3.
Proof.
  unfold attempted. rewrite !list_elem_of_In, filter_In. intros [Hin Hc].
  apply andb_true_iff in Hc as [Hf Hr].
  apply negb_true_iff in Hf. apply negb_true_iff in Hr.
  apply Nat.leb_gt in Hr. auto.
Qed.

Lemma same_id_same_item (queue : list QueuedCommit) a b :
  NoDup (map qc_id queue) -> a ∈ queue -> b ∈ queue -> qc_id a = qc_id b -> a = b.
Proof.
  induction queue as [|x queue IH]; cbn [map]; intros Hnd Ha Hb Hid.
  - inversion Ha.
  - apply NoDup_cons in Hnd as [Hx Hnd].
    apply elem_of_cons in Ha as [->|Ha]; apply elem_of_cons in Hb as [->|Hb]; auto.
    + exfalso. apply Hx. rewrite Hid. now apply list_elem_of_fmap_2.
    + exfalso. apply Hx. rewrite <- Hid. now apply list_elem_of_fmap_2.
Qed.

Lemma NoDup_attempted (p : gset string) (queue : list QueuedCommit) :
  NoDup (map qc_id queue) -> NoDup (attempted p queue).
Proof.
  intros Hnd. unfold attempted. apply NoDup_ListNoDup, List.NoDup_filter, NoDup_ListNoDup.
  eapply NoDup_fmap_1. exact Hnd.
Qed.

(** What a settled queue consists of, when the outcomes are those of the
    attempted items in order. *)
Lemma settle_elem (p : gset string) (queue : list QueuedCommit) :
  forall (new : list (QueuedCommit * option string)) q',
    map fst new = attempted p queue ->
    q' ∈ settle p queue (map snd new) ->
    exists q, q ∈ queue /\
      ((q' = q /\ in_flight p q = true) \/ exists e, (q, Some e) ∈ new /\ q' = failed q e).
Proof.
  induction queue as [|q rest IH]; intros new q' Hal Hin; cbn [settle] in Hin.
  - inversion Hin.
  - unfold attempted in Hal. cbn [List.filter] in Hal. fold (attempted p rest) in Hal.
    destruct (in_flight p q) eqn:Hfl; cbn [negb andb] in Hal.
    + apply elem_of_cons in Hin as [->|Hin].
      * exists q. split; [left|]. now left.
      * destruct (IH new q' Hal Hin) as (q0 & H0 & Hc).
        exists q0. split; [now right | exact Hc].
    + destruct (3 <=? qc_retryCount q) eqn:Hrc; cbn [negb] in Hal.
      * destruct (IH new q' Hal Hin) as (q0 & H0 & Hc).
        exists q0. split; [now right | exact Hc].
      * destruct new as [|[q1 o] new']; [discriminate Hal|].
        cbn [map fst snd] in Hal, Hin. injection Hal as -> Hal.
        destruct o as [e|].
        -- apply elem_of_cons in Hin as [->|Hin].
           ++ exists q. split; [left|]. right. exists e. split; [left | reflexivity].
           ++ destruct (IH new' q' Hal Hin) as (q0 & H0 & [Hc|(e0 & He0 & Hf)]).
              ** exists q0. split; [now right | now left].
              ** exists q0. split; [now right|]. right. exists e0. split; [now right | exact Hf].
        -- destruct (IH new' q' Hal Hin) as (q0 & H0 & [Hc|(e0 & He0 & Hf)]).
           ++ exists q0. split; [now right | now left].
           ++ exists q0. split; [now right|]. right. exists e0. split; [now right | exact Hf].
Qed.

Lemma settle_failed (p : gset string) (queue : list QueuedCommit) :
  forall (new : list (QueuedCommit * option string)) q e,
    map fst new = attempted p queue ->
    (q, Some e) ∈ new ->
    failed q e ∈ settle p queue (map snd new).
Proof.
  induction queue as [|q0 rest IH]; intros new q e Hal Hin.
  - cbn in Hal. destruct new; [inversion Hin | discriminate Hal].
  - unfold attempted in Hal. cbn [List.filter] in Hal. fold (attempted p rest) in Hal.
    cbn [settle].
    destruct (in_flight p q0) eqn:Hfl; cbn [negb andb] in Hal.
    + right. now apply IH.
    + destruct (3 <=? qc_retryCount q0) eqn:Hrc; cbn [negb] in Hal.
      * now apply IH.
      * destruct new as [|[q1 o] new']; [discriminate Hal|].
        cbn [map fst snd] in Hal |- *. injection Hal as -> Hal.
        apply elem_of_cons in Hin as [Heq|Hin].
        -- injection Heq as -> <-. left.
        -- destruct o; [right|]; now apply IH.
Qed.

Lemma outcome_unique {A B} (l : list (A * B)) a b1 b2 :
  NoDup (map fst l) -> (a, b1) ∈ l -> (a, b2) ∈ l -> b1 = b2.
Proof.
  induction l as [|[x y] l IH]; cbn [map fst]; intros Hn H1 H2.
  - inversion H1.
  - apply NoDup_cons in Hn as [Ha Hn].
    apply elem_of_cons in H1 as [E1|H1]; apply elem_of_cons in H2 as [E2|H2].
    + congruence.
    + injection E1 as -> ->. exfalso. apply Ha.
      change x with (fst (x, b2)). now apply list_elem_of_fmap_2.
    + injection E2 as -> ->. exfalso. apply Ha.
      change x with (fst (x, b1)). now apply list_elem_of_fmap_2.
    + now apply IH.
Qed.

End Settle.

Section RetryBound.
Context {Env : Type} `{ServiceHost Env}.
Import Background.

Lemma queueSubmissionForRetry_run submission error st :
  exists q st',
    queueSubmissionForRetry submission error st = (Ok tt, st')
    /\ local_queue st' = local_queue st ++ [q]
    /\ qc_retryCount q = 0
    /\ qc_submission q = submission
    /\ attempts st' = attempts st.
Proof.
  unfold queueSubmissionForRetry, bind, liftHost, total, storage_addToCommitQueue,
    storage_getCommitQueue, set_queue, gets, modify.
  destruct (Date_now (outside st)) as [t1 e1]. cbn [outside].
  destruct (Date_now e1) as [t2 e2].
  eexists _, _. split; [reflexivity|]. cbn. repeat split.
Qed.

Lemma processQueuedCommits_run st :
  NoDup (map qc_id (local_queue st)) ->
  exists st' new,
    processQueuedCommits st = (Ok tt, st')
    /\ processing st' = processing st
    /\ attempts st' = attempts st ++ new
    /\ ((fst (validateAuthentication st) <> Ok true /\ new = []
         /\ local_queue st' = local_queue st)
        \/ (fst (validateAuthentication st) = Ok true
            /\ map fst new = attempted (processing st) (local_queue st)
            /\ local_queue st' = settle (processing st) (local_queue st) (map snd new))).
Proof.
  intros Hnd. unfold processQueuedCommits, tryCatch.
  unfold bind at 1, storage_getCommitQueue, gets. unfold bind at 1.
  destruct (quiet_validateAuthentication st) as (b & st1 & E1 & P1 & Q1 & R1 & A1).
  rewrite E1. cbn [fst]. destruct b; cbn [negb].
  - destruct (drain_settles (local_queue st) [] st1) as (st' & new & E & P & A & F & Q).
    { now rewrite Q1. } { exact Hnd. }
    rewrite E. exists st', new. rewrite P1 in P, F, Q. rewrite A1 in A.
    split; [reflexivity|]. split; [exact P|]. split; [exact A|].
    right. auto.
  - exists st1, []. rewrite app_nil_r. split; [reflexivity|].
    split; [exact P1|]. split; [exact A1|].
    left. split; [discriminate|]. auto.
Qed.

End RetryBound.

(** The retry count on a queue whose ids are unique.  A commit enters the
    durable queue with [retryCount] zero.  A drain of a queue whose ids are
    unique invokes the commit protocol only for
    items with fewer than three retries; an item that is left in the queue
    is an item of before, either untouched or, after a failed attempt,
    with exactly one retry more; an item whose attempt succeeds is gone; no
    count passes three; and when the drain runs, an item with three retries
    or more that is not in flight is removed without an attempt. *)
Theorem retryCount_bounded_by_drain :
  forall (Env : Type) (H : ServiceHost Env),
    (forall submission error (st : Background.Service Env),
        exists q st',
          Background.queueSubmissionForRetry submission error st = (Ok tt, st')
          /\ Background.local_queue st' = Background.local_queue st ++ [q]
          /\ qc_retryCount q = 0)
    /\
    (forall st : Background.Service Env,
        NoDup (map qc_id (Background.local_queue st)) ->
        exists st' new,
          Background.processQueuedCommits st = (Ok tt, st')
          /\ Background.attempts st' = Background.attempts st ++ new
          /\ (forall q o, (q, o) ∈ new ->
                q ∈ Background.local_queue st /\ qc_retryCount q < 3)
          /\ (forall q', q' ∈ Background.local_queue st' ->
                exists q, q ∈ Background.local_queue st /\ qc_id q' = qc_id q /\
                  (q' = q \/
                   exists e, (q, Some e) ∈ new
                             /\ qc_retryCount q' = S (qc_retryCount q)
                             /\ qc_lastError q' = Some e))
          /\ (forall q e, (q, Some e) ∈ new ->
                exists q', q' ∈ Background.local_queue st' /\ qc_id q' = qc_id q
                           /\ qc_retryCount q' = S (qc_retryCount q))
          /\ (forall q, (q, None) ∈ new ->
                forall q', q' ∈ Background.local_queue st' -> qc_id q' <> qc_id q)
          /\ ((forall q, q ∈ Background.local_queue st -> qc_retryCount q <= 3) ->
              forall q', q' ∈ Background.local_queue st' -> qc_retryCount q' <= 3)
          /\ (fst (Background.validateAuthentication st) = Ok true ->
              forall q, q ∈ Background.local_queue st ->
                3 <= qc_retryCount q -> qc_id q ∉ Background.processing st ->
                (forall q', q' ∈ Background.local_queue st' -> qc_id q' <> qc_id q)
                /\ (forall o, (q, o) ∉ new))).
Proof.
  intros Env H. split.
  - intros submission error st.
    destruct (queueSubmissionForRetry_run submission error st) as (q & st' & E & Q & R & _).
    exists q, st'. auto.
  - intros st Hnd.
    destruct (processQueuedCommits_run st Hnd) as (st' & new & E & P & A & Hcase).
    exists st', new. split; [exact E|]. split; [exact A|].
    destruct Hcase as [(Hno & -> & Q) | (Hyes & F & Q)].
    + (* the authentication gate is closed: nothing happens *)
      rewrite Q. repeat split.
      * exfalso. eapply not_elem_of_nil; eauto.
      * exfalso. eapply not_elem_of_nil; eauto.
      * intros q' Hq'. exists q'. auto.
      * intros q e Hin. exfalso. eapply not_elem_of_nil; eauto.
      * intros q Hin. exfalso. eapply not_elem_of_nil; eauto.
      * auto.
      * intros Hy. congruence.
      * intros Hy. congruence.
    + assert (Hnew : forall q o, (q, o) ∈ new ->
                 q ∈ Background.local_queue st
                 /\ Background.in_flight (Background.processing st) q = false
                 /\ qc_retryCount q < 3).
      { intros q o Hin. apply attempted_elem. rewrite <- F.
        change q with (fst (q, o)). now apply list_elem_of_fmap_2. }
      assert (Hfun : forall q o1 o2, (q, o1) ∈ new -> (q, o2) ∈ new -> o1 = o2).
      { intros q o1 o2. apply outcome_unique. rewrite F.
        now apply NoDup_attempted. }
      assert (Hel : forall q', q' ∈ Background.local_queue st' ->
                 exists q, q ∈ Background.local_queue st /\
                   ((q' = q /\ Background.in_flight (Background.processing st) q = true)
                    \/ exists e, (q, Some e) ∈ new /\ q' = Background.failed q e)).
      { intros q' Hq'. rewrite Q in Hq'. eapply settle_elem; eauto. }
      split; [|split; [|split; [|split; [|split]]]].
      * intros q o Hin. destruct (Hnew q o Hin) as (? & ? & ?). auto.
      * intros q' Hq'. destruct (Hel q' Hq') as (q & Hq & [[-> _] | (e & He & ->)]).
        -- exists q. auto.
        -- exists q. repeat split; auto. right. exists e. repeat split; auto.
           apply failed_retryCount.
      * intros q e Hin. exists (Background.failed q e). rewrite Q.
        split; [now apply settle_failed|]. split; [reflexivity | apply failed_retryCount].
      * intros q Hin q' Hq' Hid.
        destruct (Hnew q None Hin) as (Hq & Hfl & Hrc).
        destruct (Hel q' Hq') as (q0 & Hq0 & Hc).
        assert (q0 = q) as ->.
        { apply (same_id_same_item _ _ _ Hnd Hq0 Hq).
          destruct Hc as [[-> _] | (e & _ & ->)]; exact Hid. }
        destruct Hc as [[_ Hc] | (e & He & _)]; [congruence|].
        specialize (Hfun q _ _ Hin He). discriminate.
      * intros Hb q' Hq'. destruct (Hel q' Hq') as (q & Hq & [[-> _] | (e & He & ->)]).
        -- auto.
        -- rewrite failed_retryCount. destruct (Hnew q _ He) as (_ & _ & ?). lia.
      * intros _ q Hq Hrc Hfl. split.
        -- intros q' Hq' Hid. destruct (Hel q' Hq') as (q0 & Hq0 & Hc).
           assert (q0 = q) as ->.
           { apply (same_id_same_item _ _ _ Hnd Hq0 Hq).
             destruct Hc as [[-> _] | (e & _ & ->)]; exact Hid. }
           destruct Hc as [[_ Hc] | (e & He & _)].
           ++ unfold Background.in_flight in Hc. apply bool_decide_eq_true in Hc. contradiction.
           ++ destruct (Hnew q _ He) as (_ & _ & ?). lia.
        -- intros o Hin. destruct (Hnew q _ Hin) as (_ & _ & ?). lia.
Qed.

Example drain_some_queue :
  map (fun q => (qc_id q, qc_retryCount q))
    (Background.local_queue
       (snd (Background.processQueuedCommits
               (Plain.service Plain.some_queue [] Plain.signed_in))))
  = [("retry-1", 3)].
Proof. vm_compute. reflexivity. Qed.

Lemma retryCount_bounded_by_drain_witness :
  exists st' new,
    Background.processQueuedCommits (Plain.service Plain.some_queue [] Plain.signed_in)
    = (Ok tt, st')
    /\ Background.attempts st' = new
    /\ (forall q o, (q, o) ∈ new -> q ∈ Plain.some_queue /\ qc_retryCount q < 3)
    /\ (forall q', q' ∈ Background.local_queue st' -> qc_retryCount q' <= 3).
Proof.
  assert (Hnd : NoDup (map qc_id Plain.some_queue)).
  { apply (bool_decide_unpack _). vm_compute. exact I. }
  destruct (proj2 (retryCount_bounded_by_drain Plain.Env Plain.host)
              (Plain.service Plain.some_queue [] Plain.signed_in) Hnd)
    as (st' & new & E & A & B & _ & _ & _ & C & _).
  exists st', new. split; [exact E|]. split; [exact A|]. split; [exact B|].
  apply C. intros q Hq. cbn in Hq.
  repeat (apply elem_of_cons in Hq as [->|Hq]; [cbn; lia|]).
  inversion Hq.
Defined.

(** ** Background service: two items under one id *)

Section CollidingIds.
Import Background.

Let pass := @processQueuedCommits Burst.Env Burst.host.

(** A pass over the two items leaves the queue as it found it and adds
    one failed attempt for each. *)
Lemma pass_over_colliding_ids (a : list (QueuedCommit * option string)) (e : Burst.Env) :
  snd (pass (mkService ∅ [Burst.first_item; Burst.second_item] [] a e))
  = mkService ∅ [Burst.first_item; Burst.second_item] []
      ((a ++ [(Burst.first_item, Some Burst.conflict)])
         ++ [(Burst.second_item, Some Burst.conflict)]) e.
Proof. vm_compute. reflexivity. Qed.

Lemma passes_step (k : nat) (st : Service Burst.Env) :
  Burst.passes (S k) st = snd (pass (Burst.passes k st)).
Proof.
  revert st. induction k as [|k IH]; intros st; [reflexivity|].
  change (Burst.passes (S (S k)) st) with (Burst.passes (S k) (snd (pass st))).
  rewrite IH. reflexivity.
Qed.

Lemma passes_over_colliding_ids (n : nat) :
  exists a e,
    Burst.passes (S n) Burst.reported
    = mkService ∅ [Burst.first_item; Burst.second_item] [] a e
    /\ length (Burst.queued_attempts "two-sum" (Burst.passes (S n) Burst.reported)) = S n
    /\ length (Burst.queued_attempts "add-two-numbers" (Burst.passes (S n) Burst.reported))
       = S n
    /\ forallb Burst.thrown (attempts (Burst.passes (S n) Burst.reported)) = true.
Proof.
  induction n as [|n (a & e & E & H1 & H2 & Hf)].
  - eexists _, _. split; [vm_compute; reflexivity|]. repeat split; vm_compute; reflexivity.
  - rewrite passes_step. rewrite E in H1, H2, Hf |- *. rewrite pass_over_colliding_ids.
    eexists _, _. split; [reflexivity|].
    unfold Burst.queued_attempts in *. cbn [attempts] in *.
    rewrite !List.filter_app, !length_app, !forallb_app, H1, H2, Hf.
    split; [|split]; [cbn; lia | cbn; lia | reflexivity].
Qed.

End CollidingIds.

(** C1.  Two submissions whose commits fail are reported within one
    millisecond, and both are queued under the id made of that
    millisecond.  From then on every run of [processQueuedCommits] invokes
    the commit protocol for both items and both attempts fail, yet the
    failure of the second item is written to the first: the count of the
    first goes to two in the middle of a run and is back at one at its end,
    the count of the second stays at zero, no count reaches three, and
    neither item is ever removed. *)
Theorem colliding_ids_are_retried_without_bound :
  map qc_id (Background.local_queue Burst.reported)
  = ["retry-1700000000000"; "retry-1700000000000"]
  /\ map (fun q => sub_titleSlug (qc_submission q)) (Background.local_queue Burst.reported)
     = ["two-sum"; "add-two-numbers"]
  /\ map qc_retryCount (Background.local_queue Burst.reported) = [0; 0]
  /\ map qc_retryCount
       (Background.local_queue
          (snd (@Background.drain Burst.Env Burst.host [Burst.first_item]
                  (Burst.passes 1 Burst.reported))))
     = [2; 0]
  /\ forall n,
       Background.local_queue (Burst.passes (S n) Burst.reported)
       = [Burst.first_item; Burst.second_item]
       /\ map qc_retryCount (Background.local_queue (Burst.passes (S n) Burst.reported))
          = [1; 0]
       /\ length (Burst.queued_attempts "two-sum" (Burst.passes (S n) Burst.reported)) = S n
       /\ length (Burst.queued_attempts "add-two-numbers"
                    (Burst.passes (S n) Burst.reported)) = S n
       /\ forallb Burst.thrown (Background.attempts (Burst.passes (S n) Burst.reported))
          = true.
Proof.
  split; [vm_compute; reflexivity|]. split; [vm_compute; reflexivity|].
  split; [vm_compute; reflexivity|]. split; [vm_compute; reflexivity|].
  intros n. destruct (passes_over_colliding_ids n) as (a & e & E & H1 & H2 & Hf).
  rewrite E in *. cbn [Background.local_queue].
  split; [reflexivity|]. split; [reflexivity|]. auto.
Qed.

(** ** Background service: duplicates *)

Section Duplicates.
Context {Env : Type} `{ServiceHost Env}.
Import Background.

Lemma elem_of_ordered_add x y l : x ∈ ordered_add y l <-> x ∈ l \/ x = y.
Proof.
  unfold ordered_add. case_bool_decide as Hy.
  - split; [auto|]. intros [?| ->]; auto.
  - rewrite elem_of_app, list_elem_of_singleton. tauto.
Qed.

Lemma elem_of_ordered_fold x l : forall acc,
  x ∈ fold_left (fun acc y => ordered_add y acc) l acc <-> x ∈ acc \/ x ∈ l.
Proof.
  induction l as [|y l IH]; intros acc; cbn [fold_left].
  - split; [auto|]. intros [?|Hn]; [auto | inversion Hn].
  - rewrite IH, elem_of_ordered_add, elem_of_cons. tauto.
Qed.

Lemma elem_of_ordered_set x l : x ∈ ordered_set l <-> x ∈ l.
Proof.
  unfold ordered_set. rewrite elem_of_ordered_fold. split; [|auto].
  intros [Hn|?]; [inversion Hn | auto].
Qed.

Lemma handleSubmissionAccepted_duplicate submission st :
  isValidSubmission submission = true ->
  (forall e, set_skipDuplicates (cfg_settings (fst (service_getDecryptedConfig e))) = true) ->
  generateSubmissionKey submission ∈ local_processed st ->
  exists st',
    handleSubmissionAccepted submission st = (Ok tt, st')
    /\ same_store st st'.
Proof.
  intros Hvalid Hskip Hdup.
  unfold handleSubmissionAccepted.
  unfold bind at 1. unfold liftHost at 1, total at 1.
  destruct (Date_now (outside st)) as [now e0].
  set (st0 := mkService _ _ _ _ e0).
  set (key := _ +:+ _).
  unfold bind at 1, gets at 1.
  destruct (bool_decide (key ∈ processing st0)) eqn:Hhas.
  { exists st0. split; [reflexivity | repeat split]. }
  apply bool_decide_eq_false in Hhas.
  unfold bind at 1, set_processing at 1, modify at 1.
  set (st1 := mkService _ _ _ _ _).
  unfold tryFinally, tryCatch. unfold bind at 1.
  destruct (quiet_validateAuthentication st1) as (b & st2 & E2 & P2 & Q2 & R2 & A2).
  rewrite E2. destruct b; cbn [negb].
  - unfold bind at 1. unfold liftHost at 1, total at 1.
    pose proof (Hskip (outside st2)) as Hs.
    destruct (service_getDecryptedConfig (outside st2)) as [config e3]. cbn [fst] in Hs.
    rewrite Hvalid. cbn [negb]. rewrite Hs.
    unfold bind at 1, isDuplicateSubmission, storage_getProcessedSubmissions, bind, gets, ret.
    cbn [local_processed]. rewrite R2. cbn [st1 local_processed].
    rewrite bool_decide_eq_true_2 by (apply elem_of_ordered_set; exact Hdup).
    unfold set_processing, modify. cbn [processing local_queue local_processed attempts outside].
    eexists. split; [reflexivity|].
    repeat split; cbn [processing local_queue local_processed attempts]; auto.
    rewrite P2. cbn [st1 processing].
    rewrite difference_union_distr_l_L, difference_diag_L, union_empty_r_L.
    apply difference_disjoint_L, disjoint_singleton_r. exact Hhas.
  - unfold ret, set_processing, modify.
    eexists. split; [reflexivity|].
    repeat split; cbn [processing local_queue local_processed attempts]; auto.
    rewrite P2. cbn [st1 processing].
    rewrite difference_union_distr_l_L, difference_diag_L, union_empty_r_L.
    apply difference_disjoint_L, disjoint_singleton_r. exact Hhas.
Qed.

End Duplicates.

(** C5, as stated, fails: with [skipDuplicates] on and the fingerprint
    already in the processed set, a submission whose title is empty is put
    on the queue.  The validity check comes before the duplicate check and
    throws, and what is thrown is queued for retry. *)
Lemma duplicate_without_title_is_queued :
  set_skipDuplicates (cfg_settings (fst (service_getDecryptedConfig Plain.signed_in))) = true
  /\ Background.generateSubmissionKey untitled_two_sum
       = Background.generateSubmissionKey Plain.two_sum
  /\ Background.generateSubmissionKey untitled_two_sum ∈ Background.local_processed seen_two_sum
  /\ Background.local_queue seen_two_sum = []
  /\ map (fun q => (qc_id q, qc_retryCount q, qc_lastError q))
       (Background.local_queue (snd (Background.handleSubmissionAccepted untitled_two_sum seen_two_sum)))
     = [("retry-1700000000001", 0, Some "Invalid submission data")].
Proof.
  split; [reflexivity|]. split; [reflexivity|]. split; [left|].
  split; [reflexivity|]. vm_compute. reflexivity.
Qed.

(** C5, amended.  For a submission with a title, a slug, code and a
    language: when [skipDuplicates] is on and the fingerprint is in the
    processed set, [handleSubmissionAccepted] returns without invoking the
    commit protocol and leaves the queue, the processed set and the
    in-flight set as they were. *)
Theorem duplicate_valid_submission_is_dropped :
  forall (Env : Type) (H : ServiceHost Env) submission (st : Background.Service Env),
    Background.isValidSubmission submission = true ->
    (forall e, set_skipDuplicates (cfg_settings (fst (service_getDecryptedConfig e))) = true) ->
    Background.generateSubmissionKey submission ∈ Background.local_processed st ->
    exists st',
      Background.handleSubmissionAccepted submission st = (Ok tt, st')
      /\ Background.attempts st' = Background.attempts st
      /\ Background.local_queue st' = Background.local_queue st
      /\ Background.local_processed st' = Background.local_processed st
      /\ Background.processing st' = Background.processing st.
Proof.
  intros Env H submission st Hvalid Hskip Hdup.
  destruct (handleSubmissionAccepted_duplicate submission st Hvalid Hskip Hdup)
    as (st' & E & P & Q & R & A).
  exists st'. auto.
Qed.

Lemma duplicate_valid_submission_is_dropped_witness :
  exists st',
    Background.handleSubmissionAccepted Plain.two_sum
      (Plain.service Plain.some_queue
         [Background.generateSubmissionKey Plain.two_sum] Plain.signed_in)
    = (Ok tt, st')
    /\ Background.attempts st' = []
    /\ Background.local_queue st' = Plain.some_queue.
Proof.
  destruct (duplicate_valid_submission_is_dropped Plain.Env Plain.host Plain.two_sum
              (Plain.service Plain.some_queue
                 [Background.generateSubmissionKey Plain.two_sum] Plain.signed_in))
    as (st' & E & A & Q & _).
  - reflexivity.
  - intros e. reflexivity.
  - left.
  - exists st'. auto.
Defined.

(** ** Commit manager: the aggregate README *)

Section RepositoryReadme.
Context {Env Body : Type} `{Host Env Body} `{CommitHost Env}.
Variable update : string -> string -> string -> string -> M (Net Env) string.

(** Whatever happens inside [updateRepositoryReadme] stays inside. *)
Lemma updateRepositoryReadme_returns owner repo branch commitMessage w :
  exists w',
    CommitManager.updateRepositoryReadme update owner repo branch commitMessage w
    = (Ok tt, w').
Proof.
  unfold CommitManager.updateRepositoryReadme, tryCatch.
  match goal with |- context [match ?m w with _ => _ end] => destruct (m w) as [[[]|e] w1] end.
  - now exists w1.
  - now exists w1.
Qed.

Lemma processCommit_after_writes queuedCommit w config github variables w4 :
  CommitManager.files_written queuedCommit w config github variables w4 ->
  CommitManager.processCommit update queuedCommit w
  = (Ok tt,
     snd (CommitManager.updateRepositoryReadme update
            (gh_username github) (gh_repository github) (gh_branch github)
            (TemplateEngine.generateCommitMessage
               (tpl_commitMessage (cfg_templates config)) variables) w4)).
Proof.
  intros (problemDetails & files & results & w1 & w2 & w3 & Hc & Hg & Hv & Hp & Hf & Hr & Hw).
  unfold CommitManager.processCommit.
  rewrite (bind_ok _ _ _ _ _ Hc), Hg, Hv. cbn [of_res].
  unfold bind at 1, ret at 1.
  rewrite (bind_ok _ _ _ _ _ Hp), (bind_ok _ _ _ _ _ Hf), Hr. cbn [negb].
  rewrite (bind_ok _ _ _ _ _ Hw).
  destruct (updateRepositoryReadme_returns (gh_username github) (gh_repository github)
              (gh_branch github)
              (TemplateEngine.generateCommitMessage
                 (tpl_commitMessage (cfg_templates config)) variables) w4) as (w5 & E).
  now rewrite E.
Qed.

End RepositoryReadme.

Section DrainSuccess.
Context {Env : Type} `{ServiceHost Env}.
Import Background.

(** The turn of an item whose commit goes through: it leaves the queue,
    and the attempt is noted as a success. *)
Lemma drain_item_committed q (pre rest : list QueuedCommit) st e' :
  local_queue st = pre ++ q :: rest ->
  NoDup (map qc_id (pre ++ q :: rest)) ->
  qc_id q ∉ processing st ->
  qc_retryCount q < 3 ->
  commitManager_processCommit q (outside st) = (Ok tt, e') ->
  exists st',
    drain [q] st = (Ok tt, st')
    /\ local_queue st' = pre ++ rest
    /\ attempts st' = attempts st ++ [(q, None)]
    /\ processing st' = processing st.
Proof.
  intros Hq Hnd Hfl Hrc Hok.
  assert (Hp : (processing st ∪ {[qc_id q]}) ∖ {[qc_id q]} = processing st).
  { rewrite difference_union_distr_l_L, difference_diag_L, union_empty_r_L.
    apply difference_disjoint_L, disjoint_singleton_r. exact Hfl. }
  cbn [drain]. unfold bind at 1, gets at 1.
  rewrite bool_decide_eq_false_2 by exact Hfl.
  destruct (Nat.leb_spec 3 (qc_retryCount q)); [lia|].
  unfold bind, set_processing, modify, tryFinally, tryCatch, processCommit,
    liftHost, record_attempt, storage_removeFromCommitQueue, markSubmissionProcessed,
    storage_markSubmissionProcessed, storage_getProcessedSubmissions,
    storage_getCommitQueue, set_queue, set_processed, gets, ret.
  cbn [outside processing local_queue local_processed attempts].
  rewrite Hok. cbn [outside processing local_queue local_processed attempts snd fst].
  eexists. split; [reflexivity|].
  cbn [outside processing local_queue local_processed attempts].
  rewrite Hq, remove_unique by exact Hnd. auto.
Qed.

End DrainSuccess.

Section ImmediatePath.
Context {Env : Type} `{ServiceHost Env}.
Import Background.

Lemma framed_of_quiet {A} (m : M (Service Env) A) : quiet m -> framed m.
Proof.
  intros Hq st r st' E. destruct (Hq st) as (a & st1 & E1 & S1).
  rewrite E1 in E. now injection E as <- <-.
Qed.

Lemma framed_liftHost {A} (m : M Env A) : framed (liftHost m).
Proof. intros st r st' E. eapply liftHost_same; eauto. Qed.

Lemma framed_bind {A B} (m : M (Service Env) A) (k : A -> M (Service Env) B) :
  framed m -> (forall a, framed (k a)) -> framed (bind m k).
Proof.
  intros Hm Hk st r st'. unfold bind.
  destruct (m st) as [[a|e] st1] eqn:E1; apply Hm in E1.
  - intros E2. apply Hk in E2. eapply same_store_trans; eauto.
  - intros [= <- <-]. exact E1.
Qed.

Lemma framed_handleInvalidToken error : framed (handleInvalidToken error).
Proof.
  apply framed_bind; [apply framed_liftHost|]. intros _.
  apply framed_bind; [apply framed_of_quiet, quiet_showNotification|]. intros _.
  apply framed_of_quiet, quiet_open_options_page.
Qed.

(** The [catch] of [handleSubmissionAccepted] never touches the record
    of the attempts. *)
Lemma catch_keeps_attempts submission error st r st' :
  (if JS.includes error "Bad credentials" || JS.includes error "401" then
     handleInvalidToken error
   else
     queueSubmissionForRetry submission error ;;
     showErrorNotification "Commit failed" error) st = (r, st') ->
  attempts st' = attempts st.
Proof.
  destruct (JS.includes error "Bad credentials" || JS.includes error "401").
  - intros E. apply framed_handleInvalidToken in E. apply E.
  - unfold bind.
    destruct (queueSubmissionForRetry_run submission error st) as (q & st1 & E1 & _ & _ & _ & A1).
    rewrite E1. intros E. apply (framed_of_quiet _ (quiet_showNotification _ _)) in E.
    destruct E as (_ & _ & _ & A). congruence.
Qed.

(** What a run of [handleSubmissionAccepted] does to the record of the
    attempts: nothing, or one attempt that succeeded and then the queue
    is as before, or one attempt that failed. *)
Lemma handleSubmissionAccepted_attempts submission st r st' :
  handleSubmissionAccepted submission st = (r, st') ->
  attempts st' = attempts st
  \/ (exists q, attempts st' = attempts st ++ [(q, None)]
                /\ local_queue st' = local_queue st
                /\ qc_submission q = submission)
  \/ (exists q e, attempts st' = attempts st ++ [(q, Some e)]).
Proof.
  unfold handleSubmissionAccepted.
  unfold bind at 1. unfold liftHost at 1, total at 1.
  destruct (Date_now (outside st)) as [now e0].
  set (st0 := mkService _ _ _ _ e0).
  set (key := _ +:+ _).
  unfold bind at 1, gets at 1.
  destruct (bool_decide (key ∈ processing st0)).
  { intros [= <- <-]. left. reflexivity. }
  unfold bind at 1, set_processing at 1, modify at 1.
  set (st1 := mkService _ _ _ _ _).
  unfold tryFinally.
  match goal with
  | |- context [match ?body st1 with _ => _ end] =>
      destruct (body st1) as [rb sb] eqn:Eb
  end.
  unfold set_processing, modify. intros [= <- <-].
  cbn [attempts local_queue].
  change (attempts st) with (attempts st1). change (local_queue st) with (local_queue st1).
  clearbody st1 key. clear st0 st e0 now. revert Eb.
  unfold tryCatch. unfold bind at 1.
  destruct (quiet_validateAuthentication st1) as (b & st2 & E2 & P2 & Q2 & R2 & A2).
  rewrite E2. destruct b; cbn [negb].
  2:{ intros [= <- <-]. left. exact A2. }
  unfold bind at 1. unfold liftHost at 1, total at 1.
  destruct (service_getDecryptedConfig (outside st2)) as [config e3].
  set (st3 := mkService _ _ _ _ e3).
  assert (A3 : attempts st3 = attempts st1) by exact A2.
  assert (Q3 : local_queue st3 = local_queue st1) by exact Q2.
  clearbody st3. clear E2 P2 Q2 R2 A2 st2.
  destruct (isValidSubmission submission); cbn [negb].
  2:{ unfold throw at 1. intros E. apply catch_keeps_attempts in E. left. congruence. }
  unfold bind at 1.
  assert (Hdup : exists d, (if set_skipDuplicates (cfg_settings config)
                            then isDuplicateSubmission submission else ret false) st3
                           = (Ok d, st3)).
  { destruct (set_skipDuplicates (cfg_settings config)); eexists; reflexivity. }
  destruct Hdup as (d & ->). destruct d.
  { intros [= <- <-]. left. exact A3. }
  unfold bind at 1. unfold processSubmissionImmediately.
  unfold bind at 1. unfold liftHost at 1, total at 1.
  destruct (Date_now (outside st3)) as [t1 e4]. cbn [outside].
  unfold bind at 1. unfold liftHost at 1, total at 1. cbn [outside].
  destruct (Date_now e4) as [t2 e5].
  set (q := mkQueuedCommit _ submission t2 0 None).
  unfold processCommit, liftHost. cbn [outside processing local_queue local_processed attempts].
  destruct (commitManager_processCommit q e5) as [[[]|e] e6].
  - unfold record_attempt at 1, modify at 1.
    unfold bind at 1, markSubmissionProcessed, storage_markSubmissionProcessed,
      storage_getProcessedSubmissions, set_processed, bind, gets, modify, ret.
    cbn [outside processing local_queue local_processed attempts].
    set (st6 := mkService _ _ _ _ e6).
    intros E. right. left. exists q. unfold showSuccessNotification in E.
    destruct (quiet_showNotification "LeetShip Success"
                (sub_title submission +:+ " committed to GitHub!") st6)
      as ([] & st7 & E7 & (_ & Q7 & _ & A7)).
    rewrite E7 in E. injection E as <- <-.
    rewrite A7, Q7. cbn [st6 attempts local_queue].
    rewrite A3, Q3. auto.
  - cbn [snd]. unfold record_attempt, modify. cbn [snd].
    set (st6 := mkService _ _ _ _ e6).
    intros E. apply catch_keeps_attempts in E. right. right. exists q, e.
    rewrite E. cbn [st6 attempts]. now rewrite A3.
Qed.

(** When the commit of a fresh submission goes through, nothing is put
    on the queue. *)
Lemma committed_submission_not_queued submission st r st' q :
  handleSubmissionAccepted submission st = (r, st') ->
  attempts st' = attempts st ++ [(q, None)] ->
  local_queue st' = local_queue st.
Proof.
  intros E Ha.
  destruct (handleSubmissionAccepted_attempts submission st r st' E)
    as [A | [(q1 & A & Q & _) | (q1 & e & A)]].
  - rewrite A in Ha. apply (f_equal (@length _)) in Ha. rewrite length_app in Ha.
    cbn in Ha. lia.
  - exact Q.
  - rewrite A in Ha. apply app_inj_tail in Ha as [_ Ha]. discriminate.
Qed.

End ImmediatePath.

(** C10.  Every error raised inside [updateRepositoryReadme] is caught:
    the method always returns.  So whenever the steps of [processCommit]
    up to the writes of the files of the submission succeed, [processCommit]
    returns, whatever the update of the aggregate README does.  In the
    drain, the turn of such an item removes it from the queue and notes a
    success, so its [retryCount] is not touched; on the immediate path, a
    commit that returned leaves the queue as it was. *)
Theorem processCommit_survives_readme_failure :
  forall (Env Body : Type) (H : Host Env Body) (C : CommitHost Env)
         (update : string -> string -> string -> string -> M (Net Env) string),
    (forall owner repo branch commitMessage w,
        exists w',
          CommitManager.updateRepositoryReadme update owner repo branch commitMessage w
          = (Ok tt, w'))
    /\
    (forall queuedCommit w config github variables w4,
        CommitManager.files_written queuedCommit w config github variables w4 ->
        CommitManager.processCommit update queuedCommit w
        = (Ok tt,
           snd (CommitManager.updateRepositoryReadme update
                  (gh_username github) (gh_repository github) (gh_branch github)
                  (TemplateEngine.generateCommitMessage
                     (tpl_commitMessage (cfg_templates config)) variables) w4)))
    /\
    (forall (base : ServiceHost (Net Env)) q pre rest
            (st : Background.Service (Net Env)) config github variables w4,
        Background.local_queue st = pre ++ q :: rest ->
        NoDup (map qc_id (pre ++ q :: rest)) ->
        qc_id q ∉ Background.processing st ->
        qc_retryCount q < 3 ->
        CommitManager.files_written q (Background.outside st) config github variables w4 ->
        exists st',
          @Background.drain _
            (with_commitManager base (CommitManager.processCommit update)) [q] st
          = (Ok tt, st')
          /\ Background.local_queue st' = pre ++ rest
          /\ Background.attempts st' = Background.attempts st ++ [(q, None)])
    /\
    (forall (base : ServiceHost (Net Env)) submission
            (st : Background.Service (Net Env)) r st' q,
        @Background.handleSubmissionAccepted _
          (with_commitManager base (CommitManager.processCommit update)) submission st
        = (r, st') ->
        Background.attempts st' = Background.attempts st ++ [(q, None)] ->
        Background.local_queue st' = Background.local_queue st).
Proof.
  intros Env Body H C update. split; [|split; [|split]].
  - intros. apply updateRepositoryReadme_returns.
  - intros. now apply processCommit_after_writes.
  - intros base q pre rest st config github variables w4 Hq Hnd Hfl Hrc Hw.
    destruct (@drain_item_committed _
                (with_commitManager base (CommitManager.processCommit update))
                q pre rest st _ Hq Hnd Hfl Hrc
                (processCommit_after_writes update q _ config github variables w4 Hw))
      as (st' & E & Q & A & _).
    exists st'. auto.
  - intros base submission st r st' q E A.
    exact (@committed_submission_not_queued _
             (with_commitManager base (CommitManager.processCommit update))
             submission st r st' q E A).
Qed.

Lemma two_sum_files_written :
  CommitManager.files_written RemoteService.queued_two_sum (Remote.start "ghp_token")
    (config_with_token "ghp_token")
    (mkGitHubConfig "octocat" "leetcode" "main" "ghp_token" None None)
    RemoteService.two_sum_variables (snd RemoteService.two_sum_written).
Proof.
  exists None, RemoteService.two_sum_files,
    [Remote.commit_result 1; Remote.commit_result 2],
    (Remote.start "ghp_token"), (Remote.start "ghp_token"), (Remote.start "ghp_token").
  split; [reflexivity|]. split; [reflexivity|].
  split; [vm_compute; reflexivity|]. split; [reflexivity|].
  split; [vm_compute; reflexivity|]. split; [reflexivity|].
  vm_compute. reflexivity.
Defined.

Lemma processCommit_survives_readme_failure_witness :
  exists st',
    @Background.drain _ RemoteService.host [RemoteService.queued_two_sum] RemoteService.start
    = (Ok tt, st')
    /\ Background.local_queue st' = []
    /\ Background.attempts st' = [(RemoteService.queued_two_sum, None)].
Proof.
  refine (proj1 (proj2 (proj2
            (processCommit_survives_readme_failure Remote.Repo Payload Remote.host
               Remote.commit_host Remote.readme_update_fails)))
            RemoteService.service_host RemoteService.queued_two_sum [] []
            RemoteService.start (config_with_token "ghp_token")
            (mkGitHubConfig "octocat" "leetcode" "main" "ghp_token" None None)
            RemoteService.two_sum_variables (snd RemoteService.two_sum_written)
            eq_refl _ _ _ two_sum_files_written).
  - apply (bool_decide_unpack _). vm_compute. exact I.
  - cbn. apply not_elem_of_empty.
  - cbn. lia.
Defined.

(** ** Credential store: the plain configuration record *)

Section PlainRecord.
Context `{Platform}.

Lemma keeps_plain_ret {A} (a : A) : keeps_plain (ret a).
Proof. intros v r v' [= <- <-]. auto. Qed.

Lemma keeps_plain_throw {A} e : keeps_plain (throw e : M Vault A).
Proof. intros v r v' [= <- <-]. auto. Qed.

Lemma keeps_plain_bind {A B} (m : M Vault A) (k : A -> M Vault B) :
  keeps_plain m -> (forall a, keeps_plain (k a)) -> keeps_plain (bind m k).
Proof.
  intros Hm Hk v r v'. unfold bind.
  destruct (m v) as [[a|e] v1] eqn:E1; apply Hm in E1 as [L1 D1].
  - intros E2. apply Hk in E2 as [L2 D2]. split; congruence.
  - intros [= <- <-]. auto.
Qed.

Lemma keeps_plain_tryCatch {A} (m : M Vault A) h :
  keeps_plain m -> (forall e, keeps_plain (h e)) -> keeps_plain (tryCatch m h).
Proof.
  intros Hm Hh v r v'. unfold tryCatch.
  destruct (m v) as [[a|e] v1] eqn:E1; apply Hm in E1 as [L1 D1].
  - intros [= <- <-]. auto.
  - intros E2. apply Hh in E2 as [L2 D2]. split; congruence.
Qed.

Lemma keeps_plain_gets {A} (f : Vault -> A) : keeps_plain (gets f).
Proof. intros v r v' [= <- <-]. auto. Qed.

Lemma keeps_plain_get : keeps_plain get.
Proof. intros v r v' [= <- <-]. auto. Qed.

Lemma keeps_plain_modify (f : Vault -> Vault) :
  (forall v, local (f v) !! StorageManager.CONFIG = local v !! StorageManager.CONFIG
             /\ DEFAULT_CONFIG_github (f v) = DEFAULT_CONFIG_github v) ->
  keeps_plain (modify f).
Proof. intros Hf v r v' [= <- <-]. apply Hf. Qed.

Lemma returns_ret {A} (a : A) : returns (ret a).
Proof. intros v. now exists a, v. Qed.

Lemma returns_bind {A B} (m : M Vault A) (k : A -> M Vault B) :
  returns m -> (forall a, returns (k a)) -> returns (bind m k).
Proof.
  intros Hm Hk v. destruct (Hm v) as (a & v1 & E1). destruct (Hk a v1) as (b & v2 & E2).
  exists b, v2. unfold bind. now rewrite E1.
Qed.

Lemma returns_tryCatch {A} (m : M Vault A) h : returns m -> returns (tryCatch m h).
Proof.
  intros Hm v. destruct (Hm v) as (a & v1 & E1). exists a, v1.
  unfold tryCatch. now rewrite E1.
Qed.

Lemma returns_gets {A} (f : Vault -> A) : returns (gets f).
Proof. intros v. now exists (f v), v. Qed.

Lemma returns_modify (f : Vault -> Vault) : returns (modify f).
Proof. intros v. now exists tt, (f v). Qed.

(** Writing under a key other than the plain configuration key. *)
Lemma keeps_plain_setSecureData key data :
  key <> StorageManager.CONFIG -> keeps_plain (SecureStorage.setSecureData key data).
Proof.
  intros Hk. apply keeps_plain_modify. intros v. split; [|reflexivity].
  cbn [with_local local]. now apply lookup_insert_ne.
Qed.

Lemma session_key_not_plain key : "session:" +:+ key <> StorageManager.CONFIG.
Proof. discriminate. Qed.

Lemma keeps_plain_setSessionData key data :
  keeps_plain (SecureStorage.setSessionData key data).
Proof.
  apply keeps_plain_tryCatch.
  - apply keeps_plain_bind; [apply keeps_plain_get|]. intros v.
    destruct (session v).
    + apply keeps_plain_modify. intros v0. split; reflexivity.
    + apply keeps_plain_setSecureData, session_key_not_plain.
  - intros _. apply keeps_plain_setSecureData, session_key_not_plain.
Qed.

Lemma returns_setSessionData key data : returns (SecureStorage.setSessionData key data).
Proof.
  apply returns_tryCatch, returns_bind; [apply returns_gets|]. intros v.
  destruct (session v); apply returns_modify.
Qed.

Lemma keeps_plain_clearSessionData key : keeps_plain (SecureStorage.clearSessionData key).
Proof.
  apply keeps_plain_tryCatch; [|intros _; apply keeps_plain_ret].
  apply keeps_plain_bind; [apply keeps_plain_get|]. intros v.
  destruct (session v); apply keeps_plain_modify; intros v0; split; try reflexivity.
  cbn [with_local local]. apply lookup_delete_ne, session_key_not_plain.
Qed.

Lemma returns_clearSessionData key : returns (SecureStorage.clearSessionData key).
Proof.
  apply returns_tryCatch, returns_bind; [apply returns_gets|]. intros v.
  destruct (session v); apply returns_modify.
Qed.

Lemma keeps_plain_storeGitHubToken config :
  keeps_plain (TokenManager.storeGitHubToken config).
Proof.
  apply keeps_plain_tryCatch; [|intros _; apply keeps_plain_throw].
  apply keeps_plain_bind.
  { destruct (JS.truthy (gh_accessToken config));
      [apply keeps_plain_setSessionData | apply keeps_plain_ret]. }
  intros _. apply keeps_plain_bind.
  { destruct (gh_refreshToken config) as [r|]; [destruct (JS.truthy r)|];
      try apply keeps_plain_ret. now apply keeps_plain_setSecureData. }
  intros _. apply keeps_plain_bind; [now apply keeps_plain_setSecureData|].
  intros _. apply keeps_plain_bind; [apply keeps_plain_gets|].
  intros storedAt. apply keeps_plain_bind; [apply keeps_plain_gets|].
  intros lastValidated. now apply keeps_plain_setSecureData.
Qed.

Lemma returns_storeGitHubToken config : returns (TokenManager.storeGitHubToken config).
Proof.
  apply returns_tryCatch, returns_bind.
  { destruct (JS.truthy (gh_accessToken config));
      [apply returns_setSessionData | apply returns_ret]. }
  intros _. apply returns_bind.
  { destruct (gh_refreshToken config) as [r|]; [destruct (JS.truthy r)|];
      try apply returns_ret. apply returns_modify. }
  intros _. apply returns_bind; [apply returns_modify|].
  intros _. apply returns_bind; [apply returns_gets|].
  intros storedAt. apply returns_bind; [apply returns_gets|].
  intros lastValidated. apply returns_modify.
Qed.

Lemma storeGitHubToken_run config v :
  exists v',
    TokenManager.storeGitHubToken config v = (Ok tt, v')
    /\ local v' !! StorageManager.CONFIG = local v !! StorageManager.CONFIG
    /\ DEFAULT_CONFIG_github v' = DEFAULT_CONFIG_github v.
Proof.
  destruct (returns_storeGitHubToken config v) as ([] & v' & E).
  exists v'. split; [exact E|]. now apply keeps_plain_storeGitHubToken in E.
Qed.

Lemma setConfig_run config v :
  exists v',
    StorageManager.setConfig config v = (Ok tt, v')
    /\ local v' !! StorageManager.CONFIG = Some (VConfig (stripped config))
    /\ DEFAULT_CONFIG_github v' = DEFAULT_CONFIG_github v.
Proof.
  unfold StorageManager.setConfig, tryCatch, bind.
  assert (Hs : exists v1,
             match cfg_github config with
             | Some github => TokenManager.storeGitHubToken github
             | None => ret tt
             end v = (Ok tt, v1)
             /\ DEFAULT_CONFIG_github v1 = DEFAULT_CONFIG_github v).
  { destruct (cfg_github config) as [g|].
    - destruct (storeGitHubToken_run g v) as (v1 & E & _ & D). eauto.
    - exists v. auto. }
  destruct Hs as (v1 & -> & D1). unfold modify.
  eexists. split; [reflexivity|]. split; [|exact D1].
  cbn [with_local local]. apply lookup_insert_eq.
Qed.

Lemma stripped_clean config v :
  local v !! StorageManager.CONFIG = Some (VConfig (stripped config)) ->
  plain_record_clean v.
Proof.
  intros Hl c g Hc Hg. rewrite Hl in Hc. injection Hc as <-.
  unfold stripped in Hg. cbn in Hg.
  destruct (cfg_github config); [|discriminate]. injection Hg as <-. auto.
Qed.

Lemma getConfig_run v :
  exists c alias v',
    StorageManager.getConfig v = (Ok (c, alias), v')
    /\ DEFAULT_CONFIG_github v' = DEFAULT_CONFIG_github v
    /\ ((alias = false /\ local v !! StorageManager.CONFIG = Some (VConfig c) /\ v' = v)
        \/ (alias = true /\ c = StorageManager.DEFAULT_CONFIG v
            /\ local v' !! StorageManager.CONFIG
               = Some (VConfig (stripped (StorageManager.DEFAULT_CONFIG v))))).
Proof.
  unfold StorageManager.getConfig, tryCatch. unfold bind at 1, gets at 1.
  assert (Hd : exists v',
             (d <- gets StorageManager.DEFAULT_CONFIG ;;
              StorageManager.setConfig d ;;
              d' <- gets StorageManager.DEFAULT_CONFIG ;;
              ret (d', true)) v = (Ok (StorageManager.DEFAULT_CONFIG v, true), v')
             /\ DEFAULT_CONFIG_github v' = DEFAULT_CONFIG_github v
             /\ local v' !! StorageManager.CONFIG
                = Some (VConfig (stripped (StorageManager.DEFAULT_CONFIG v)))).
  { unfold bind at 1, gets at 1.
    destruct (setConfig_run (StorageManager.DEFAULT_CONFIG v) v) as (v' & E & L & D).
    exists v'. unfold bind at 1. rewrite E. unfold bind, gets, ret.
    split; [|auto]. unfold StorageManager.DEFAULT_CONFIG. now rewrite D. }
  destruct (local v !! StorageManager.CONFIG) as [[s|g|m|c]|] eqn:El;
    try (destruct Hd as (v' & -> & D & L);
         exists (StorageManager.DEFAULT_CONFIG v), true, v'; split; [reflexivity|];
         split; [exact D|]; right; auto).
  exists c, false, v. split; [reflexivity|]. split; [reflexivity|]. left. auto.
Qed.

Lemma keeps_plain_forceTokenRefresh : keeps_plain TokenManager.forceTokenRefresh.
Proof.
  apply keeps_plain_bind; [apply keeps_plain_clearSessionData|]. intros _.
  apply keeps_plain_modify. intros v. split; reflexivity.
Qed.

Lemma returns_forceTokenRefresh : returns TokenManager.forceTokenRefresh.
Proof.
  apply returns_bind; [apply returns_clearSessionData|]. intros _. apply returns_modify.
Qed.

Lemma forceTokenRefresh_run v :
  exists v',
    StorageManager.forceTokenRefresh v = (Ok tt, v') /\ plain_record_clean v'.
Proof.
  unfold StorageManager.forceTokenRefresh, tryCatch. unfold bind at 1.
  destruct (returns_forceTokenRefresh v) as ([] & v1 & E1). rewrite E1.
  unfold bind at 1.
  destruct (getConfig_run v1) as (c & alias & v2 & E2 & D2 & Hcase). rewrite E2.
  cbn [fst snd].
  destruct (cfg_github c) as [g|] eqn:Eg.
  - unfold bind, StorageManager.assign_github, modify, ret.
    destruct alias; eexists; (split; [reflexivity|]);
      intros c0 g0 Hc0 Hg0; cbn [with_local local with_DEFAULT_CONFIG_github] in Hc0;
      rewrite lookup_insert_eq in Hc0; injection Hc0 as <-; cbn in Hg0;
      injection Hg0 as <-; auto.
  - exists v2. split; [reflexivity|].
    destruct Hcase as [(-> & L & ->) | (-> & -> & L)].
    + intros c0 g0 Hc0 Hg0. rewrite L in Hc0. injection Hc0 as <-. congruence.
    + eapply stripped_clean; eauto.
Qed.

Lemma handleAuthWithPAT_success payload v r v' :
  BackgroundAuth.handleAuthWithPAT payload v = (Ok r, v') ->
  auth_success r = true ->
  plain_record_clean v'.
Proof.
  unfold BackgroundAuth.handleAuthWithPAT, tryCatch. unfold bind at 1.
  destruct (GitHubAuth.authenticateWithToken (pay_token payload) v) as [[config|e] v1].
  2:{ intros [= <- <-]. discriminate. }
  unfold bind at 1.
  destruct (StorageManager.getDecryptedConfig v1) as [[current|e] v2].
  2:{ intros [= <- <-]. discriminate. }
  unfold bind at 1.
  destruct (StorageManager.assign_github _ (snd current) v2) as [[[]|e] v3].
  2:{ intros [= <- <-]. discriminate. }
  unfold bind at 1.
  match goal with
  | |- context [StorageManager.setConfig ?c v3] =>
      destruct (setConfig_run c v3) as (v4 & E4 & L4 & _); rewrite E4
  end.
  intros [= <- <-] _. eapply stripped_clean; eauto.
Qed.

(** After [storeGitHubToken] the access token can be read back from the
    session tier. *)
Lemma storeGitHubToken_session config v :
  JS.truthy (gh_accessToken config) = true ->
  fst (SecureStorage.getSessionData TokenManager.GITHUB_TOKEN
         (snd (TokenManager.storeGitHubToken config v)))
  = Ok (Some (gh_accessToken config)).
Proof.
  intros Ht.
  unfold TokenManager.storeGitHubToken, tryCatch, bind. rewrite Ht.
  unfold SecureStorage.setSessionData, SecureStorage.setSecureData, SecureStorage.getSessionData,
    SecureStorage.getSecureData, Date_now_vault, tryCatch, bind, get, gets, modify, ret.
  destruct (session v) as [s|] eqn:Es;
    destruct (gh_refreshToken config) as [rt|]; try destruct (JS.truthy rt);
    cbn [fst snd with_local with_session local session]; rewrite ?Es;
    cbn [fst snd with_local with_session local session].
  all: try (rewrite lookup_insert_eq; cbn [stored_text]; now rewrite Ht).
  all: rewrite !lookup_insert_ne by discriminate;
    rewrite lookup_insert_eq; cbn [stored_text]; now rewrite Ht.
Qed.

Lemma getSessionData_after_plain_write key x v :
  fst (SecureStorage.getSessionData key
         (with_local (fun m => <[StorageManager.CONFIG := x]> m) v))
  = fst (SecureStorage.getSessionData key v).
Proof.
  unfold SecureStorage.getSessionData, SecureStorage.getSecureData, tryCatch, bind, get, gets, ret.
  cbn [with_local session local fst snd].
  destruct (session v); cbn [fst]; [reflexivity|].
  unfold with_local. cbn [local].
  rewrite lookup_insert_ne by (apply not_eq_sym, session_key_not_plain). reflexivity.
Qed.

Lemma setConfig_session config github v :
  cfg_github config = Some github ->
  JS.truthy (gh_accessToken github) = true ->
  fst (SecureStorage.getSessionData TokenManager.GITHUB_TOKEN
         (snd (StorageManager.setConfig config v)))
  = Ok (Some (gh_accessToken github)).
Proof.
  intros Hg Ht. unfold StorageManager.setConfig, tryCatch. unfold bind at 1. rewrite Hg.
  destruct (storeGitHubToken_run github v) as (v1 & E & _).
  pose proof (storeGitHubToken_session github v Ht) as Hs. rewrite E in Hs |- *.
  cbn [snd] in Hs. unfold modify. cbn [snd].
  now rewrite getSessionData_after_plain_write.
Qed.

End PlainRecord.

(** C7, as stated, fails: after a successful authentication through the
    Firefox background script, the record under the plain configuration key
    carries the access token. *)
Lemma firefox_auth_stores_token_in_plain_record :
  auth_success
    (match fst (FirefoxBackground.handleAuthWithPAT Accepting.pat_payload Accepting.fresh) with
     | Ok r => r
     | Throw _ => mkAuthResponse false None None
     end) = true
  /\ (fun g => gh_accessToken g) <$>
       (match local (snd (FirefoxBackground.handleAuthWithPAT Accepting.pat_payload
                            Accepting.fresh)) !! StorageManager.CONFIG with
        | Some (VConfig c) => cfg_github c
        | _ => None
        end)
     = Some "ghp_token"
  /\ ~ plain_record_clean
        (snd (FirefoxBackground.handleAuthWithPAT Accepting.pat_payload Accepting.fresh)).
Proof.
  split; [vm_compute; reflexivity|]. split; [vm_compute; reflexivity|].
  intros Hclean.
  destruct (Hclean
              (StorageManager.with_github
                 (Some (mkGitHubConfig "octocat" "leetcode" "main" "ghp_token"
                          (Some EmptyString) None))
                 (mkExtensionConfig None DEFAULT_templates DEFAULT_settings 1))
              (mkGitHubConfig "octocat" "leetcode" "main" "ghp_token" (Some EmptyString) None))
    as [Ha _].
  - vm_compute. reflexivity.
  - reflexivity.
  - discriminate Ha.
Qed.

(** C7, amended.  In the storage manager and the token manager:
    [setConfig] stores the configuration with blank token fields under the
    plain key and puts the access token in the session tier;
    [storeGitHubToken] does not write the plain record;
    [forceTokenRefresh] leaves the plain record without a token; and after
    a successful authentication through the background service the plain
    record has blank token fields. *)
Theorem plain_record_never_receives_token :
  forall (P : Platform),
    (forall config v,
        exists v',
          StorageManager.setConfig config v = (Ok tt, v')
          /\ local v' !! StorageManager.CONFIG = Some (VConfig (stripped config))
          /\ plain_record_clean v')
    /\
    (forall config github v,
        cfg_github config = Some github ->
        JS.truthy (gh_accessToken github) = true ->
        fst (SecureStorage.getSessionData TokenManager.GITHUB_TOKEN
               (snd (StorageManager.setConfig config v)))
        = Ok (Some (gh_accessToken github)))
    /\
    (forall github v,
        exists v',
          TokenManager.storeGitHubToken github v = (Ok tt, v')
          /\ local v' !! StorageManager.CONFIG = local v !! StorageManager.CONFIG)
    /\
    (forall v,
        exists v',
          StorageManager.forceTokenRefresh v = (Ok tt, v') /\ plain_record_clean v')
    /\
    (forall payload v r v',
        BackgroundAuth.handleAuthWithPAT payload v = (Ok r, v') ->
        auth_success r = true ->
        plain_record_clean v').
Proof.
  intros P. split; [|split; [|split; [|split]]].
  - intros config v. destruct (setConfig_run config v) as (v' & E & L & _).
    exists v'. split; [exact E|]. split; [exact L|]. eapply stripped_clean; eauto.
  - intros config github v Hg Ht. now apply setConfig_session.
  - intros github v. destruct (storeGitHubToken_run github v) as (v' & E & L & _). eauto.
  - apply forceTokenRefresh_run.
  - apply handleAuthWithPAT_success.
Qed.

Lemma plain_record_never_receives_token_witness :
  plain_record_clean
    (snd (BackgroundAuth.handleAuthWithPAT Accepting.pat_payload Accepting.fresh))
  /\ fst (SecureStorage.getSessionData TokenManager.GITHUB_TOKEN
            (snd (StorageManager.setConfig
                    (mkExtensionConfig (Some Accepting.both_tokens) DEFAULT_templates
                       DEFAULT_settings 1)
                    Accepting.fresh)))
     = Ok (Some "ghp_token").
Proof.
  split.
  - refine (proj2 (proj2 (proj2 (proj2
              (plain_record_never_receives_token Accepting.platform))))
              Accepting.pat_payload Accepting.fresh
              (mkAuthResponse true None
                 (Some (mkGitHubConfig "octocat" "leetcode" "main" "ghp_token"
                          (Some EmptyString) None)))
              _ _ eq_refl).
    vm_compute. reflexivity.
  - exact (proj1 (proj2 (plain_record_never_receives_token Accepting.platform))
             (mkExtensionConfig (Some Accepting.both_tokens) DEFAULT_templates
                DEFAULT_settings 1)
             Accepting.both_tokens Accepting.fresh eq_refl eq_refl).
Defined.

(** ** Credential store: the validation cache *)

Section ValidationCache.
Context `{Platform}.

Lemma getSessionData_run key v :
  exists x, SecureStorage.getSessionData key v = (Ok x, v).
Proof.
  unfold SecureStorage.getSessionData, SecureStorage.getSecureData, tryCatch, bind, get, gets, ret.
  destruct (session v); eexists; reflexivity.
Qed.

Lemma getSessionData_elapse key d v :
  fst (SecureStorage.getSessionData key (elapse d v))
  = fst (SecureStorage.getSessionData key v).
Proof.
  unfold SecureStorage.getSessionData, SecureStorage.getSecureData, tryCatch, bind, get, gets, ret.
  cbn [elapse session local]. destruct (session v); reflexivity.
Qed.

Lemma getSessionData_same_tiers key v v' :
  local v' = local v -> session v' = session v ->
  fst (SecureStorage.getSessionData key v') = fst (SecureStorage.getSessionData key v).
Proof.
  intros Hl Hse.
  unfold SecureStorage.getSessionData, SecureStorage.getSecureData, tryCatch, bind, get, gets, ret.
  rewrite Hse. destruct (session v); cbn [fst]; rewrite ?Hl; reflexivity.
Qed.

Lemma validateTokenWithGitHub_run token v :
  exists b,
    TokenManager.validateTokenWithGitHub token v = (Ok b, with_validation token v).
Proof.
  unfold TokenManager.validateTokenWithGitHub, tryCatch, bind, Date_now_vault, gets, modify.
  destruct (GET_rate_limit token (clock v)); eexists; reflexivity.
Qed.

(** A hit: the entry is there and has not expired. *)
Lemma validateTokenWithCache_hit token v entry :
  tokenValidationCache v !! hashToken token = Some entry ->
  (clock v < expires entry)%N ->
  TokenManager.validateTokenWithCache token v = (Ok (valid entry), v).
Proof.
  intros Hc Ht. unfold TokenManager.validateTokenWithCache, Date_now_vault, bind, gets.
  rewrite Hc. apply N.ltb_lt in Ht. now rewrite Ht.
Qed.

(** A validation that comes out true leaves an entry that says so; it
    costs one request when the cache had nothing to say, and none
    otherwise. *)
Lemma validateTokenWithCache_true token v :
  fst (TokenManager.validateTokenWithCache token v) = Ok true ->
  exists entry v1,
    TokenManager.validateTokenWithCache token v = (Ok true, v1)
    /\ tokenValidationCache v1 !! hashToken token = Some entry
    /\ valid entry = true
    /\ local v1 = local v /\ session v1 = session v
    /\ ((v1 = v /\ (clock v < expires entry)%N)
        \/ (validations v1 = validations v ++ [token]
            /\ expires entry = (clock v1 + TokenManager.CACHE_DURATION)%N)).
Proof.
  destruct (validateTokenWithGitHub_run token v) as (b & E).
  assert (Hmiss : forall b',
    b' = b -> b = true ->
    exists entry v1,
      (Ok b', with_cache
               (fun c => <[hashToken token :=
                  mkCacheEntry b (clock (with_validation token v)
                                  + TokenManager.CACHE_DURATION)%N]> c)
               (with_validation token v)) = (Ok true, v1)
      /\ tokenValidationCache v1 !! hashToken token = Some entry
      /\ valid entry = true
      /\ local v1 = local v /\ session v1 = session v
      /\ ((v1 = v /\ (clock v < expires entry)%N)
          \/ (validations v1 = validations v ++ [token]
              /\ expires entry = (clock v1 + TokenManager.CACHE_DURATION)%N))).
  { intros b' -> ->. eexists _, _. split; [reflexivity|].
    cbn [with_cache with_validation tokenValidationCache local session clock validations].
    rewrite lookup_insert_eq. split; [reflexivity|]. split; [reflexivity|].
    split; [reflexivity|]. split; [reflexivity|]. right. split; reflexivity. }
  unfold TokenManager.validateTokenWithCache, Date_now_vault, bind, gets, modify, ret.
  destruct (tokenValidationCache v !! hashToken token) as [entry|] eqn:Ec.
  2: rewrite E.
  - destruct (clock v <? expires entry)%N eqn:Et.
    2: rewrite E.
    + cbn [fst]. intros [= Hv]. exists entry, v.
      split; [now rewrite Hv|]. split; [exact Ec|]. split; [exact Hv|].
      split; [reflexivity|]. split; [reflexivity|]. left. split; [reflexivity|].
      now apply N.ltb_lt.
    + cbn [fst]. intros [= Hb]. now apply Hmiss.
  - cbn [fst]. intros [= Hb]. now apply Hmiss.
Qed.

Lemma getGitHubToken_session_valid token v v1 :
  fst (SecureStorage.getSessionData TokenManager.GITHUB_TOKEN v) = Ok (Some token) ->
  TokenManager.validateTokenWithCache token v = (Ok true, v1) ->
  TokenManager.getGitHubToken v = (Ok (Some token), v1).
Proof.
  intros Hs Hv. unfold TokenManager.getGitHubToken, tryCatch. unfold bind at 1.
  destruct (getSessionData_run TokenManager.GITHUB_TOKEN v) as (x & E).
  rewrite E in Hs |- *. cbn [fst] in Hs. injection Hs as ->.
  unfold bind at 1. unfold bind at 1. rewrite Hv. reflexivity.
Qed.

End ValidationCache.

(** C8, as stated, fails: with the token in the durable tier only, the
    first of two calls in a row validates the durable copy against the
    remote API without noting the result in the cache, and the second one,
    which now finds the token in the session tier, validates it again.
    Both requests leave within a quarter of a second. *)
Lemma durable_token_is_validated_twice :
  fst (TokenManager.getGitHubToken Accepting.after_restart) = Ok (Some "ghp_token")
  /\ fst (TokenManager.getGitHubToken
            (snd (TokenManager.getGitHubToken Accepting.after_restart)))
     = Ok (Some "ghp_token")
  /\ validations Accepting.after_restart = []
  /\ validations (snd (TokenManager.getGitHubToken
                         (snd (TokenManager.getGitHubToken Accepting.after_restart))))
     = ["ghp_token"; "ghp_token"]
  /\ (clock (snd (TokenManager.getGitHubToken
                    (snd (TokenManager.getGitHubToken Accepting.after_restart))))
      - clock Accepting.after_restart < TokenManager.CACHE_DURATION)%N.
Proof.
  split; [vm_compute; reflexivity|]. split; [vm_compute; reflexivity|].
  split; [vm_compute; reflexivity|]. split; [vm_compute; reflexivity|].
  vm_compute. reflexivity.
Qed.

(** C8, amended.  When the token is in the session tier and validates, a
    call of [getGitHubToken] returns it at the cost of at most one request
    to the remote API, and a second call made before the cache entry
    expires returns it without any request: it changes nothing in the
    state.  An entry written by the first call lasts five minutes. *)
Theorem session_token_validated_once :
  forall (P : Platform) (v : Vault) (token : string),
    fst (SecureStorage.getSessionData TokenManager.GITHUB_TOKEN v) = Ok (Some token) ->
    fst (TokenManager.validateTokenWithCache token v) = Ok true ->
    exists entry v1,
      TokenManager.getGitHubToken v = (Ok (Some token), v1)
      /\ (validations v1 = validations v \/ validations v1 = validations v ++ [token])
      /\ tokenValidationCache v1 !! hashToken token = Some entry
      /\ (validations v1 <> validations v ->
          expires entry = (clock v1 + TokenManager.CACHE_DURATION)%N)
      /\ forall d,
          (clock v1 + d < expires entry)%N ->
          TokenManager.getGitHubToken (elapse d v1) = (Ok (Some token), elapse d v1).
Proof.
  intros P v token Hs Hv.
  destruct (validateTokenWithCache_true token v Hv)
    as (entry & v1 & E & Hc & Hvalid & Hl & Hse & Hcase).
  exists entry, v1. split; [now apply getGitHubToken_session_valid|].
  split; [destruct Hcase as [[-> _]|[-> _]]; auto|].
  split; [exact Hc|]. split.
  - intros Hne. destruct Hcase as [[-> _]|[_ He]]; [contradiction | exact He].
  - intros d Hd. apply getGitHubToken_session_valid.
    + rewrite getSessionData_elapse, (getSessionData_same_tiers _ v v1 Hl Hse). exact Hs.
    + rewrite <- Hvalid. apply validateTokenWithCache_hit; [exact Hc | exact Hd].
Qed.

Lemma session_token_validated_once_witness :
  exists entry v1,
    TokenManager.getGitHubToken
      (snd (TokenManager.storeGitHubToken Accepting.both_tokens Accepting.fresh))
    = (Ok (Some "ghp_token"), v1)
    /\ tokenValidationCache v1 !! hashToken "ghp_token" = Some entry
    /\ forall d,
        (clock v1 + d < expires entry)%N ->
        TokenManager.getGitHubToken (elapse d v1) = (Ok (Some "ghp_token"), elapse d v1).
Proof.
  destruct (session_token_validated_once Accepting.platform
              (snd (TokenManager.storeGitHubToken Accepting.both_tokens Accepting.fresh))
              "ghp_token")
    as (entry & v1 & E & _ & Hc & _ & Hd).
  - vm_compute. reflexivity.
  - vm_compute. reflexivity.
  - exists entry, v1. auto.
Defined.

(** ** Extraction *)

Lemma firstSome_Some {A B : Type} (f : A -> option B) (l : list A) (y : B) :
  firstSome f l = Some y -> exists x, In x l /\ f x = Some y.
Proof.
  induction l as [|x l IH]; cbn [firstSome]; [discriminate|].
  destruct (f x) as [y'|] eqn:E.
  - intros [= <-]. exists x. split; [now left | exact E].
  - intros Hl. destruct (IH Hl) as (x' & Hin & Hx). exists x'. split; [now right | exact Hx].
Qed.

Lemma longer_than_length (n : nat) (code : string) :
  longer_than n code = true -> n < String.length code.
Proof.
  unfold longer_than. intros Hc. apply andb_true_iff in Hc as [_ Hc].
  now apply Nat.ltb_lt.
Qed.

(** The selector scan of the old extractor returns trimmed text of more
    than ten characters, or nothing. *)
Lemma V1_getCode_longer_than_10 (page : Page) (code : string) :
  LeetCodeV1.getCode page = Some code -> 10 < String.length code.
Proof.
  unfold LeetCodeV1.getCode. intros Hc.
  apply firstSome_Some in Hc as (selector & _ & Hc).
  apply firstSome_Some in Hc as (element & _ & Hc). cbv zeta in Hc.
  destruct (longer_than 10 _) eqn:El in Hc; [|discriminate].
  injection Hc as <-. now apply longer_than_length.
Qed.

(** So does the selector scan of the new one. *)
Lemma V2_selectorCode_longer_than_10 (page : Page) (code : string) :
  LeetCodeV2.selectorCode page = Some code -> 10 < String.length code.
Proof.
  unfold LeetCodeV2.selectorCode. intros Hc.
  apply firstSome_Some in Hc as (selector & _ & Hc).
  apply firstSome_Some in Hc as (element & _ & Hc). cbv zeta in Hc.
  destruct (longer_than 10 _) eqn:El in Hc; [|discriminate].
  injection Hc as <-. now apply longer_than_length.
Qed.

(** The last resort of the new extractor asks for more than twenty. *)
Lemma V2_textareaCode_longer_than_20 (page : Page) (code : string) :
  LeetCodeV2.textareaCode page = Some code -> 20 < String.length code.
Proof.
  unfold LeetCodeV2.textareaCode. intros Hc.
  apply firstSome_Some in Hc as (textarea & _ & Hc). cbv zeta in Hc.
  destruct (longer_than 20 _) eqn:El in Hc; [|discriminate].
  destruct (_ || _) in Hc; [|discriminate].
  injection Hc as <-. now apply longer_than_length.
Qed.

Lemma pageSubmission_code page problemInfo code language stats :
  sub_code (pageSubmission page problemInfo code language stats) = code.
Proof. reflexivity. Qed.

(** C4, as stated, fails on two paths of the new extractor.  With a
    submission id in the address, the code of the GraphQL answer goes into
    the submission as it is; without one, the value of the first model of
    the editor API does.  Here both are four characters long. *)
Lemma short_code_is_extracted :
  sub_code <$> LeetCodeV2.getSubmissionDetails Pages.answered_short = Some "pass"
  /\ sub_code <$> LeetCodeV2.getSubmissionDetails Pages.editor_short = Some "pass"
  /\ String.length "pass" <= 10.
Proof.
  split; [vm_compute; reflexivity|]. split; [vm_compute; reflexivity|].
  vm_compute. lia.
Qed.

(** C4, amended.  Where the code comes from the scan of the document, a
    submission is only built around code of more than ten characters: in
    the old extractor always, and in the new one when the page gives no
    submission id and the editor API gives no model. *)
Theorem scanned_code_longer_than_10 :
  (forall (page : Page) (s : LeetCodeSubmission),
      LeetCodeV1.getSubmissionDetails page = Some s ->
      10 < String.length (sub_code s))
  /\ (forall (page : Page) (s : LeetCodeSubmission),
        LeetCodeV2.findSubmissionId page = None ->
        LeetCodeV2.monacoCode page = None ->
        LeetCodeV2.getSubmissionDetails page = Some s ->
        10 < String.length (sub_code s)).
Proof.
  split.
  - intros page s. unfold LeetCodeV1.getSubmissionDetails.
    destruct (negb (LeetCodeV1.isSubmissionSuccess page)); [discriminate|].
    destruct (LeetCodeV1.getProblemInfo page) as [problemInfo|]; [|discriminate].
    destruct (LeetCodeV1.getCode page) as [code|] eqn:Ec; [|discriminate].
    destruct (negb (JS.truthy code)); [discriminate|].
    intros [= <-]. rewrite pageSubmission_code. now apply (V1_getCode_longer_than_10 page).
  - intros page s Hid Hm. unfold LeetCodeV2.getSubmissionDetails.
    destruct (negb (LeetCodeV2.isSubmissionSuccess page)); [discriminate|].
    rewrite Hid. unfold LeetCodeV2.getSubmissionFromPage, LeetCodeV2.getCode. rewrite Hm.
    destruct (LeetCodeV2.getProblemInfo page) as [problemInfo|]; [|discriminate].
    destruct (LeetCodeV2.selectorCode page) as [code|] eqn:Ec.
    + destruct (negb (JS.truthy code)); [discriminate|].
      intros [= <-]. rewrite pageSubmission_code.
      now apply (V2_selectorCode_longer_than_10 page).
    + destruct (LeetCodeV2.textareaCode page) as [code|] eqn:Et; [|discriminate].
      destruct (negb (JS.truthy code)); [discriminate|].
      intros [= <-]. rewrite pageSubmission_code.
      apply V2_textareaCode_longer_than_20 in Et. lia.
Qed.

Lemma scanned_code_longer_than_10_witness :
  exists s1 s2,
    LeetCodeV1.getSubmissionDetails Pages.classic = Some s1
    /\ sub_code s1 = "class Solution: pass"
    /\ 10 < String.length (sub_code s1)
    /\ LeetCodeV2.getSubmissionDetails Pages.rendered = Some s2
    /\ 10 < String.length (sub_code s2).
Proof.
  destruct scanned_code_longer_than_10 as [H1 H2].
  eexists _, _. split; [vm_compute; reflexivity|]. split; [vm_compute; reflexivity|].
  split; [apply (H1 Pages.classic); vm_compute; reflexivity|].
  split; [vm_compute; reflexivity|].
  apply (H2 Pages.rendered); vm_compute; reflexivity.
Defined.

(** ** The in-flight set on the event loop *)

Section InFlight.
Context {Env : Type} `{ServiceHost Env}.
Import Background EventLoop.

(** The pieces put together again are the two methods. *)
Lemma handleSubmissionAccepted_in_pieces submissionData (st : Service Env) :
  handleSubmissionAccepted submissionData st
  = (key <- enter submissionData ;;
     match key with
     | Some processingKey => tryFinally (handle submissionData) (leave processingKey)
     | None => ret tt
     end) st.
Proof.
  unfold handleSubmissionAccepted, enter, EventLoop.processingKey, bind.
  destruct (liftHost (total Date_now) st) as [[now|e] st1]; [|reflexivity].
  unfold gets. destruct (bool_decide _); reflexivity.
Qed.

Lemma drain_in_pieces queuedCommit rest (st : Service Env) :
  drain (queuedCommit :: rest) st
  = (verdict <- claim queuedCommit ;;
     match verdict with
     | Taken =>
         tryFinally (attempt queuedCommit) (leave (qc_id queuedCommit)) ;;
         drain rest
     | Skipped | Abandoned => drain rest
     end) st.
Proof.
  cbn [drain]. unfold claim, bind, gets.
  destruct (bool_decide _); [reflexivity|].
  destruct (3 <=? qc_retryCount queuedCommit); reflexivity.
Qed.

(** With no other task in between, the pieces of a task add up to the
    method it belongs to. *)
Lemma handling_alone key submissionData (st : Service Env) :
  alone 2 (Handling key submissionData) st
  = (Finished, snd (tryFinally (handle submissionData) (leave key) st)).
Proof.
  cbn [alone resume fst snd]. unfold tryFinally, leave, set_processing, modify.
  destruct (handle submissionData st) as [r st1]. reflexivity.
Qed.

Lemma draining_alone queue (st : Service Env) :
  exists n, alone (S n) (Draining queue) st = (Finished, snd (drain queue st)).
Proof.
  revert st. induction queue as [|q rest IH]; intros st.
  - exists 0. reflexivity.
  - rewrite drain_in_pieces. unfold bind at 1.
    destruct (bool_decide (qc_id q ∈ processing st)) eqn:Hhas.
    + assert (E : claim q st = (Ok Skipped, st)).
      { unfold claim, bind, gets. now rewrite Hhas. }
      destruct (IH st) as (n & En). exists n.
      cbn [alone resume advance] in En |- *. rewrite E. exact En.
    + destruct (3 <=? qc_retryCount q) eqn:Hr.
      * assert (E : claim q st
                    = (Ok Abandoned, snd (storage_removeFromCommitQueue (qc_id q) st))).
        { unfold claim, bind, gets. rewrite Hhas, Hr. reflexivity. }
        destruct (IH (snd (storage_removeFromCommitQueue (qc_id q) st))) as (n & En).
        exists (S n). cbn [alone resume advance]. rewrite E. cbn [fst snd].
        exact En.
      * assert (E : claim q st
                    = (Ok Taken, snd (set_processing (fun p => p ∪ {[qc_id q]}) st))).
        { unfold claim, bind, gets. rewrite Hhas, Hr. reflexivity. }
        set (st1 := snd (set_processing (fun p => p ∪ {[qc_id q]}) st)) in *.
        rewrite E. unfold bind, tryFinally.
        destruct (attempt q st1) as [outcome st2] eqn:Ea.
        assert (El : leave (qc_id q) st2 = (Ok tt, snd (leave (qc_id q) st2)))
          by reflexivity.
        rewrite El. set (st3 := snd (leave (qc_id q) st2)) in *.
        destruct outcome as [[]|e].
        -- destruct (IH st3) as (n & En). exists (S (S (S n))).
           cbn [alone resume advance]. rewrite E. cbn [fst snd alone resume].
           rewrite Ea. cbn [fst snd alone resume]. rewrite El. cbn [fst snd].
           exact En.
        -- exists 2. cbn [alone resume advance]. rewrite E. cbn [fst snd alone resume].
           rewrite Ea. cbn [fst snd alone resume]. rewrite El. reflexivity.
Qed.

Lemma started_alone (st : Service Env) :
  exists n, alone (S n) Started st = (Finished, snd (processQueuedCommits st)).
Proof.
  assert (Eo : tryCatch open_queue (fun _ => ret None) st
               = match validateAuthentication st with
                 | (Ok true, st1) => (Ok (Some (local_queue st)), st1)
                 | (_, st1) => (Ok None, st1)
                 end).
  { unfold tryCatch, open_queue, bind, storage_getCommitQueue, gets.
    destruct (validateAuthentication st) as [[[]|e] st1]; reflexivity. }
  assert (Ep : snd (processQueuedCommits st)
               = match validateAuthentication st with
                 | (Ok true, st1) => snd (drain (local_queue st) st1)
                 | (_, st1) => st1
                 end).
  { unfold processQueuedCommits, tryCatch, bind, storage_getCommitQueue, gets.
    destruct (validateAuthentication st) as [[[]|e] st1]; try reflexivity.
    cbn [negb]. destruct (drain (local_queue st) st1) as [[[]|e] st2]; reflexivity. }
  cbn [alone resume]. rewrite Eo, Ep.
  destruct (validateAuthentication st) as [[[]|e] st1].
  - destruct (draining_alone (local_queue st) st1) as (n & En). exists n. exact En.
  - exists 0. reflexivity.
  - exists 0. reflexivity.
Qed.

(** *** What leaves the in-flight set alone *)

Lemma keeps_ret {A} (a : A) : @keeps_processing Env _ (ret a : M (Service Env) A).
Proof. intros st. reflexivity. Qed.

Lemma keeps_throw {A} (e : string) : @keeps_processing Env _ (throw e : M (Service Env) A).
Proof. intros st. reflexivity. Qed.

Lemma keeps_gets {A} (f : Service Env -> A) : @keeps_processing Env _ (gets f).
Proof. intros st. reflexivity. Qed.

Lemma keeps_liftHost {A} (m : M Env A) : @keeps_processing Env _ (liftHost m).
Proof. intros st. unfold liftHost. destruct (m (outside st)). reflexivity. Qed.

Lemma keeps_bind {A B} (m : M (Service Env) A) (k : A -> M (Service Env) B) :
  @keeps_processing Env _ m -> (forall a, @keeps_processing Env _ (k a)) -> @keeps_processing Env _ (bind m k).
Proof.
  intros Hm Hk st. unfold bind. specialize (Hm st).
  destruct (m st) as [[a|e] st1]; cbn [snd] in *; [|exact Hm].
  now rewrite Hk.
Qed.

Lemma keeps_tryCatch {A} (m : M (Service Env) A) (handler : string -> M (Service Env) A) :
  @keeps_processing Env _ m -> (forall e, @keeps_processing Env _ (handler e)) ->
  @keeps_processing Env _ (tryCatch m handler).
Proof.
  intros Hm Hh st. unfold tryCatch. specialize (Hm st).
  destruct (m st) as [[a|e] st1]; cbn [snd] in *; [exact Hm|].
  now rewrite Hh.
Qed.

Lemma keeps_set_queue q : @keeps_processing Env _ (set_queue q : M (Service Env) unit).
Proof. intros st. reflexivity. Qed.

Lemma keeps_set_processed p : @keeps_processing Env _ (set_processed p : M (Service Env) unit).
Proof. intros st. reflexivity. Qed.

Lemma keeps_processCommit queuedCommit : @keeps_processing Env _ (processCommit queuedCommit).
Proof.
  intros st. unfold processCommit.
  pose proof (keeps_liftHost (commitManager_processCommit queuedCommit) st) as Hl.
  destruct (liftHost _ st) as [[v|e] st1]; cbn [snd] in *; exact Hl.
Qed.

Ltac keeps_auto :=
  repeat first
    [ apply keeps_ret | apply keeps_throw | apply keeps_gets | apply keeps_liftHost
    | apply keeps_set_queue | apply keeps_set_processed | apply keeps_processCommit
    | apply keeps_bind; [|intros ?] | apply keeps_tryCatch; [|intros ?]
    | match goal with
      | |- keeps_processing (if ?b then _ else _) => destruct b
      end
    | progress cbv zeta ].

Lemma keeps_showNotification t m : @keeps_processing Env _ (showNotification t m).
Proof. unfold showNotification. keeps_auto. Qed.

Lemma keeps_open_options_page : @keeps_processing Env _ open_options_page.
Proof. unfold open_options_page. keeps_auto. Qed.

Lemma keeps_handleMissingAuth : @keeps_processing Env _ handleMissingAuth.
Proof.
  unfold handleMissingAuth, showAuthRequiredNotification.
  apply keeps_bind; [apply keeps_showNotification|]. intros _. apply keeps_open_options_page.
Qed.

Lemma keeps_handleInvalidToken e : @keeps_processing Env _ (handleInvalidToken e).
Proof.
  unfold handleInvalidToken. apply keeps_bind; [apply keeps_liftHost|]. intros _.
  apply keeps_bind; [apply keeps_showNotification|]. intros _. apply keeps_open_options_page.
Qed.

Lemma keeps_validateAuthentication : @keeps_processing Env _ validateAuthentication.
Proof.
  unfold validateAuthentication. apply keeps_tryCatch.
  - apply keeps_bind; [apply keeps_liftHost|]. intros a. destruct (negb a).
    + apply keeps_bind; [apply keeps_handleMissingAuth|]. intros _. apply keeps_ret.
    + apply keeps_bind; [apply keeps_liftHost|]. intros token. destruct (negb _).
      * apply keeps_bind; [apply keeps_handleMissingAuth|]. intros _. apply keeps_ret.
      * apply keeps_ret.
  - intros e. apply keeps_bind; [apply keeps_handleInvalidToken|]. intros _. apply keeps_ret.
Qed.

Lemma keeps_removeFromCommitQueue id : @keeps_processing Env _ (storage_removeFromCommitQueue id).
Proof. unfold storage_removeFromCommitQueue, storage_getCommitQueue. keeps_auto. Qed.

Lemma keeps_addToCommitQueue q : @keeps_processing Env _ (storage_addToCommitQueue q).
Proof. unfold storage_addToCommitQueue, storage_getCommitQueue. keeps_auto. Qed.

Lemma keeps_updateCommitInQueue id u : @keeps_processing Env _ (storage_updateCommitInQueue id u).
Proof. unfold storage_updateCommitInQueue, storage_getCommitQueue. keeps_auto. Qed.

Lemma keeps_markSubmissionProcessed s : @keeps_processing Env _ (markSubmissionProcessed s).
Proof.
  unfold markSubmissionProcessed, storage_markSubmissionProcessed,
    storage_getProcessedSubmissions. keeps_auto.
Qed.

Lemma keeps_isDuplicateSubmission s : @keeps_processing Env _ (isDuplicateSubmission s).
Proof. unfold isDuplicateSubmission, storage_getProcessedSubmissions. keeps_auto. Qed.

Lemma keeps_handle s : @keeps_processing Env _ (handle s).
Proof.
  unfold handle. apply keeps_tryCatch.
  - apply keeps_bind; [apply keeps_validateAuthentication|]. intros a.
    destruct (negb a); [apply keeps_ret|].
    apply keeps_bind; [apply keeps_liftHost|]. intros config.
    destruct (negb _); [apply keeps_throw|].
    apply keeps_bind.
    { destruct (set_skipDuplicates _); [apply keeps_isDuplicateSubmission | apply keeps_ret]. }
    intros d. destruct d; [apply keeps_ret|].
    apply keeps_bind.
    { unfold processSubmissionImmediately. keeps_auto. }
    intros _. apply keeps_bind; [apply keeps_markSubmissionProcessed|]. intros _.
    apply keeps_showNotification.
  - intros e. destruct (_ || _); [apply keeps_handleInvalidToken|].
    apply keeps_bind.
    { unfold queueSubmissionForRetry. keeps_auto. }
    intros _. apply keeps_showNotification.
Qed.

Lemma keeps_attempt q : @keeps_processing Env _ (attempt q).
Proof.
  unfold attempt. apply keeps_tryCatch.
  - apply keeps_bind; [apply keeps_processCommit|]. intros _.
    apply keeps_bind; [apply keeps_removeFromCommitQueue|]. intros _.
    apply keeps_markSubmissionProcessed.
  - intros e. apply keeps_updateCommitInQueue.
Qed.

Lemma keeps_open_queue : @keeps_processing Env _ (tryCatch open_queue (fun _ => ret None)).
Proof.
  unfold open_queue, storage_getCommitQueue. apply keeps_tryCatch; [|intros _; apply keeps_ret].
  apply keeps_bind; [apply keeps_gets|]. intros queue.
  apply keeps_bind; [apply keeps_validateAuthentication|]. intros a.
  destruct (negb a); apply keeps_ret.
Qed.

(** *** The pieces that touch it *)

Lemma enter_spec submissionData (st : Service Env) :
  let key := processingKey submissionData (fst (Date_now (outside st))) in
  ((key ∈ processing st)
   /\ fst (enter submissionData st) = Ok None
   /\ same_store st (snd (enter submissionData st)))
  \/ ((key ∉ processing st)
      /\ fst (enter submissionData st) = Ok (Some key)
      /\ processing (snd (enter submissionData st)) = processing st ∪ {[key]}).
Proof.
  unfold enter, bind, liftHost, total, gets, set_processing, modify, ret.
  destruct (Date_now (outside st)) as [now e1]. cbn [fst snd processing].
  destruct (bool_decide _) eqn:Hhas; cbn [fst snd processing].
  - left. apply bool_decide_eq_true in Hhas. repeat split; assumption.
  - right. apply bool_decide_eq_false in Hhas. repeat split; assumption.
Qed.

Lemma claim_in_flight queuedCommit (st : Service Env) :
  qc_id queuedCommit ∈ processing st -> claim queuedCommit st = (Ok Skipped, st).
Proof.
  intros Hin. unfold claim, bind, gets. now rewrite bool_decide_eq_true_2.
Qed.

Lemma claim_spec queuedCommit (st : Service Env) :
  (claim queuedCommit st = (Ok Skipped, st))
  \/ (fst (claim queuedCommit st) = Ok Abandoned
      /\ processing (snd (claim queuedCommit st)) = processing st)
  \/ (fst (claim queuedCommit st) = Ok Taken
      /\ (qc_id queuedCommit ∉ processing st)
      /\ processing (snd (claim queuedCommit st)) = processing st ∪ {[qc_id queuedCommit]}).
Proof.
  destruct (bool_decide (qc_id queuedCommit ∈ processing st)) eqn:Hhas.
  - left. unfold claim, bind, gets. now rewrite Hhas.
  - right. destruct (3 <=? qc_retryCount queuedCommit) eqn:Hr.
    + left.
      assert (E : claim queuedCommit st
                  = (Ok Abandoned,
                     snd (storage_removeFromCommitQueue (qc_id queuedCommit) st))).
      { unfold claim, bind, gets. rewrite Hhas, Hr. reflexivity. }
      rewrite E. split; [reflexivity | apply keeps_removeFromCommitQueue].
    + right.
      assert (E : claim queuedCommit st
                  = (Ok Taken,
                     snd (set_processing (fun p => p ∪ {[qc_id queuedCommit]}) st))).
      { unfold claim, bind, gets. rewrite Hhas, Hr. reflexivity. }
      rewrite E. apply bool_decide_eq_false in Hhas.
      split; [reflexivity|]. split; [exact Hhas | reflexivity].
Qed.

Lemma advance_spec queue (st : Service Env) :
  (holds (fst (advance queue st)) = None
   /\ processing (snd (advance queue st)) = processing st)
  \/ (exists key,
        holds (fst (advance queue st)) = Some key
        /\ (key ∉ processing st)
        /\ processing (snd (advance queue st)) = processing st ∪ {[key]}).
Proof.
  revert st. induction queue as [|q rest IH]; intros st; cbn [advance].
  - left. split; reflexivity.
  - destruct (claim_spec q st) as [E | [[E Hp] | (E & Hnin & Hp)]].
    + rewrite E. apply IH.
    + destruct (claim q st) as [[v|e] st1]; cbn [fst snd] in *; [|discriminate].
      injection E as ->. left. split; [reflexivity | exact Hp].
    + destruct (claim q st) as [[v|e] st1]; cbn [fst snd] in *; [|discriminate].
      injection E as ->. right. exists (qc_id q). repeat split; assumption.
Qed.

(** A task that goes on @keeps_processing Env _ what it holds, or lets go of it, or takes
    a key that was not in the set. *)
Lemma resume_spec t (st : Service Env) :
  (holds (fst (resume t st)) = holds t
   /\ processing (snd (resume t st)) = processing st)
  \/ (exists key,
        holds t = Some key /\ holds (fst (resume t st)) = None
        /\ processing (snd (resume t st)) = processing st ∖ {[key]})
  \/ (exists key,
        holds t = None /\ holds (fst (resume t st)) = Some key
        /\ (key ∉ processing st)
        /\ processing (snd (resume t st)) = processing st ∪ {[key]}).
Proof.
  destruct t as [key s | key | | queue | q rest | q outcome rest | ]; cbn [resume holds].
  - left. split; [reflexivity | apply keeps_handle].
  - right. left. exists key. repeat split; reflexivity.
  - pose proof (keeps_open_queue st) as Hk.
    destruct (tryCatch open_queue _ st) as [[[queue|]|e] st1]; cbn [fst snd] in *.
    + destruct (advance_spec queue st1) as [[Hh Hp] | (key & Hh & Hnin & Hp)].
      * left. split; [exact Hh | now rewrite Hp].
      * right. right. exists key. rewrite <- Hk. repeat split; assumption.
    + left. split; [reflexivity | exact Hk].
    + left. split; [reflexivity | exact Hk].
  - destruct (advance_spec queue st) as [[Hh Hp] | (key & Hh & Hnin & Hp)].
    + left. split; assumption.
    + right. right. exists key. repeat split; assumption.
  - pose proof (keeps_attempt q st) as Hk.
    destruct (attempt q st) as [outcome st1]. left. split; [reflexivity | exact Hk].
  - right. left. exists (qc_id q). unfold leave, set_processing, modify.
    destruct outcome; repeat split; reflexivity.
  - left. split; reflexivity.
Qed.

(** *** The invariant *)

Lemma invariant_react (c : Service Env * list Task) ev :
  exclusive (snd c) /\ registered (fst c) (snd c) ->
  exclusive (snd (react c ev)) /\ registered (fst (react c ev)) (snd (react c ev)).
Proof.
  destruct c as [st tasks]. cbn [fst snd]. intros [Hex Hreg].
  unfold exclusive, registered in *.
  destruct ev as [s | | i]; cbn [react fst snd].
  - destruct (enter_spec s st) as [(Hin & E & Hs) | (Hnin & E & Hp)].
    + destruct (enter s st) as [[k|e] st1]; cbn [fst snd] in *; [|discriminate].
      injection E as ->. cbn [fst snd]. destruct Hs as (Hp & _). split; [exact Hex|].
      intros i t key Hi Hh. rewrite Hp. now apply (Hreg i t).
    + destruct (enter s st) as [[k|e] st1]; cbn [fst snd] in *; [|discriminate].
      injection E as ->. cbn [fst snd]. set (key := processingKey s _) in *. split.
      * intros i j ti tj k Hi Hj Hhi Hhj.
        apply lookup_app_Some in Hi as [Hi | [Hli Hi]];
          apply lookup_app_Some in Hj as [Hj | [Hlj Hj]].
        -- now apply (Hex i j ti tj k).
        -- apply list_lookup_singleton_Some in Hj as [_ <-]. cbn [holds] in Hhj.
           injection Hhj as <-. exfalso. apply Hnin. now apply (Hreg i ti).
        -- apply list_lookup_singleton_Some in Hi as [_ <-]. cbn [holds] in Hhi.
           injection Hhi as <-. exfalso. apply Hnin. now apply (Hreg j tj).
        -- apply list_lookup_singleton_Some in Hi as [Hi _].
           apply list_lookup_singleton_Some in Hj as [Hj _]. lia.
      * intros i t k Hi Hh. rewrite Hp. apply elem_of_union.
        apply lookup_app_Some in Hi as [Hi | [_ Hi]].
        -- left. now apply (Hreg i t).
        -- apply list_lookup_singleton_Some in Hi as [_ <-]. cbn [holds] in Hh.
           injection Hh as <-. right. now apply elem_of_singleton.
  - split.
    + intros i j ti tj k Hi Hj Hhi Hhj.
      apply lookup_app_Some in Hi as [Hi | [_ Hi]].
      2: { apply list_lookup_singleton_Some in Hi as [_ <-]. discriminate. }
      apply lookup_app_Some in Hj as [Hj | [_ Hj]].
      2: { apply list_lookup_singleton_Some in Hj as [_ <-]. discriminate. }
      now apply (Hex i j ti tj k).
    + intros i t k Hi Hh.
      apply lookup_app_Some in Hi as [Hi | [_ Hi]]; [now apply (Hreg i t)|].
      apply list_lookup_singleton_Some in Hi as [_ <-]. discriminate.
  - destruct (tasks !! i) as [t|] eqn:Ht; cbn [fst snd]; [|split; assumption].
    destruct (resume_spec t st) as [[Hh Hp] | [(key & Hh & Hh' & Hp) | (key & Hh & Hh' & Hnin & Hp)]].
    + split.
      * intros a b ta tb k Ha Hb Hha Hhb.
        apply list_lookup_insert_Some in Ha as [(<- & <- & _) | [Hne Ha]];
          apply list_lookup_insert_Some in Hb as [(<- & <- & _) | [Hne' Hb]].
        -- reflexivity.
        -- rewrite Hh in Hha. now apply (Hex i b t tb k).
        -- rewrite Hh in Hhb. now apply (Hex a i ta t k).
        -- now apply (Hex a b ta tb k).
      * intros a ta k Ha Hha. rewrite Hp.
        apply list_lookup_insert_Some in Ha as [(<- & <- & _) | [Hne Ha]].
        -- rewrite Hh in Hha. now apply (Hreg i t).
        -- now apply (Hreg a ta).
    + split.
      * intros a b ta tb k Ha Hb Hha Hhb.
        apply list_lookup_insert_Some in Ha as [(<- & <- & _) | [Hne Ha]].
        { rewrite Hh' in Hha. discriminate. }
        apply list_lookup_insert_Some in Hb as [(<- & <- & _) | [Hne' Hb]].
        { rewrite Hh' in Hhb. discriminate. }
        now apply (Hex a b ta tb k).
      * intros a ta k Ha Hha. rewrite Hp.
        apply list_lookup_insert_Some in Ha as [(<- & <- & _) | [Hne Ha]].
        { rewrite Hh' in Hha. discriminate. }
        apply elem_of_difference. split; [now apply (Hreg a ta)|].
        intros Hk. apply elem_of_singleton in Hk as ->.
        apply Hne. now apply (Hex i a t ta key).
    + split.
      * intros a b ta tb k Ha Hb Hha Hhb.
        apply list_lookup_insert_Some in Ha as [(<- & <- & _) | [Hne Ha]];
          apply list_lookup_insert_Some in Hb as [(<- & <- & _) | [Hne' Hb]].
        -- reflexivity.
        -- rewrite Hh' in Hha. injection Hha as <-. exfalso. apply Hnin.
           now apply (Hreg b tb).
        -- rewrite Hh' in Hhb. injection Hhb as <-. exfalso. apply Hnin.
           now apply (Hreg a ta).
        -- now apply (Hex a b ta tb k).
      * intros a ta k Ha Hha. rewrite Hp. apply elem_of_union.
        apply list_lookup_insert_Some in Ha as [(<- & <- & _) | [Hne Ha]].
        -- rewrite Hh' in Hha. injection Hha as <-. right. now apply elem_of_singleton.
        -- left. now apply (Hreg a ta).
Qed.

Lemma invariant_fold events (c : Service Env * list Task) :
  exclusive (snd c) /\ registered (fst c) (snd c) ->
  exclusive (snd (fold_left react events c))
  /\ registered (fst (fold_left react events c)) (snd (fold_left react events c)).
Proof.
  revert c. induction events as [|ev events IH]; intros c Hc; cbn [fold_left]; [exact Hc|].
  apply IH. now apply invariant_react.
Qed.

Lemma invariant_play events (st0 : Service Env) :
  exclusive (snd (play events st0))
  /\ registered (fst (play events st0)) (snd (play events st0)).
Proof.
  apply invariant_fold. cbn [fst snd]. split.
  - intros i j ti tj key Hi. discriminate.
  - intros i t key Hi. discriminate.
Qed.

(** With the key in the set, a report of a submission that gets the same
    key returns at once. *)
Lemma handleSubmissionAccepted_in_flight submissionData (st : Service Env) :
  processingKey submissionData (fst (Date_now (outside st))) ∈ processing st ->
  exists st',
    handleSubmissionAccepted submissionData st = (Ok tt, st') /\ same_store st st'.
Proof.
  intros Hin. rewrite handleSubmissionAccepted_in_pieces. unfold bind.
  destruct (enter_spec submissionData st) as [(_ & E & Hs) | (Hnin & _)]; [|contradiction].
  destruct (enter submissionData st) as [[k|e] st1]; cbn [fst snd] in *; [|discriminate].
  injection E as ->. exists st1. split; [reflexivity | exact Hs].
Qed.

Lemma drain_in_flight queuedCommit rest (st : Service Env) :
  qc_id queuedCommit ∈ processing st ->
  drain (queuedCommit :: rest) st = drain rest st.
Proof.
  intros Hin. rewrite drain_in_pieces. unfold bind.
  now rewrite (claim_in_flight _ _ Hin).
Qed.

End InFlight.

(** C9.  However the tasks of the service interleave, two tasks never hold
    the same identifier: between its [processing.add] and its [finally], a
    task is the only one under its key.  While it is, a pass over the queue
    that comes to an item with that identifier goes over it, and a report
    of a submission that is given that key returns at once; both leave the
    queue, the processed list and the record of attempts as they are. *)
Theorem in_flight_key_held_by_one_task :
  forall (Env : Type) (host : ServiceHost Env) (events : list EventLoop.Event)
         (st0 : Background.Service Env) (i : nat) (t : EventLoop.Task) (key : string),
    snd (EventLoop.play events st0) !! i = Some t ->
    EventLoop.holds t = Some key ->
    (forall j tj,
        snd (EventLoop.play events st0) !! j = Some tj ->
        EventLoop.holds tj = Some key -> j = i)
    /\ (forall queuedCommit rest,
          qc_id queuedCommit = key ->
          Background.drain (queuedCommit :: rest) (fst (EventLoop.play events st0))
          = Background.drain rest (fst (EventLoop.play events st0)))
    /\ (forall submissionData,
          EventLoop.processingKey submissionData
            (fst (Date_now (Background.outside (fst (EventLoop.play events st0))))) = key ->
          exists st',
            Background.handleSubmissionAccepted submissionData (fst (EventLoop.play events st0))
            = (Ok tt, st')
            /\ Background.same_store (fst (EventLoop.play events st0)) st').
Proof.
  intros Env host events st0 i t key Hi Hh.
  destruct (invariant_play events st0) as [Hex Hreg].
  assert (Hin : key ∈ Background.processing (fst (EventLoop.play events st0)))
    by now apply (Hreg i t).
  split; [|split].
  - intros j tj Hj Hhj. now apply (Hex j i tj t key).
  - intros q rest <-. now apply drain_in_flight.
  - intros s Hk. apply handleSubmissionAccepted_in_flight. now rewrite Hk.
Qed.

Lemma in_flight_key_held_by_one_task_witness :
  (forall j tj,
      snd (@EventLoop.play _ Paused.host Paused.twice Paused.start) !! j = Some tj ->
      EventLoop.holds tj = Some "two-sum-Python3-1700000000000" -> j = 0)
  /\ exists st',
      @Background.handleSubmissionAccepted _ Paused.host Plain.two_sum
        (fst (@EventLoop.play _ Paused.host Paused.twice Paused.start))
      = (Ok tt, st').
Proof.
  destruct (in_flight_key_held_by_one_task Plain.Env Paused.host Paused.twice Paused.start 0
              (EventLoop.Handling "two-sum-Python3-1700000000000" Plain.two_sum)
              "two-sum-Python3-1700000000000")
    as (Hone & _ & Hreport).
  - vm_compute. reflexivity.
  - reflexivity.
  - split; [exact Hone|].
    destruct (Hreport Plain.two_sum) as (st' & E & _).
    + vm_compute. reflexivity.
    + exists st'. exact E.
Defined.

(** A millisecond later the same submission gets another key: with the
    clock of the example host, which moves at every reading, two reports of
    one submission are both taken up. *)
Example reports_a_millisecond_apart_are_both_handled :
  EventLoop.holds
    <$> snd (EventLoop.play [ EventLoop.SubmissionAccepted Plain.two_sum;
                              EventLoop.SubmissionAccepted Plain.two_sum ] Paused.start)
  = [ Some "two-sum-Python3-1700000000000"; Some "two-sum-Python3-1700000000001" ].
Proof. vm_compute. reflexivity. Qed.

(** * Further properties *)

(** ** Strings *)

Lemma every_append test (a b : string) :
  every test (a +:+ b) = every test a && every test b.
Proof.
  induction a as [|c a IH]; [reflexivity|].
  change (every test (String c (a +:+ b)) = every test (String c a) && every test b).
  cbn [every]. rewrite IH. now rewrite andb_assoc.
Qed.

Lemma every_impl (P Q : ascii -> bool) (s : string) :
  (forall c, P c = true -> Q c = true) -> every P s = true -> every Q s = true.
Proof.
  intros HPQ. induction s as [|c s IH]; [reflexivity|]. cbn [every].
  intros Hs. apply andb_true_iff in Hs as [Hc Hs]. rewrite (HPQ c Hc). now apply IH.
Qed.

Lemma length_append (a b : string) :
  String.length (a +:+ b) = String.length a + String.length b.
Proof.
  induction a as [|c a IH]; [reflexivity|].
  change (S (String.length (a +:+ b)) = S (String.length a + String.length b)).
  now rewrite IH.
Qed.

(** ** Template engine: what the sanitising replacements leave *)

Lemma replaceClass_clean cls r (s : string) :
  every (fun c => negb (cls c)) r = true ->
  every (fun c => negb (cls c)) (JS.replaceClass cls r s) = true.
Proof.
  intros Hr. induction s as [|c s IH]; [reflexivity|]. cbn [JS.replaceClass].
  destruct (cls c) eqn:Hc.
  - rewrite every_append, Hr. exact IH.
  - cbn [every]. now rewrite Hc, IH.
Qed.

Lemma replaceRuns_from_clean (Q cls : ascii -> bool) r inrun (s : string) :
  every (fun c => Q c && negb (cls c)) r = true ->
  every Q s = true ->
  every (fun c => Q c && negb (cls c)) (JS.replaceRuns_from cls r inrun s) = true.
Proof.
  intros Hr. revert inrun. induction s as [|c s IH]; intros inrun; [reflexivity|].
  cbn [JS.replaceRuns_from every]. intros Hs. apply andb_true_iff in Hs as [Hc Hs].
  destruct (cls c) eqn:Hcls.
  - destruct inrun; [now apply IH|]. rewrite every_append, Hr. now apply IH.
  - cbn [every]. rewrite Hc, Hcls. now apply IH.
Qed.

Lemma replaceRuns_from_absent cls r inrun (s : string) :
  every (fun c => negb (cls c)) s = true ->
  JS.replaceRuns_from cls r inrun s = s.
Proof.
  revert inrun. induction s as [|c s IH]; intros inrun; [reflexivity|].
  cbn [JS.replaceRuns_from every]. intros Hs. apply andb_true_iff in Hs as [Hc Hs].
  apply negb_true_iff in Hc. rewrite Hc. now rewrite IH.
Qed.

Lemma toLowerCase_every (P Q : ascii -> bool) (s : string) :
  (forall c, P c = true -> Q (JS.lower_char c) = true) ->
  every P s = true -> every Q (JS.toLowerCase s) = true.
Proof.
  intros HPQ. induction s as [|c s IH]; [reflexivity|]. cbn [JS.toLowerCase every].
  intros Hs. apply andb_true_iff in Hs as [Hc Hs]. rewrite (HPQ c Hc). now apply IH.
Qed.

Lemma lower_char_clean (c : ascii) :
  negb (TemplateEngine.path_illegal c) && negb (JS.is_space c) = true ->
  negb (TemplateEngine.path_illegal (JS.lower_char c))
  && negb (JS.is_space (JS.lower_char c))
  && negb (JS.is_upper (JS.lower_char c)) = true.
Proof.
  destruct c as [[] [] [] [] [] [] [] []]; vm_compute; intros Hc;
    first [reflexivity | discriminate Hc].
Qed.

(** X1.  Whatever the name, [sanitizeFilename] returns a string without
    any of the characters of the class ([path_illegal]), without white
    space and without upper-case letters. *)
Theorem sanitizeFilename_clean :
  forall filename : string,
    every (fun c => negb (TemplateEngine.path_illegal c)
                    && negb (JS.is_space c)
                    && negb (JS.is_upper c))
      (TemplateEngine.sanitizeFilename filename) = true.
Proof.
  intros filename. unfold TemplateEngine.sanitizeFilename.
  apply (toLowerCase_every
           (fun c => negb (TemplateEngine.path_illegal c) && negb (JS.is_space c))).
  - exact lower_char_clean.
  - apply (replaceRuns_from_clean (fun c => negb (TemplateEngine.path_illegal c))).
    + reflexivity.
    + now apply replaceClass_clean.
Qed.

(** X2.  Whatever the layout and the variables, the folder path has none of
    the characters of the class, the slash among them: the second
    replacement, of runs of slashes, finds nothing to do, and the path is
    one segment. *)
Theorem generateFolderPath_one_segment :
  forall (folderTemplate : string) (variables : TemplateEngine.TemplateVariables),
    TemplateEngine.generateFolderPath folderTemplate variables
    = JS.replaceClass TemplateEngine.path_illegal "-"
        (TemplateEngine.render folderTemplate variables)
    /\ every (fun c => negb (TemplateEngine.path_illegal c))
         (TemplateEngine.generateFolderPath folderTemplate variables) = true
    /\ every (fun c => negb (TemplateEngine.is_slash c))
         (TemplateEngine.generateFolderPath folderTemplate variables) = true.
Proof.
  intros folderTemplate variables.
  assert (Hclean : every (fun c => negb (TemplateEngine.path_illegal c))
                     (JS.replaceClass TemplateEngine.path_illegal "-"
                        (TemplateEngine.render folderTemplate variables)) = true)
    by now apply replaceClass_clean.
  assert (Hslash : every (fun c => negb (TemplateEngine.is_slash c))
                     (JS.replaceClass TemplateEngine.path_illegal "-"
                        (TemplateEngine.render folderTemplate variables)) = true).
  { revert Hclean. apply every_impl. intros c Hc.
    unfold TemplateEngine.path_illegal, TemplateEngine.is_slash in *.
    destruct (nat_of_ascii c =? 47); [|reflexivity].
    rewrite !orb_true_r in Hc. cbn in Hc. rewrite ?orb_true_r in Hc. discriminate Hc. }
  assert (E : TemplateEngine.generateFolderPath folderTemplate variables
              = JS.replaceClass TemplateEngine.path_illegal "-"
                  (TemplateEngine.render folderTemplate variables)).
  { unfold TemplateEngine.generateFolderPath, JS.replaceRuns.
    now apply replaceRuns_from_absent. }
  rewrite E. auto.
Qed.

(** ** Template engine: rendering *)

Lemma includes_cons (c : ascii) (s p : string) :
  JS.includes (String c s) p = false ->
  JS.startsWith p (String c s) = false /\ JS.includes s p = false.
Proof.
  cbn [JS.includes]. intros Hi. now apply orb_false_iff in Hi.
Qed.

Lemma startsWith_append (p q s : string) :
  JS.startsWith (p +:+ q) s = true -> JS.startsWith p s = true.
Proof.
  revert s. induction p as [|a p IH]; intros s; [reflexivity|].
  change (JS.startsWith (String a (p +:+ q)) s = true -> JS.startsWith (String a p) s = true).
  destruct s as [|b s]; cbn [JS.startsWith]; [discriminate|].
  destruct (Ascii.eqb a b); [apply IH | discriminate].
Qed.

(** A pattern that opens with something the text does not contain is not
    found: the text comes back as it is. *)
Lemma replaceAll_from_absent (p q repl whole : string) pos (s : string) :
  JS.includes s p = false ->
  JS.replaceAll_from (p +:+ q) repl whole pos 0 s = s.
Proof.
  revert pos. induction s as [|c s IH]; intros pos Hi; [reflexivity|].
  apply includes_cons in Hi as [Hs Hi]. cbn [JS.replaceAll_from].
  destruct (JS.startsWith (p +:+ q) (String c s)) eqn:E.
  - apply startsWith_append in E. congruence.
  - now rewrite IH.
Qed.

(** X3.  A template without an opening pair of braces is rendered as it
    is, whatever the variables hold. *)
Theorem render_without_placeholder :
  forall (template : string) (variables : TemplateEngine.TemplateVariables),
    JS.includes template "{{" = false ->
    TemplateEngine.render template variables = template.
Proof.
  intros template variables Hi. unfold TemplateEngine.render.
  assert (Hstep : forall kv : string * string,
             JS.replaceAll ("{{" +:+ fst kv +:+ "}}") (snd kv) template = template).
  { intros kv. unfold JS.replaceAll.
    exact (replaceAll_from_absent "{{" (fst kv +:+ "}}") (snd kv) template 0 template Hi). }
  generalize (TemplateEngine.entries variables). intros l.
  induction l as [|kv l IH]; [reflexivity|]. cbn [fold_left].
  rewrite Hstep. exact IH.
Qed.

Lemma render_without_placeholder_witness :
  TemplateEngine.render "solutions" RemoteService.two_sum_variables = "solutions".
Proof.
  apply (render_without_placeholder "solutions" RemoteService.two_sum_variables).
  reflexivity.
Defined.

Lemma length_zeros (n : nat) : String.length (JS.zeros n) = n.
Proof. induction n as [|n IH]; [reflexivity|]. cbn [JS.zeros String.length]. now rewrite IH. Qed.

(** X4.  [getVariables] throws exactly when the timestamp of the
    submission does not convert, with the error of the conversion.
    Otherwise the id it returns is the id of the submission behind as many
    zeros as it takes to reach four characters, the slug is sanitised, and
    the language and the difficulty are in lower case. *)
Theorem getVariables_pads_id :
  forall (toISOString : string -> Res string) (submission : LeetCodeSubmission),
    match toISOString (sub_timestamp submission) with
    | Throw e => TemplateEngine.getVariables toISOString submission = Throw e
    | Ok iso =>
        exists v,
          TemplateEngine.getVariables toISOString submission = Ok v
          /\ TemplateEngine.id v
             = JS.zeros (4 - String.length (sub_id submission)) +:+ sub_id submission
          /\ String.length (TemplateEngine.id v)
             = Nat.max 4 (String.length (sub_id submission))
          /\ TemplateEngine.timestamp v = iso
          /\ TemplateEngine.slug v = TemplateEngine.sanitizeFilename (sub_titleSlug submission)
    end.
Proof.
  intros toISOString submission. unfold TemplateEngine.getVariables.
  destruct (toISOString (sub_timestamp submission)) as [iso|e]; [|reflexivity].
  eexists. split; [reflexivity|]. cbn [TemplateEngine.id TemplateEngine.timestamp
                                       TemplateEngine.slug].
  unfold JS.padStart0. split; [reflexivity|]. split; [|split; reflexivity].
  rewrite length_append, length_zeros. lia.
Qed.

(** ** GitHub REST client: requests that fail *)

Lemma includes_here (p rest : string) : JS.startsWith p (p +:+ rest) = true.
Proof.
  induction p as [|a p IH]; [reflexivity|].
  change (JS.startsWith (String a p) (String a (p +:+ rest)) = true).
  cbn [JS.startsWith]. now rewrite Ascii.eqb_refl.
Qed.

Lemma includes_startsWith (s p : string) : JS.startsWith p s = true -> JS.includes s p = true.
Proof. intros Hs. destruct s; cbn [JS.includes]; now rewrite Hs. Qed.

Lemma includes_append_r (a b p : string) :
  JS.includes b p = true -> JS.includes (a +:+ b) p = true.
Proof.
  intros Hb. induction a as [|c a IH]; [exact Hb|].
  change (JS.includes (String c (a +:+ b)) p = true).
  cbn [JS.includes]. rewrite IH. apply orb_true_r.
Qed.

Lemma api_error_message_404 (errorBody : string) :
  JS.includes (GitHubAPI.api_error_message 404 errorBody) "404" = true.
Proof.
  unfold GitHubAPI.api_error_message.
  apply includes_append_r. apply includes_startsWith.
  change (show_nat 404) with "404".
  exact (includes_here "404" ("): " +:+ errorBody)).
Qed.

Section FailedRequests.
Context {Env Body : Type} `{Host Env Body}.



End FailedRequests.



(** X6.  A response that is not a success is turned into an error by its
    status alone.  On 401 the stored token is dropped through
    [forceTokenRefresh] and the error names the bad credentials; on every
    other status, 403 with any body included, the error is the generic one
    that carries the status and the raw text of the body. *)
Theorem failed_response_is_classified_by_status :
  forall (Env Body : Type) (H : Host Env Body) (T : Type) (json : Body -> Res T)
         endpoint method payload (w w1 w2 : Net Env) token (rsp : Response Body),
    GitHubAPI.getAuthHeaders w = (Ok token, w1) ->
    GitHubAPI.send (mkRequest (GitHubAPI.baseURL +:+ endpoint) method token payload) w1
    = (Ok rsp, w2) ->
    response_ok rsp = false ->
    GitHubAPI.makeRequest json endpoint method payload w
    = if status rsp =? 401 then
        match liftEnv storage_forceTokenRefresh w2 with
        | (Ok _, w3) => (Throw (GitHubAPI.bad_credentials_message 401), w3)
        | (Throw e, w3) => (Throw e, w3)
        end
      else (Throw (GitHubAPI.api_error_message (status rsp) (response_text (body rsp))), w2).
Proof.
  intros Env Body H T json endpoint method payload w w1 w2 token rsp Hauth Hsend Hok.
  destruct (Nat.eqb_spec (status rsp) 401) as [H401|H401].
  - now apply (makeRequest_401 json endpoint method payload w w1 w2 token rsp).
  - destruct (Nat.eq_dec (status rsp) 403) as [H403|H403].
    + rewrite H403.
      now apply (makeRequest_403 json endpoint method payload w w1 w2 token rsp).
    + now apply (makeRequest_other_failure json endpoint method payload w w1 w2 token rsp).
Qed.

Lemma failed_response_is_classified_by_status_witness :
  fst (GitHubAPI.makeRequest payload_file "/repos/octocat/leetcode" GET None
         (Scripted.start "ghp_token" [mkResponse 500 (PText "oops")]))
  = Throw "GitHub API error (500): oops".
Proof.
  rewrite (failed_response_is_classified_by_status Scripted.Env Payload Scripted.host
             GitHubFile payload_file "/repos/octocat/leetcode" GET None
             (Scripted.start "ghp_token" [mkResponse 500 (PText "oops")])
             (Scripted.start "ghp_token" [mkResponse 500 (PText "oops")])
             (mkNet [mkRequest "https://api.github.com/repos/octocat/leetcode" GET
                       "ghp_token" None]
                (Scripted.mkEnv [] (config_with_token "ghp_token") 0))
             "ghp_token" (mkResponse 500 (PText "oops")) eq_refl eq_refl eq_refl).
  reflexivity.
Defined.

(** A failing status other than 401 gives the generic error. *)
Lemma makeRequest_failure_not_401 :
  forall (Env Body : Type) (H : Host Env Body) (T : Type) (json : Body -> Res T)
         endpoint method payload (w w1 w2 : Net Env) token (rsp : Response Body),
    GitHubAPI.getAuthHeaders w = (Ok token, w1) ->
    GitHubAPI.send (mkRequest (GitHubAPI.baseURL +:+ endpoint) method token payload) w1
    = (Ok rsp, w2) ->
    response_ok rsp = false ->
    status rsp <> 401 ->
    GitHubAPI.makeRequest json endpoint method payload w
    = (Throw (GitHubAPI.api_error_message (status rsp) (response_text (body rsp))), w2).
Proof.
  intros Env Body H T json endpoint method payload w w1 w2 token rsp Hauth Hsend Hok H401.
  destruct (Nat.eq_dec (status rsp) 403) as [H403|H403].
  - rewrite H403.
    now apply (makeRequest_403 json endpoint method payload w w1 w2 token rsp).
  - now apply (makeRequest_other_failure json endpoint method payload w w1 w2 token rsp).
Qed.

(** X7.  [getFile] reads an error as the absence of the file when its
    message contains 404, and passes every other error on.  So a 404
    response gives [null] whatever its body; and a response with another
    failing status, 401 apart, gives [null] when the status or the body
    happens to contain 404, and the generic error otherwise. *)
Theorem getFile_absent_on_404 :
  forall (Env Body : Type) (H : Host Env Body) owner repo path branch
         (w w1 w2 : Net Env) token (rsp : Response Body),
    GitHubAPI.getAuthHeaders w = (Ok token, w1) ->
    GitHubAPI.send (mkRequest (GitHubAPI.read_url owner repo path branch) GET token None) w1
    = (Ok rsp, w2) ->
    response_ok rsp = false ->
    status rsp <> 401 ->
    GitHubAPI.getFile owner repo path branch w
    = (if JS.includes
            (GitHubAPI.api_error_message (status rsp) (response_text (body rsp))) "404"
       then Ok None
       else Throw (GitHubAPI.api_error_message (status rsp) (response_text (body rsp))),
       w2)
    /\ (status rsp = 404 -> GitHubAPI.getFile owner repo path branch w = (Ok None, w2)).
Proof.
  intros Env Body H owner repo path branch w w1 w2 token rsp Hauth Hsend Hok H401.
  assert (E : GitHubAPI.getFile owner repo path branch w
              = (if JS.includes
                      (GitHubAPI.api_error_message (status rsp) (response_text (body rsp)))
                      "404"
                 then Ok None
                 else Throw (GitHubAPI.api_error_message (status rsp)
                               (response_text (body rsp))),
                 w2)).
  { unfold GitHubAPI.getFile, tryCatch, GitHubAPI.read_url in *. cbv zeta.
    erewrite bind_throw.
    2: { apply (makeRequest_failure_not_401 Env Body H GitHubFile
                  response_json_file _ GET None w w1 w2 token rsp Hauth Hsend Hok H401). }
    destruct (JS.includes _ "404"); reflexivity. }
  split; [exact E|]. intros H404. rewrite E, H404. now rewrite api_error_message_404.
Qed.

Lemma getFile_absent_on_404_witness :
  GitHubAPI.getFile "octocat" "leetcode" "README.md" "main"
    (Scripted.start "ghp_token" [mkResponse 500 (PText "upstream answered 404")])
  = (Ok None,
     mkNet [mkRequest (GitHubAPI.read_url "octocat" "leetcode" "README.md" "main") GET
              "ghp_token" None]
       (Scripted.mkEnv [] (config_with_token "ghp_token") 0)).
Proof.
  rewrite (proj1 (getFile_absent_on_404 Scripted.Env Payload Scripted.host
             "octocat" "leetcode" "README.md" "main"
             (Scripted.start "ghp_token" [mkResponse 500 (PText "upstream answered 404")])
             (Scripted.start "ghp_token" [mkResponse 500 (PText "upstream answered 404")])
             (mkNet [mkRequest (GitHubAPI.read_url "octocat" "leetcode" "README.md" "main")
                       GET "ghp_token" None]
                (Scripted.mkEnv [] (config_with_token "ghp_token") 0))
             "ghp_token" (mkResponse 500 (PText "upstream answered 404"))
             eq_refl eq_refl eq_refl ltac:(discriminate))).
  reflexivity.
Defined.

(** ** GitHub REST client: batches and access tests *)

Section Batches.
Context {Env Body : Type} `{Host Env Body}.



End Batches.






(** ** Commit manager: what stops a commit *)

Section CommitStops.
Context {Env Body : Type} `{Host Env Body} `{CommitHost Env}.
Variable update : string -> string -> string -> string -> M (Net Env) string.



Lemma writeFiles_stops owner repo branch folderPath commitMessage file rest
      (w : Net Env) e w' :
  GitHubAPI.createOrUpdateFile owner repo (folderPath +:+ "/" +:+ cf_name file)
    (cf_content file) commitMessage branch w = (Throw e, w') ->
  CommitManager.writeFiles owner repo branch folderPath commitMessage (file :: rest) w
  = (Throw e, w').
Proof.
  intros E. cbn [CommitManager.writeFiles]. unfold bind, tryCatch. now rewrite E.
Qed.



Lemma processCommit_write_fails queuedCommit (w : Net Env) config github variables
      problemDetails files w1 w2 w3 e w4 :
  liftEnv storage_getDecryptedConfig w = (Ok config, w1) ->
  cfg_github config = Some github ->
  TemplateEngine.getVariables Date_toISOString (qc_submission queuedCommit) = Ok variables ->
  CommitManager.getProblemDetails (sub_titleSlug (qc_submission queuedCommit)) w1
  = (Ok problemDetails, w2) ->
  CommitManager.generateFiles (qc_submission queuedCommit) problemDetails w2
  = (Ok files, w3) ->
  JS.truthy (gh_repository github) = true ->
  CommitManager.writeFiles (gh_username github) (gh_repository github) (gh_branch github)
    (TemplateEngine.generateFolderPath (tpl_folderLayout (cfg_templates config)) variables)
    (TemplateEngine.generateCommitMessage (tpl_commitMessage (cfg_templates config))
       variables)
    files w3 = (Throw e, w4) ->
  CommitManager.processCommit update queuedCommit w = (Throw e, w4).
Proof.
  intros Hc Hg Hv Hp Hf Hr Hw. unfold CommitManager.processCommit.
  rewrite (bind_ok _ _ _ _ _ Hc), Hg, Hv. cbn [of_res].
  unfold bind at 1, ret at 1.
  rewrite (bind_ok _ _ _ _ _ Hp), (bind_ok _ _ _ _ _ Hf), Hr. cbn [negb].
  now rewrite (bind_throw _ _ _ _ _ Hw).
Qed.

End CommitStops.



(** X11.  A write of a file of the submission that throws ends the commit:
    the loop over the files stops at that file with its error, [processCommit]
    throws the same error from the state the write left, and the aggregate
    README is not touched. *)
Theorem processCommit_reports_failed_write :
  forall (Env Body : Type) (H : Host Env Body) (C : CommitHost Env)
         (update : string -> string -> string -> string -> M (Net Env) string),
    (forall owner repo branch folderPath commitMessage file rest (w : Net Env) e w',
        GitHubAPI.createOrUpdateFile owner repo (folderPath +:+ "/" +:+ cf_name file)
          (cf_content file) commitMessage branch w = (Throw e, w') ->
        CommitManager.writeFiles owner repo branch folderPath commitMessage (file :: rest) w
        = (Throw e, w'))
    /\ (forall queuedCommit (w : Net Env) config github variables problemDetails files
               w1 w2 w3 e w4,
          liftEnv storage_getDecryptedConfig w = (Ok config, w1) ->
          cfg_github config = Some github ->
          TemplateEngine.getVariables Date_toISOString (qc_submission queuedCommit)
          = Ok variables ->
          CommitManager.getProblemDetails (sub_titleSlug (qc_submission queuedCommit)) w1
          = (Ok problemDetails, w2) ->
          CommitManager.generateFiles (qc_submission queuedCommit) problemDetails w2
          = (Ok files, w3) ->
          JS.truthy (gh_repository github) = true ->
          CommitManager.writeFiles (gh_username github) (gh_repository github)
            (gh_branch github)
            (TemplateEngine.generateFolderPath (tpl_folderLayout (cfg_templates config))
               variables)
            (TemplateEngine.generateCommitMessage (tpl_commitMessage (cfg_templates config))
               variables)
            files w3 = (Throw e, w4) ->
          CommitManager.processCommit update queuedCommit w = (Throw e, w4)).
Proof.
  intros Env Body H C update. split.
  - intros. now apply writeFiles_stops.
  - intros. now apply (processCommit_write_fails update queuedCommit w config github
                         variables problemDetails files w1 w2 w3 e w4).
Qed.

Lemma processCommit_reports_failed_write_witness :
  exists w4,
    @CommitManager.processCommit _ _ Scripted.host scripted_commit_host
      (fun content _ _ _ => ret content) RemoteService.queued_two_sum write_refused
    = (Throw "GitHub API error (500): oops", w4)
    /\ length (sent w4) = 2.
Proof.
  eexists. split.
  - eapply (proj2 (processCommit_reports_failed_write Scripted.Env Payload Scripted.host
                     scripted_commit_host (fun content _ _ _ => ret content))
              RemoteService.queued_two_sum write_refused).
    + reflexivity.
    + reflexivity.
    + reflexivity.
    + vm_compute. reflexivity.
    + vm_compute. reflexivity.
    + reflexivity.
    + vm_compute. reflexivity.
  - reflexivity.
Defined.

(** ** Storage manager: the commit queue *)

Lemma filter_other_id_nothing (id : string) (queue : list QueuedCommit) :
  id ∉ map qc_id queue ->
  List.filter (fun commit => negb (String.eqb (qc_id commit) id)) queue = queue.
Proof.
  induction queue as [|q queue IH]; [reflexivity|]. cbn [map List.filter].
  intros Hn. apply not_elem_of_cons in Hn as [Hq Hn].
  destruct (String.eqb_spec (qc_id q) id) as [E|_]; [congruence|].
  cbn [negb]. now rewrite IH.
Qed.

Lemma update_first_absent {A} (p : A -> bool) (f : A -> A) (l : list A) :
  existsb p l = false -> update_first p f l = l.
Proof.
  induction l as [|x l IH]; [reflexivity|]. cbn [existsb update_first].
  intros He. apply orb_false_iff in He as [Hx He]. now rewrite Hx, IH.
Qed.

Lemma update_first_split {A} (p : A -> bool) (f : A -> A) (l : list A) :
  existsb p l = true ->
  exists pre x post,
    l = pre ++ x :: post /\ existsb p pre = false /\ p x = true
    /\ update_first p f l = pre ++ f x :: post.
Proof.
  induction l as [|y l IH]; [discriminate|]. cbn [existsb update_first].
  destruct (p y) eqn:Hy.
  - intros _. exists [], y, l. auto.
  - cbn [orb]. intros He. destruct (IH He) as (pre & x & post & -> & Hpre & Hx & Hu).
    exists (y :: pre), x, post. cbn [existsb]. rewrite Hy, Hpre, Hu. auto.
Qed.

(** X12.  [removeFromCommitQueue] writes back the items with another id,
    in their order: every item with the id is dropped, however many there
    are, and a queue without the id is written back as it is. *)
Theorem removeFromCommitQueue_drops_id :
  forall (Env : Type) (H : ServiceHost Env) (commitId : string)
         (st : Background.Service Env),
    exists st',
      Background.storage_removeFromCommitQueue commitId st = (Ok tt, st')
      /\ Background.local_queue st'
         = List.filter (fun commit => negb (String.eqb (qc_id commit) commitId))
             (Background.local_queue st)
      /\ (forall commit,
            commit ∈ Background.local_queue st'
            <-> commit ∈ Background.local_queue st /\ qc_id commit <> commitId)
      /\ (commitId ∉ map qc_id (Background.local_queue st) ->
          Background.local_queue st' = Background.local_queue st)
      /\ Background.storage_removeFromCommitQueue commitId st' = (Ok tt, st')
      /\ Background.local_processed st' = Background.local_processed st
      /\ Background.processing st' = Background.processing st.
Proof.
  intros Env H commitId st.
  unfold Background.storage_removeFromCommitQueue, Background.storage_getCommitQueue,
    Background.set_queue, bind, gets, modify.
  eexists. split; [reflexivity|]. cbn [Background.local_queue Background.local_processed
                                       Background.processing Background.attempts
                                       Background.outside].
  split; [reflexivity|]. split; [|split; [|split; [|split; reflexivity]]].
  - intros commit. rewrite !list_elem_of_In, filter_In.
    destruct (String.eqb_spec (qc_id commit) commitId) as [E|E]; cbn [negb]; intuition congruence.
  - apply filter_other_id_nothing.
  - f_equal. f_equal. apply filter_other_id_nothing.
    rewrite list_elem_of_In, in_map_iff. intros (q & Hid & Hq).
    apply filter_In in Hq as [_ Hq]. rewrite Hid, String.eqb_refl in Hq. discriminate.
Qed.

Lemma removeFromCommitQueue_drops_id_witness :
  map qc_id
    (Background.local_queue
       (snd (Background.storage_removeFromCommitQueue "retry-2"
               (Plain.service Plain.some_queue [] Plain.signed_in))))
  = ["retry-1"; "retry-3"].
Proof.
  destruct (removeFromCommitQueue_drops_id Plain.Env Plain.host "retry-2"
              (Plain.service Plain.some_queue [] Plain.signed_in))
    as (st' & E & Q & _).
  rewrite E. cbn [snd]. rewrite Q. reflexivity.
Defined.

(** X13.  [updateCommitInQueue] writes nothing when no item of the queue
    has the id.  Otherwise it replaces the first item with the id, and only
    that one, by the item with the updates applied: the length of the queue
    and the ids, submissions and timestamps of its items stay as they
    were. *)
Theorem updateCommitInQueue_first_match :
  forall (Env : Type) (H : ServiceHost Env) (commitId : string)
         (updates : QueuedCommitUpdates) (st : Background.Service Env),
    (commitId ∉ map qc_id (Background.local_queue st) ->
     Background.storage_updateCommitInQueue commitId updates st = (Ok tt, st))
    /\ (commitId ∈ map qc_id (Background.local_queue st) ->
        exists st' pre commit post,
          Background.storage_updateCommitInQueue commitId updates st = (Ok tt, st')
          /\ Background.local_queue st = pre ++ commit :: post
          /\ (commitId ∉ map qc_id pre)
          /\ qc_id commit = commitId
          /\ Background.local_queue st' = pre ++ apply_updates commit updates :: post
          /\ map qc_id (Background.local_queue st') = map qc_id (Background.local_queue st)
          /\ map qc_submission (Background.local_queue st')
             = map qc_submission (Background.local_queue st)
          /\ map qc_timestamp (Background.local_queue st')
             = map qc_timestamp (Background.local_queue st)).
Proof.
  intros Env H commitId updates st.
  assert (Hex : forall l : list QueuedCommit,
             existsb (fun commit => String.eqb (qc_id commit) commitId) l = false
             <-> (commitId ∉ map qc_id l)).
  { induction l as [|q l IH]; cbn [existsb map].
    - split; [intros _; apply not_elem_of_nil | reflexivity].
    - rewrite orb_false_iff, IH, not_elem_of_cons.
      destruct (String.eqb_spec (qc_id q) commitId); intuition congruence. }
  split.
  - intros Hn. apply Hex in Hn.
    unfold Background.storage_updateCommitInQueue, Background.storage_getCommitQueue,
      bind, gets. now rewrite Hn.
  - intros Hin.
    destruct (existsb (fun commit => String.eqb (qc_id commit) commitId)
                (Background.local_queue st)) eqn:He.
    2: { apply Hex in He. contradiction. }
    destruct (update_first_split _ (fun commit => apply_updates commit updates) _ He)
      as (pre & commit & post & Hq & Hpre & Hc & Hu).
    apply Hex in Hpre. apply String.eqb_eq in Hc.
    unfold Background.storage_updateCommitInQueue, Background.storage_getCommitQueue,
      Background.set_queue, bind, gets, modify. rewrite He.
    eexists _, pre, commit, post. split; [reflexivity|].
    cbn [Background.local_queue]. rewrite Hu, Hq.
    repeat split; auto; rewrite !map_app; reflexivity.
Qed.

Lemma updateCommitInQueue_first_match_witness :
  exists st',
    Background.storage_updateCommitInQueue "retry-3"
      (mkUpdates (Some 2) (Some (Some "Failed to fetch")))
      (Plain.service Plain.some_queue [] Plain.signed_in)
    = (Ok tt, st')
    /\ map qc_id (Background.local_queue st') = ["retry-1"; "retry-2"; "retry-3"].
Proof.
  destruct (proj2 (updateCommitInQueue_first_match Plain.Env Plain.host "retry-3"
                     (mkUpdates (Some 2) (Some (Some "Failed to fetch")))
                     (Plain.service Plain.some_queue [] Plain.signed_in)))
    as (st' & pre & commit & post & E & _ & _ & _ & _ & Hid & _).
  - vm_compute. repeat constructor.
  - exists st'. split; [exact E|]. rewrite Hid. reflexivity.
Defined.

(** X14.  [addToCommitQueue] puts the commit at the end of the queue.
    Removing it again by its id gives back the queue of before when no
    other item has that id; an older item with the same id goes with it. *)
Theorem addToCommitQueue_then_remove :
  forall (Env : Type) (H : ServiceHost Env) (commit : QueuedCommit)
         (st : Background.Service Env),
    exists st1 st2,
      Background.storage_addToCommitQueue commit st = (Ok tt, st1)
      /\ Background.local_queue st1 = Background.local_queue st ++ [commit]
      /\ Background.storage_removeFromCommitQueue (qc_id commit) st1 = (Ok tt, st2)
      /\ Background.local_queue st2
         = List.filter (fun other => negb (String.eqb (qc_id other) (qc_id commit)))
             (Background.local_queue st)
      /\ (qc_id commit ∉ map qc_id (Background.local_queue st) ->
          Background.local_queue st2 = Background.local_queue st).
Proof.
  intros Env H commit st.
  unfold Background.storage_addToCommitQueue, Background.storage_removeFromCommitQueue,
    Background.storage_getCommitQueue, Background.set_queue, bind, gets, modify.
  eexists _, _. split; [reflexivity|]. cbn [Background.local_queue].
  split; [reflexivity|]. split; [reflexivity|]. cbn [Background.local_queue].
  assert (E : List.filter (fun other => negb (String.eqb (qc_id other) (qc_id commit)))
                (Background.local_queue st ++ [commit])
              = List.filter (fun other => negb (String.eqb (qc_id other) (qc_id commit)))
                  (Background.local_queue st)).
  { rewrite List.filter_app. cbn [List.filter]. rewrite String.eqb_refl. cbn [negb].
    apply app_nil_r. }
  split; [exact E|]. intros Hn. rewrite E. now apply filter_other_id_nothing.
Qed.

Lemma addToCommitQueue_then_remove_witness :
  exists st1 st2,
    Background.storage_addToCommitQueue
      (mkQueuedCommit "retry-9" Plain.two_sum 9%N 0 None)
      (Plain.service Plain.some_queue [] Plain.signed_in) = (Ok tt, st1)
    /\ Background.storage_removeFromCommitQueue "retry-9" st1 = (Ok tt, st2)
    /\ Background.local_queue st2 = Plain.some_queue.
Proof.
  destruct (addToCommitQueue_then_remove Plain.Env Plain.host
              (mkQueuedCommit "retry-9" Plain.two_sum 9%N 0 None)
              (Plain.service Plain.some_queue [] Plain.signed_in))
    as (st1 & st2 & E1 & _ & E2 & _ & Hback).
  exists st1, st2. split; [exact E1|]. split; [exact E2|].
  apply Hback. unfold Plain.service, Plain.some_queue.
  cbn [Background.local_queue map qc_id]. intros Hin.
  repeat (apply elem_of_cons in Hin as [Hin|Hin]; [discriminate Hin|]).
  now apply elem_of_nil in Hin.
Defined.

(** ** Storage manager: the processed submissions *)

Lemma NoDup_ordered_add x (l : list string) : NoDup l -> NoDup (ordered_add x l).
Proof.
  intros Hl. unfold ordered_add. case_bool_decide as Hx; [exact Hl|].
  apply NoDup_app. split; [exact Hl|]. split.
  - intros y Hy Hy'. apply list_elem_of_singleton in Hy' as ->. contradiction.
  - apply NoDup_singleton.
Qed.

Lemma NoDup_ordered_fold (l acc : list string) :
  NoDup acc -> NoDup (fold_left (fun acc x => ordered_add x acc) l acc).
Proof.
  revert acc. induction l as [|x l IH]; intros acc Hacc; [exact Hacc|].
  cbn [fold_left]. apply IH. now apply NoDup_ordered_add.
Qed.

(** X15.  [markSubmissionProcessed] stores the processed fingerprints
    without repetition, those of before and the one of the submission, and
    from then on [isDuplicateSubmission] answers yes for the submission.
    Marking a submission that is already in a list without repetition
    writes the same list back. *)
Theorem markSubmissionProcessed_then_duplicate :
  forall (Env : Type) (H : ServiceHost Env) (submission : LeetCodeSubmission)
         (st : Background.Service Env),
    exists st',
      Background.markSubmissionProcessed submission st = (Ok tt, st')
      /\ NoDup (Background.local_processed st')
      /\ (forall key,
            key ∈ Background.local_processed st'
            <-> key ∈ Background.local_processed st
                \/ key = Background.generateSubmissionKey submission)
      /\ Background.isDuplicateSubmission submission st' = (Ok true, st')
      /\ Background.local_queue st' = Background.local_queue st
      /\ Background.local_processed
           (snd (Background.markSubmissionProcessed submission st'))
         = Background.local_processed st'.
Proof.
  intros Env H submission st.
  unfold Background.markSubmissionProcessed, Background.storage_markSubmissionProcessed,
    Background.storage_getProcessedSubmissions, Background.isDuplicateSubmission,
    Background.set_processed, bind, gets, modify, ret.
  eexists. split; [reflexivity|].
  cbn [Background.local_processed Background.local_queue].
  set (key := Background.generateSubmissionKey submission).
  set (stored := ordered_add key (ordered_set (Background.local_processed st))).
  assert (Hnd : NoDup stored).
  { apply NoDup_ordered_add. apply NoDup_ordered_fold. apply NoDup_nil_2. }
  assert (Hin : forall k, k ∈ stored <-> k ∈ Background.local_processed st \/ k = key).
  { intros k. unfold stored. now rewrite elem_of_ordered_add, elem_of_ordered_set. }
  assert (Hset : forall l : list string, NoDup l -> ordered_set l = l).
  { unfold ordered_set. intros l.
    assert (G : forall acc, NoDup (acc ++ l) ->
                fold_left (fun acc x => ordered_add x acc) l acc = acc ++ l).
    { induction l as [|x l IH]; intros acc Hal; cbn [fold_left]; [now rewrite app_nil_r|].
      assert (Hx : x ∉ acc).
      { apply NoDup_app in Hal as (_ & Hd & _). intros Hx. apply (Hd x Hx). now left. }
      unfold ordered_add at 2. rewrite bool_decide_eq_false_2 by exact Hx.
      rewrite IH; rewrite <- app_assoc; [reflexivity | exact Hal]. }
    intros Hl. now apply (G []). }
  split; [exact Hnd|]. split; [exact Hin|]. split.
  - f_equal. f_equal. apply bool_decide_eq_true_2.
    apply elem_of_ordered_set. apply Hin. now right.
  - split; [reflexivity|]. cbn [snd Background.local_processed]. fold key. fold stored. rewrite (Hset stored Hnd).
    unfold ordered_add. rewrite bool_decide_eq_true_2; [reflexivity|].
    apply Hin. now right.
Qed.

(** ** Background service: the in-flight set and the authentication gate *)

Section ServiceGates.
Context {Env : Type} `{ServiceHost Env}.
Import Background EventLoop.

Lemma keeps_drain queue : @keeps_processing Env _ (drain queue).
Proof.
  induction queue as [|q rest IH]; intros st; [reflexivity|].
  rewrite drain_in_pieces. unfold bind at 1.
  destruct (claim_spec q st) as [E | [[E Hp] | (E & Hnin & Hp)]].
  - rewrite E. apply IH.
  - destruct (claim q st) as [[v|e] st1]; cbn [fst snd] in *; [|discriminate].
    injection E as ->. now rewrite IH.
  - destruct (claim q st) as [[v|e] st1]; cbn [fst snd] in *; [|discriminate].
    injection E as ->. unfold bind, tryFinally.
    pose proof (keeps_attempt q st1) as Ha.
    destruct (attempt q st1) as [outcome st2]. cbn [snd] in Ha.
    unfold leave, set_processing, modify.
    assert (Hback : processing st2 ∖ {[qc_id q]} = processing st).
    { rewrite Ha, Hp. rewrite difference_union_distr_l_L, difference_diag_L, union_empty_r_L.
      apply difference_disjoint_L, disjoint_singleton_r. exact Hnin. }
    destruct outcome as [[]|e]; [rewrite IH|]; cbn [snd processing]; exact Hback.
Qed.

Lemma keeps_processQueuedCommits : @keeps_processing Env _ processQueuedCommits.
Proof.
  unfold processQueuedCommits, storage_getCommitQueue.
  apply keeps_tryCatch; [|intros _; apply keeps_ret].
  apply keeps_bind; [apply keeps_gets|]. intros queue.
  apply keeps_bind; [apply keeps_validateAuthentication|]. intros a.
  destruct (negb a); [apply keeps_ret | apply keeps_drain].
Qed.

Lemma keeps_handleSubmissionAccepted submissionData :
  @keeps_processing Env _ (handleSubmissionAccepted submissionData).
Proof.
  intros st. rewrite handleSubmissionAccepted_in_pieces. unfold bind.
  destruct (enter_spec submissionData st) as [(_ & E & Hs) | (Hnin & E & Hp)].
  - destruct (enter submissionData st) as [[k|e] st1]; cbn [fst snd] in *; [|discriminate].
    injection E as ->. apply Hs.
  - destruct (enter submissionData st) as [[k|e] st1]; cbn [fst snd] in *; [|discriminate].
    injection E as ->. unfold tryFinally.
    pose proof (keeps_handle submissionData st1) as Hh.
    destruct (handle submissionData st1) as [r st2]. cbn [snd] in Hh.
    unfold leave, set_processing, modify. cbn [snd processing].
    rewrite Hh, Hp. rewrite difference_union_distr_l_L, difference_diag_L, union_empty_r_L.
    apply difference_disjoint_L, disjoint_singleton_r. exact Hnin.
Qed.

(** With the gate closed, nothing is committed, queued or marked. *)
Hypothesis not_authenticated : forall e, fst (tokenManager_isAuthenticated e) = false.

Lemma validateAuthentication_closed (st : Service Env) :
  exists st', validateAuthentication st = (Ok false, st') /\ same_store st st'.
Proof.
  unfold validateAuthentication, tryCatch. unfold bind at 1, liftHost at 1, total at 1.
  pose proof (not_authenticated (outside st)) as Hf.
  destruct (tokenManager_isAuthenticated (outside st)) as [b e1]. cbn [fst] in Hf.
  subst b. cbn [negb].
  set (st1 := mkService _ _ _ _ e1).
  destruct (quiet_handleMissingAuth st1) as ([] & st2 & E2 & S2).
  unfold bind. rewrite E2. exists st2. split; [reflexivity|].
  destruct S2 as (P & Q & R & A). repeat split; assumption.
Qed.

Lemma handle_closed submissionData (st : Service Env) :
  exists st', handle submissionData st = (Ok tt, st') /\ same_store st st'.
Proof.
  destruct (validateAuthentication_closed st) as (st' & E & S).
  exists st'. split; [|exact S]. unfold handle, tryCatch, bind. now rewrite E.
Qed.

Lemma handleSubmissionAccepted_closed submissionData (st : Service Env) :
  exists st', handleSubmissionAccepted submissionData st = (Ok tt, st') /\ same_store st st'.
Proof.
  pose proof (keeps_handleSubmissionAccepted submissionData st) as Hk.
  rewrite handleSubmissionAccepted_in_pieces in Hk |- *. unfold bind in Hk |- *.
  destruct (enter_spec submissionData st) as [(_ & E & Hs) | (Hnin & E & Hp)].
  - destruct (enter submissionData st) as [[k|e] st1]; cbn [fst snd] in *; [|discriminate].
    injection E as ->. exists st1. split; [reflexivity | exact Hs].
  - assert (Hstore : local_queue (snd (enter submissionData st)) = local_queue st
                     /\ local_processed (snd (enter submissionData st)) = local_processed st
                     /\ attempts (snd (enter submissionData st)) = attempts st).
    { unfold enter, bind, liftHost, total, gets, set_processing, modify, ret.
      destruct (Date_now (outside st)) as [now e1]. cbn [outside processing].
      destruct (bool_decide _); repeat split. }
    destruct (enter submissionData st) as [[k|e] st1]; cbn [fst snd] in *; [|discriminate].
    injection E as ->. destruct (handle_closed submissionData st1) as (st2 & E2 & S2).
    unfold tryFinally in Hk |- *. rewrite E2 in Hk |- *.
    unfold leave, set_processing, modify in Hk |- *. cbn [snd] in Hk.
    eexists. split; [reflexivity|].
    destruct S2 as (_ & Q2 & R2 & A2). destruct Hstore as (Q1 & R1 & A1).
    repeat split; cbn [local_queue local_processed attempts]; congruence.
Qed.

Lemma processQueuedCommits_closed (st : Service Env) :
  exists st', processQueuedCommits st = (Ok tt, st') /\ same_store st st'.
Proof.
  destruct (validateAuthentication_closed st) as (st' & E & S).
  exists st'. split; [|exact S].
  unfold processQueuedCommits, tryCatch, bind, storage_getCommitQueue, gets. now rewrite E.
Qed.

End ServiceGates.

(** X16.  The in-flight set is the same after a call of
    [handleSubmissionAccepted] or of [processQueuedCommits] as before it,
    whatever the call did and whether it returned or threw: every key that
    is added is deleted again. *)
Theorem in_flight_set_is_restored :
  forall (Env : Type) (H : ServiceHost Env) (st : Background.Service Env),
    (forall submissionData,
        Background.processing (snd (Background.handleSubmissionAccepted submissionData st))
        = Background.processing st)
    /\ Background.processing (snd (Background.processQueuedCommits st))
       = Background.processing st
    /\ (forall queue,
          Background.processing (snd (Background.drain queue st))
          = Background.processing st).
Proof.
  intros Env H st. split; [|split].
  - intros submissionData. apply keeps_handleSubmissionAccepted.
  - apply keeps_processQueuedCommits.
  - intros queue. apply keeps_drain.
Qed.

(** X17.  While the token manager reports no authentication, a reported
    submission and a pass over the queue both return without a commit:
    the queue, the processed fingerprints, the in-flight set and the record
    of the attempts are left as they are. *)
Theorem nothing_happens_without_authentication :
  forall (Env : Type) (H : ServiceHost Env),
    (forall e, fst (tokenManager_isAuthenticated e) = false) ->
    forall st : Background.Service Env,
      (forall submissionData,
          exists st',
            Background.handleSubmissionAccepted submissionData st = (Ok tt, st')
            /\ Background.same_store st st')
      /\ (exists st',
            Background.processQueuedCommits st = (Ok tt, st')
            /\ Background.same_store st st').
Proof.
  intros Env H Hna st. split.
  - intros submissionData. now apply handleSubmissionAccepted_closed.
  - now apply processQueuedCommits_closed.
Qed.

Lemma nothing_happens_without_authentication_witness :
  exists st',
    @Background.processQueuedCommits _ not_connected
      (Plain.service Plain.some_queue [] Plain.signed_in) = (Ok tt, st')
    /\ Background.local_queue st' = Plain.some_queue
    /\ Background.attempts st' = [].
Proof.
  destruct (proj2 (nothing_happens_without_authentication Plain.Env not_connected
                     (fun e => eq_refl)
                     (Plain.service Plain.some_queue [] Plain.signed_in)))
    as (st' & E & (_ & Q & _ & A)).
  exists st'. split; [exact E|]. split; [exact Q | exact A].
Defined.

(** ** Background service: where a failed commit goes *)

Section FailedCommit.
Context {Env : Type} `{ServiceHost Env}.
Import Background EventLoop.

Lemma queueSubmissionForRetry_item submission error (st : Service Env) :
  exists item st',
    queueSubmissionForRetry submission error st = (Ok tt, st')
    /\ local_queue st' = local_queue st ++ [item]
    /\ qc_submission item = submission
    /\ qc_retryCount item = 0
    /\ qc_lastError item = Some error
    /\ JS.startsWith "retry-" (qc_id item) = true
    /\ attempts st' = attempts st.
Proof.
  unfold queueSubmissionForRetry, bind, liftHost, total, storage_addToCommitQueue,
    storage_getCommitQueue, set_queue, gets, modify.
  destruct (Date_now (outside st)) as [t1 e1]. cbn [outside].
  destruct (Date_now e1) as [t2 e2].
  eexists _, _. split; [reflexivity|]. cbn. repeat split.
Qed.

Lemma append_one_inj {A} (l l' : list A) (x y : A) :
  l' = l -> l' ++ [x] = l ++ [y] -> x = y.
Proof. intros ->. intros E. now apply app_inj_tail in E as [_ E]. Qed.

Lemma no_growth {A} (l : list A) (x : A) : l <> l ++ [x].
Proof.
  intros E. apply (f_equal (@length _)) in E. rewrite length_app in E. cbn in E. lia.
Qed.

(** The [catch] block: an error that names bad credentials goes to
    [handleInvalidToken] and the queue is left alone; any other error
    puts the submission on the queue. *)
Lemma catch_routes submission error (st : Service Env) r st' :
  (if JS.includes error "Bad credentials" || JS.includes error "401" then
     handleInvalidToken error
   else
     queueSubmissionForRetry submission error ;;
     showErrorNotification "Commit failed" error) st = (r, st') ->
  attempts st' = attempts st
  /\ if names_bad_credentials error
     then local_queue st' = local_queue st
     else exists item,
         local_queue st' = local_queue st ++ [item]
         /\ qc_submission item = submission
         /\ qc_retryCount item = 0
         /\ qc_lastError item = Some error
         /\ JS.startsWith "retry-" (qc_id item) = true.
Proof.
  unfold names_bad_credentials.
  destruct (JS.includes error "Bad credentials" || JS.includes error "401").
  - intros E. apply framed_handleInvalidToken in E. destruct E as (_ & Q & _ & A). auto.
  - unfold bind.
    destruct (queueSubmissionForRetry_item submission error st)
      as (item & st1 & E1 & Q1 & S1 & R1 & L1 & I1 & A1).
    rewrite E1. intros E. apply (framed_of_quiet _ (quiet_showNotification _ _)) in E.
    destruct E as (_ & Q & _ & A). split; [congruence|].
    exists item. rewrite Q, Q1. auto.
Qed.

Lemma handle_failed_commit submissionData (st : Service Env) r st' q error :
  handle submissionData st = (r, st') ->
  attempts st' = attempts st ++ [(q, Some error)] ->
  qc_submission q = submissionData
  /\ if names_bad_credentials error
     then local_queue st' = local_queue st
     else exists item,
         local_queue st' = local_queue st ++ [item]
         /\ qc_submission item = submissionData
         /\ qc_retryCount item = 0
         /\ qc_lastError item = Some error
         /\ JS.startsWith "retry-" (qc_id item) = true.
Proof.
  unfold handle, tryCatch. unfold bind at 1.
  destruct (quiet_validateAuthentication st) as (b & st2 & E2 & P2 & Q2 & R2 & A2).
  rewrite E2. destruct b; cbn [negb].
  2:{ intros [= <- <-] Ha. rewrite A2 in Ha. now apply no_growth in Ha. }
  unfold bind at 1. unfold liftHost at 1, total at 1.
  destruct (service_getDecryptedConfig (outside st2)) as [config e3].
  set (st3 := mkService _ _ _ _ e3).
  assert (A3 : attempts st3 = attempts st) by exact A2.
  assert (Q3 : local_queue st3 = local_queue st) by exact Q2.
  clearbody st3. clear E2 P2 Q2 R2 A2 st2.
  destruct (isValidSubmission submissionData); cbn [negb].
  2:{ unfold throw at 1. intros E Ha. apply catch_routes in E as [A _].
      rewrite A, A3 in Ha. now apply no_growth in Ha. }
  unfold bind at 1.
  assert (Hdup : exists d, (if set_skipDuplicates (cfg_settings config)
                            then isDuplicateSubmission submissionData else ret false) st3
                           = (Ok d, st3)).
  { destruct (set_skipDuplicates (cfg_settings config)); eexists; reflexivity. }
  destruct Hdup as (d & ->). destruct d.
  { intros [= <- <-] Ha. rewrite A3 in Ha. now apply no_growth in Ha. }
  unfold bind at 1. unfold processSubmissionImmediately.
  unfold bind at 1. unfold liftHost at 1, total at 1.
  destruct (Date_now (outside st3)) as [t1 e4]. cbn [outside].
  unfold bind at 1. unfold liftHost at 1, total at 1. cbn [outside].
  destruct (Date_now e4) as [t2 e5].
  set (q0 := mkQueuedCommit _ submissionData t2 0 None).
  unfold processCommit, liftHost. cbn [outside processing local_queue local_processed attempts].
  destruct (commitManager_processCommit q0 e5) as [[[]|e] e6].
  - unfold record_attempt at 1, modify at 1.
    unfold bind at 1, markSubmissionProcessed, storage_markSubmissionProcessed,
      storage_getProcessedSubmissions, set_processed, bind, gets, modify, ret.
    cbn [outside processing local_queue local_processed attempts].
    set (st6 := mkService _ _ _ _ e6).
    intros E Ha. unfold showSuccessNotification in E.
    destruct (quiet_showNotification "LeetShip Success"
                (sub_title submissionData +:+ " committed to GitHub!") st6)
      as ([] & st7 & E7 & (_ & Q7 & _ & A7)).
    rewrite E7 in E. injection E as <- <-.
    rewrite A7 in Ha. cbn [st6 attempts] in Ha.
    apply append_one_inj in Ha; [discriminate Ha | exact A3].
  - cbn [snd]. unfold record_attempt, modify. cbn [snd].
    set (st6 := mkService _ _ _ _ e6).
    intros E Ha. apply catch_routes in E as [A Hq].
    rewrite A in Ha. cbn [st6 attempts] in Ha.
    apply append_one_inj in Ha; [|exact A3]. injection Ha as <- <-.
    split; [reflexivity|].
    cbn [st6 local_queue] in Hq. rewrite Q3 in Hq. exact Hq.
Qed.

Lemma handleSubmissionAccepted_failed_commit submissionData (st : Service Env) r st' q error :
  handleSubmissionAccepted submissionData st = (r, st') ->
  attempts st' = attempts st ++ [(q, Some error)] ->
  qc_submission q = submissionData
  /\ if names_bad_credentials error
     then local_queue st' = local_queue st
     else exists item,
         local_queue st' = local_queue st ++ [item]
         /\ qc_submission item = submissionData
         /\ qc_retryCount item = 0
         /\ qc_lastError item = Some error
         /\ JS.startsWith "retry-" (qc_id item) = true.
Proof.
  rewrite handleSubmissionAccepted_in_pieces. unfold bind.
  assert (Hstore : local_queue (snd (enter submissionData st)) = local_queue st
                   /\ attempts (snd (enter submissionData st)) = attempts st).
  { unfold enter, bind, liftHost, total, gets, set_processing, modify, ret.
    destruct (Date_now (outside st)) as [now e1]. cbn [outside processing].
    destruct (bool_decide _); split; reflexivity. }
  destruct (enter submissionData st) as [[[k|]|e] st1]; cbn [snd] in Hstore;
    destruct Hstore as [Q1 A1].
  - unfold tryFinally.
    destruct (handle submissionData st1) as [rb st2] eqn:Eh.
    unfold leave, set_processing, modify. intros [= <- <-].
    cbn [attempts local_queue]. rewrite <- A1, <- Q1.
    now apply (handle_failed_commit submissionData st1 rb st2).
  - intros [= <- <-] Ha. rewrite A1 in Ha. now apply no_growth in Ha.
  - intros [= <- <-] Ha. rewrite A1 in Ha. now apply no_growth in Ha.
Qed.

End FailedCommit.

(** X18.  When the commit of a reported submission throws, the message of
    the error decides where the submission goes.  A message that contains
    [Bad credentials] or [401] leaves the queue as it is: the submission is
    not kept for a retry.  Any other message puts the submission at the end
    of the queue, with no retries counted, the message as its last error and
    an id that opens with [retry-]. *)
Theorem failed_commit_is_routed_by_message :
  forall (Env : Type) (H : ServiceHost Env) submissionData
         (st : Background.Service Env) r st' q error,
    Background.handleSubmissionAccepted submissionData st = (r, st') ->
    Background.attempts st' = Background.attempts st ++ [(q, Some error)] ->
    qc_submission q = submissionData
    /\ if names_bad_credentials error
       then Background.local_queue st' = Background.local_queue st
       else exists item,
           Background.local_queue st' = Background.local_queue st ++ [item]
           /\ qc_submission item = submissionData
           /\ qc_retryCount item = 0
           /\ qc_lastError item = Some error
           /\ JS.startsWith "retry-" (qc_id item) = true.
Proof.
  intros Env H submissionData st r st' q error.
  apply handleSubmissionAccepted_failed_commit.
Qed.

Lemma failed_commit_is_routed_by_message_witness :
  exists item,
    Background.local_queue
      (snd (Background.handleSubmissionAccepted Plain.add_two
              (Plain.service [] [] Plain.signed_in)))
    = [item]
    /\ qc_lastError item = Some "GitHub API error (409): conflict".
Proof.
  destruct (Background.handleSubmissionAccepted Plain.add_two
              (Plain.service [] [] Plain.signed_in)) as [r st'] eqn:E.
  destruct (failed_commit_is_routed_by_message Plain.Env Plain.host Plain.add_two
              (Plain.service [] [] Plain.signed_in) r st'
              (mkQueuedCommit "immediate-1700000000001" Plain.add_two 1700000000002%N 0 None)
              "GitHub API error (409): conflict" E) as [_ Hq].
  - revert E. vm_compute. intros [= _ <-]. reflexivity.
  - cbv beta iota delta [names_bad_credentials] in Hq.
    change (JS.includes "GitHub API error (409): conflict" "Bad credentials"
            || JS.includes "GitHub API error (409): conflict" "401") with false in Hq.
    destruct Hq as (item & Q & _ & _ & L & _). exists item. split; [exact Q | exact L].
Defined.

(** ** Background service: the hash of the code *)

Lemma toInt32_range (z : Z) :
  (-2147483648 <= Background.toInt32 z < 2147483648)%Z.
Proof.
  unfold Background.toInt32.
  pose proof (Z.mod_pos_bound (z + 2147483648) 4294967296 ltac:(lia)). lia.
Qed.

Lemma hash_loop_range (str : string) (hash : Z) :
  (-2147483648 <= hash < 2147483648)%Z ->
  (-2147483648 <= Background.hash_loop hash str < 2147483648)%Z.
Proof.
  revert hash. induction str as [|c str IH]; intros hash Hh; [exact Hh|].
  cbn [Background.hash_loop]. apply IH. apply toInt32_range.
Qed.

Lemma digit36_spec (d : Z) :
  (0 <= d < 36)%Z ->
  is_base36 (Background.digit36 d) = true /\ digit_value (Background.digit36 d) = d.
Proof.
  intros Hd. rewrite <- (Z2Nat.id d) by lia.
  assert (Hn : Z.to_nat d < 36) by lia. revert Hn. generalize (Z.to_nat d). intros n Hn.
  do 36 (destruct n as [|n]; [split; vm_compute; reflexivity|]). lia.
Qed.

Lemma toString36_from_value (rounds : nat) :
  forall (n : Z) (acc : string),
    (0 <= n < 36 ^ Z.of_nat rounds)%Z -> 1 <= rounds ->
    parseInt36_from 0 (Background.toString36_from rounds n acc) = parseInt36_from n acc.
Proof.
  induction rounds as [|k IH]; intros n acc Hn Hr; [lia|].
  cbn [Background.toString36_from].
  assert (Hm : (0 <= n mod 36 < 36)%Z) by (apply Z.mod_pos_bound; lia).
  destruct (digit36_spec _ Hm) as [_ Hv].
  destruct (Z.eqb_spec (n / 36) 0) as [Hq|Hq].
  - cbn [parseInt36_from]. rewrite Hv. f_equal.
    pose proof (Z.div_mod n 36 ltac:(lia)). lia.
  - assert (Hq1 : (1 <= n / 36)%Z).
    { pose proof (Z.div_pos n 36 ltac:(lia) ltac:(lia)). lia. }
    assert (Hq2 : (n / 36 < 36 ^ Z.of_nat k)%Z).
    { apply Z.div_lt_upper_bound; [lia|].
      replace (36 * 36 ^ Z.of_nat k)%Z with (36 ^ Z.of_nat (S k))%Z; [lia|].
      rewrite Nat2Z.inj_succ, Z.pow_succ_r by lia. reflexivity. }
    assert (Hk : 1 <= k).
    { destruct k; [|lia]. cbn in Hq2. lia. }
    rewrite IH by (try lia; split; lia). cbn [parseInt36_from]. rewrite Hv. f_equal.
    pose proof (Z.div_mod n 36 ltac:(lia)). lia.
Qed.

Lemma toString36_from_base36 (rounds : nat) :
  forall (n : Z) (acc : string),
    (0 <= n)%Z -> every is_base36 acc = true ->
    every is_base36 (Background.toString36_from rounds n acc) = true.
Proof.
  induction rounds as [|k IH]; intros n acc Hn Hacc; [exact Hacc|].
  cbn [Background.toString36_from].
  assert (Hm : (0 <= n mod 36 < 36)%Z) by (apply Z.mod_pos_bound; lia).
  destruct (digit36_spec _ Hm) as [Hb _].
  assert (Hacc' : every is_base36 (String (Background.digit36 (n mod 36)) acc) = true)
    by (cbn [every]; now rewrite Hb, Hacc).
  destruct (n / 36 =? 0)%Z; [exact Hacc'|].
  apply IH; [|exact Hacc']. apply Z.div_pos; lia.
Qed.

Lemma toString36_from_length (rounds : nat) :
  forall (k : nat) (n : Z) (acc : string),
    (0 <= n < 36 ^ Z.of_nat k)%Z -> 1 <= k -> k <= rounds ->
    S (String.length acc) <= String.length (Background.toString36_from rounds n acc)
    /\ String.length (Background.toString36_from rounds n acc) <= k + String.length acc.
Proof.
  induction rounds as [|r IH]; intros k n acc Hn Hk Hr; [lia|].
  cbn [Background.toString36_from].
  destruct (Z.eqb_spec (n / 36) 0) as [Hq|Hq]; [cbn [String.length]; lia|].
  assert (Hq1 : (1 <= n / 36)%Z).
  { pose proof (Z.div_pos n 36 ltac:(lia) ltac:(lia)). lia. }
  destruct k as [|k]; [lia|].
  assert (Hq2 : (n / 36 < 36 ^ Z.of_nat k)%Z).
  { apply Z.div_lt_upper_bound; [lia|].
    replace (36 * 36 ^ Z.of_nat k)%Z with (36 ^ Z.of_nat (S k))%Z; [lia|].
    rewrite Nat2Z.inj_succ, Z.pow_succ_r by lia. reflexivity. }
  assert (Hk1 : 1 <= k).
  { destruct k; [|lia]. cbn in Hq2. lia. }
  destruct (IH k (n / 36)%Z (String (Background.digit36 (n mod 36)) acc))
    as [Hlo Hhi]; [lia | lia | lia |].
  cbn [String.length] in Hlo, Hhi. lia.
Qed.

(** X19.  The hash of a string stays within the signed 32-bit range, and
    [simpleHash] writes its absolute value in base 36 in full: the text has
    between one and six characters, all digits or lower-case letters, and
    read back in base 36 it is that absolute value. *)
Theorem simpleHash_is_base36_of_hash :
  forall str : string,
    (-2147483648 <= Background.hash_loop 0 str < 2147483648)%Z
    /\ parseInt36 (Background.simpleHash str) = Z.abs (Background.hash_loop 0 str)
    /\ every is_base36 (Background.simpleHash str) = true
    /\ 1 <= String.length (Background.simpleHash str) <= 6.
Proof.
  intros str.
  pose proof (hash_loop_range str 0%Z ltac:(lia)) as Hr.
  set (h := Background.hash_loop 0 str) in *.
  assert (Ha : (0 <= Z.abs h < 36 ^ Z.of_nat 6)%Z).
  { change (36 ^ Z.of_nat 6)%Z with 2176782336%Z. lia. }
  split; [exact Hr|]. unfold Background.simpleHash, parseInt36. fold h. split; [|split].
  - rewrite toString36_from_value; [reflexivity | | lia].
    change (36 ^ Z.of_nat 8)%Z with 2821109907456%Z.
    change (36 ^ Z.of_nat 6)%Z with 2176782336%Z in Ha. lia.
  - apply toString36_from_base36; [lia | reflexivity].
  - destruct (toString36_from_length 8 6 (Z.abs h) EmptyString Ha) as [Hlo Hhi]; [lia | lia |].
    cbn [String.length] in Hlo, Hhi. lia.
Qed.

(** ** Credential store: rejected, cleared and expired tokens *)

Section RejectedToken.
Context `{Platform}.

Variables (token : string) (v : Vault).
Hypothesis Hrejected :
  forall response,
    GET_rate_limit token (clock v) = Some response -> response_ok response = false.

Lemma assertTokenAccepted_rejected :
  exists error,
    GitHubAuth.assertTokenAccepted token v = (Throw error, elapse round_trip v).
Proof.
  unfold GitHubAuth.assertTokenAccepted, GitHubAuth.ghFetch, Date_now_vault, bind, gets, modify.
  destruct (GET_rate_limit token (clock v)) as [response|] eqn:E.
  - cbn [ret]. rewrite (Hrejected response eq_refl). cbn [negb]. eexists. reflexivity.
  - eexists. reflexivity.
Qed.

End RejectedToken.

(** X20.  A token that the remote does not accept is not stored: both
    handlers of the authentication message answer with a failure and its
    message, and leave the storage areas, the cache and the shared default
    configuration as they were; only the time of one request has passed. *)
Theorem rejected_token_is_not_stored :
  forall (P : Platform) (payload : AuthPayload) (v : Vault),
    (forall response,
        GET_rate_limit (pay_token payload) (clock v) = Some response ->
        response_ok response = false) ->
    exists error,
      BackgroundAuth.handleAuthWithPAT payload v
      = (Ok (mkAuthResponse false (Some error) None), elapse round_trip v)
      /\ FirefoxBackground.handleAuthWithPAT payload v
         = (Ok (mkAuthResponse false (Some error) None), elapse round_trip v).
Proof.
  intros P payload v Hrej.
  destruct (assertTokenAccepted_rejected (pay_token payload) v Hrej) as (error & E).
  exists error. split.
  - unfold BackgroundAuth.handleAuthWithPAT, GitHubAuth.authenticateWithToken, tryCatch.
    unfold bind at 1. unfold bind at 1. rewrite E. reflexivity.
  - unfold FirefoxBackground.handleAuthWithPAT, tryCatch.
    unfold bind at 1. rewrite E. reflexivity.
Qed.

Lemma rejected_token_is_not_stored_witness :
  exists error,
    @BackgroundAuth.handleAuthWithPAT Rejecting.platform
      (mkAuthPayload "ghp_revoked" None "leetcode" "main") Accepting.fresh
    = (Ok (mkAuthResponse false (Some error) None),
       elapse (@round_trip Rejecting.platform) Accepting.fresh)
    /\ @FirefoxBackground.handleAuthWithPAT Rejecting.platform
         (mkAuthPayload "ghp_revoked" None "leetcode" "main") Accepting.fresh
       = (Ok (mkAuthResponse false (Some error) None),
          elapse (@round_trip Rejecting.platform) Accepting.fresh).
Proof.
  apply (rejected_token_is_not_stored Rejecting.platform
           (mkAuthPayload "ghp_revoked" None "leetcode" "main") Accepting.fresh).
  intros response [= <-]. reflexivity.
Defined.

Section ClearedTokens.
Context `{Platform}.

Lemma clearAllTokens_run v :
  TokenManager.clearAllTokens v
  = (Ok tt,
     with_cache (fun _ => ∅)
       (with_local (fun m =>
          delete TokenManager.TOKEN_METADATA
            (delete TokenManager.GITHUB_CONFIG (delete TokenManager.GITHUB_REFRESH m)))
          (snd (SecureStorage.clearSessionData TokenManager.GITHUB_TOKEN v)))).
Proof.
  unfold TokenManager.clearAllTokens, SecureStorage.clearSessionData, tryCatch, bind, get,
    modify.
  destruct (session v); reflexivity.
Qed.

Lemma getSessionData_cleared key v :
  SecureStorage.getSessionData key (snd (SecureStorage.clearSessionData key v))
  = (Ok None, snd (SecureStorage.clearSessionData key v)).
Proof.
  unfold SecureStorage.getSessionData, SecureStorage.clearSessionData,
    SecureStorage.getSecureData, tryCatch, bind, get, gets, modify, ret.
  destruct (session v) as [s|] eqn:Es; cbn [snd fst with_session with_local session local].
  - now rewrite lookup_delete_eq.
  - rewrite Es. unfold with_local at 1. cbn [fst snd local]. now rewrite lookup_delete_eq.
Qed.

Lemma getSessionData_after_clearAllTokens v :
  fst (SecureStorage.getSessionData TokenManager.GITHUB_TOKEN
         (snd (TokenManager.clearAllTokens v))) = Ok None.
Proof.
  rewrite clearAllTokens_run. cbn [snd].
  set (v1 := snd (SecureStorage.clearSessionData TokenManager.GITHUB_TOKEN v)).
  pose proof (getSessionData_cleared TokenManager.GITHUB_TOKEN v) as Hc. fold v1 in Hc.
  unfold SecureStorage.getSessionData, SecureStorage.getSecureData, tryCatch, bind, get,
    gets, ret in Hc |- *.
  cbn [with_cache with_local session local].
  destruct (session v1) as [s|] eqn:Es; cbn [fst snd] in Hc |- *.
  - now injection Hc as ->.
  - injection Hc as Hc. unfold with_cache, with_local. cbn [local].
    rewrite !lookup_delete_ne by (intros E; vm_compute in E; discriminate E).
    now rewrite Hc.
Qed.

(** What is left after [clearAllTokens]. *)
Lemma getGitHubToken_cleared v v' :
  TokenManager.clearAllTokens v = (Ok tt, v') ->
  TokenManager.getGitHubToken v' = (Ok None, v').
Proof.
  intros Hc.
  assert (Hs : SecureStorage.getSessionData TokenManager.GITHUB_TOKEN v' = (Ok None, v')).
  { pose proof (getSessionData_after_clearAllTokens v) as Hx. rewrite Hc in Hx.
    cbn [snd] in Hx.
    destruct (getSessionData_run TokenManager.GITHUB_TOKEN v') as (x & E).
    rewrite E in Hx |- *. cbn [fst] in Hx. congruence. }
  rewrite clearAllTokens_run in Hc. injection Hc as <-.
  unfold TokenManager.getGitHubToken, tryCatch. unfold bind at 1. rewrite Hs.
  unfold bind at 1. unfold ret at 1. unfold bind at 1.
  unfold TokenManager.refreshTokenFromStorage, tryCatch. unfold bind at 1.
  unfold SecureStorage.getSecureData, gets.
  unfold with_cache at 1, with_local at 1. cbn [local].
  now rewrite lookup_delete_eq.
Qed.

End ClearedTokens.

(** X21.  [clearAllTokens] signs the user out without asking the remote:
    afterwards the token manager finds no token and no GitHub
    configuration, and reports no authentication, and none of the three
    sends a request.  The plain settings record is left in place. *)
Theorem clearAllTokens_signs_out :
  forall (P : Platform) (v : Vault),
  exists v',
    TokenManager.clearAllTokens v = (Ok tt, v')
    /\ TokenManager.getGitHubToken v' = (Ok None, v')
    /\ TokenManager.getGitHubConfig v' = (Ok None, v')
    /\ TokenManager.isAuthenticated v' = (Ok false, v')
    /\ validations v' = validations v
    /\ local v' !! StorageManager.CONFIG = local v !! StorageManager.CONFIG.
Proof.
  intros P v.
  destruct (TokenManager.clearAllTokens v) as [r v'] eqn:E.
  pose proof E as E'. rewrite clearAllTokens_run in E'. injection E' as <- Hv'.
  exists v'. split; [reflexivity|].
  pose proof (getGitHubToken_cleared v v' E) as Hg.
  split; [exact Hg|]. split; [|split; [|split]].
  - unfold TokenManager.getGitHubConfig, tryCatch. unfold bind at 1.
    unfold SecureStorage.getSecureData, gets. subst v'.
    unfold with_cache at 1 2 3, with_local at 1 2 3. cbn [local].
    rewrite lookup_delete_ne by discriminate. now rewrite lookup_delete_eq.
  - unfold TokenManager.isAuthenticated, bind. now rewrite Hg.
  - subst v'. cbn [with_cache with_local validations].
    unfold SecureStorage.clearSessionData, tryCatch, bind, get, modify.
    destruct (session v); reflexivity.
  - subst v'. unfold with_cache, with_local. cbn [local].
    rewrite !lookup_delete_ne by discriminate.
    unfold SecureStorage.clearSessionData, tryCatch, bind, get, modify.
    destruct (session v); cbn [snd with_session with_local local]; [reflexivity|].
    rewrite lookup_delete_ne by (intros E'; vm_compute in E'; discriminate E').
    reflexivity.
Qed.

Section ExpiredToken.
Context `{Platform}.

Lemma refreshTokenFromStorage_expired v m :
  local v !! TokenManager.TOKEN_METADATA = Some (VMetadata m) ->
  TokenManager.expired m (clock v) = true ->
  TokenManager.refreshTokenFromStorage v
  = (Ok None, snd (TokenManager.clearAllTokens v)).
Proof.
  intros Hm He.
  unfold TokenManager.refreshTokenFromStorage, tryCatch. unfold bind at 1.
  unfold SecureStorage.getSecureData at 1, gets at 1. rewrite Hm.
  unfold bind at 1. unfold TokenManager.parse_metadata, ret at 1.
  unfold bind at 1. unfold Date_now_vault, gets at 1. rewrite He.
  unfold bind at 1. rewrite clearAllTokens_run. reflexivity.
Qed.

Lemma getGitHubToken_no_session v :
  fst (SecureStorage.getSessionData TokenManager.GITHUB_TOKEN v) = Ok None ->
  TokenManager.getGitHubToken v
  = match TokenManager.refreshTokenFromStorage v with
    | (Ok (Some t), v1) =>
        (Ok (Some t), snd (SecureStorage.setSessionData TokenManager.GITHUB_TOKEN t v1))
    | (Ok None, v1) => (Ok None, v1)
    | (Throw _, v1) => (Ok None, v1)
    end.
Proof.
  intros Hs. destruct (getSessionData_run TokenManager.GITHUB_TOKEN v) as (x & E).
  rewrite E in Hs. cbn [fst] in Hs. injection Hs as ->.
  unfold TokenManager.getGitHubToken, tryCatch. unfold bind at 1. rewrite E.
  unfold bind at 1. unfold ret at 1. unfold bind at 1.
  destruct (TokenManager.refreshTokenFromStorage v) as [[[t|]|e] v1]; try reflexivity.
  unfold bind at 1. destruct (returns_setSessionData TokenManager.GITHUB_TOKEN t v1)
    as ([] & v2 & E2).
  unfold tryCatch. rewrite E2. reflexivity.
Qed.

End ExpiredToken.

(** X22.  With no token in the session tier and a stored expiry date that
    has passed, [getGitHubToken] finds no token, asks nothing of the
    remote, and leaves the store as [clearAllTokens] does: the durable
    token, the secure configuration and the metadata are gone. *)
Theorem expired_token_is_cleared :
  forall (P : Platform) (v : Vault) (m : TokenMetadata),
    fst (SecureStorage.getSessionData TokenManager.GITHUB_TOKEN v) = Ok None ->
    local v !! TokenManager.TOKEN_METADATA = Some (VMetadata m) ->
    TokenManager.expired m (clock v) = true ->
    exists v',
      TokenManager.getGitHubToken v = (Ok None, v')
      /\ TokenManager.clearAllTokens v = (Ok tt, v')
      /\ local v' !! TokenManager.GITHUB_REFRESH = None
      /\ local v' !! TokenManager.GITHUB_CONFIG = None
      /\ local v' !! TokenManager.TOKEN_METADATA = None
      /\ validations v' = validations v.
Proof.
  intros P v m Hs Hm He.
  rewrite (getGitHubToken_no_session v Hs), (refreshTokenFromStorage_expired v m Hm He).
  rewrite clearAllTokens_run. cbn [snd]. eexists. split; [reflexivity|]. split; [reflexivity|].
  unfold with_cache, with_local. cbn [local validations].
  split; [|split; [|split]].
  - rewrite !lookup_delete_ne by discriminate. apply lookup_delete_eq.
  - rewrite lookup_delete_ne by discriminate. apply lookup_delete_eq.
  - apply lookup_delete_eq.
  - unfold SecureStorage.clearSessionData, tryCatch, bind, get, modify.
    destruct (session v); reflexivity.
Qed.

Lemma expired_token_is_cleared_witness :
  exists v',
    TokenManager.getGitHubToken Expired.vault = (Ok None, v')
    /\ TokenManager.clearAllTokens Expired.vault = (Ok tt, v')
    /\ local v' !! TokenManager.GITHUB_REFRESH = None
    /\ local v' !! TokenManager.GITHUB_CONFIG = None
    /\ local v' !! TokenManager.TOKEN_METADATA = None
    /\ validations v' = validations Expired.vault.
Proof.
  apply (expired_token_is_cleared Accepting.platform Expired.vault Expired.metadata).
  - reflexivity.
  - reflexivity.
  - reflexivity.
Defined.

Section RevokedToken.
Context `{Platform}.

Hypothesis Hrejects :
  forall token now response,
    GET_rate_limit token now = Some response -> response_ok response = false.

Lemma validateTokenWithGitHub_rejects token v :
  TokenManager.validateTokenWithGitHub token v = (Ok false, with_validation token v).
Proof.
  unfold TokenManager.validateTokenWithGitHub, tryCatch, bind, Date_now_vault, gets, modify.
  destruct (GET_rate_limit token (clock v)) as [response|] eqn:E; [|reflexivity].
  cbn [ret]. now rewrite (Hrejects _ _ _ E).
Qed.

(** The durable tier gives nothing either; whatever it does, the session
    tier stays without a token. *)
Lemma refreshTokenFromStorage_rejects v :
  fst (SecureStorage.getSessionData TokenManager.GITHUB_TOKEN v) = Ok None ->
  exists v' more,
    TokenManager.refreshTokenFromStorage v = (Ok None, v')
    /\ fst (SecureStorage.getSessionData TokenManager.GITHUB_TOKEN v') = Ok None
    /\ validations v' = validations v ++ more.
Proof.
  intros Hs.
  unfold TokenManager.refreshTokenFromStorage, tryCatch. unfold bind at 1.
  unfold SecureStorage.getSecureData at 1, gets at 1.
  destruct (local v !! TokenManager.TOKEN_METADATA) as [[s|g|m|c]|] eqn:Em;
    try (exists v, []; rewrite app_nil_r; split; [reflexivity|]; split; [exact Hs|reflexivity]).
  unfold bind at 1. unfold TokenManager.parse_metadata, ret at 1.
  unfold bind at 1. unfold Date_now_vault, gets at 1.
  destruct (TokenManager.expired m (clock v)) eqn:Ee.
  - unfold bind at 1. pose proof (getSessionData_after_clearAllTokens v) as Hc.
    rewrite clearAllTokens_run in Hc |- *. cbn [snd] in Hc.
    eexists _, []. split; [reflexivity|]. split; [exact Hc|].
    rewrite app_nil_r. cbn [with_cache with_local validations].
    unfold SecureStorage.clearSessionData, tryCatch, bind, get, modify.
    destruct (session v); reflexivity.
  - unfold bind at 1. unfold SecureStorage.getSecureData at 1, gets at 1.
    destruct (stored_text (local v !! TokenManager.GITHUB_REFRESH)) as [token|].
    + unfold bind at 1. rewrite validateTokenWithGitHub_rejects.
      exists (with_validation token v), [token]. split; [reflexivity|].
      split; [|reflexivity].
      rewrite <- Hs. now apply getSessionData_same_tiers.
    + exists v, []. rewrite app_nil_r. split; [reflexivity|]. split; [exact Hs|reflexivity].
Qed.

Lemma validateTokenWithCache_rejects token v :
  (forall entry,
      tokenValidationCache v !! hashToken token = Some entry ->
      (expires entry <= clock v)%N) ->
  exists v1,
    TokenManager.validateTokenWithCache token v = (Ok false, v1)
    /\ local v1 = local v /\ session v1 = session v
    /\ validations v1 = validations v ++ [token].
Proof.
  intros Hstale.
  unfold TokenManager.validateTokenWithCache. unfold bind at 1. unfold gets at 1.
  unfold bind at 1. unfold Date_now_vault at 1, gets at 1.
  assert (Hmiss : exists v1,
    (isValid <- TokenManager.validateTokenWithGitHub token ;;
     now' <- Date_now_vault ;;
     modify (with_cache (fun c =>
       <[hashToken token := mkCacheEntry isValid (now' + TokenManager.CACHE_DURATION)%N]> c)) ;;
     ret isValid) v = (Ok false, v1)
    /\ local v1 = local v /\ session v1 = session v
    /\ validations v1 = validations v ++ [token]).
  { unfold bind at 1. rewrite validateTokenWithGitHub_rejects.
    eexists. split; [reflexivity|]. repeat split. }
  destruct (tokenValidationCache v !! hashToken token) as [entry|] eqn:Ec; [|exact Hmiss].
  specialize (Hstale entry eq_refl). apply N.ltb_ge in Hstale. rewrite Hstale. exact Hmiss.
Qed.

End RevokedToken.

(** X23.  A token of the session tier that the cache does not vouch for and
    that the remote rejects is taken out of the session tier: when the
    remote accepts no token, [getGitHubToken] finds none, the request for
    the session token is the first one it sends, and the session tier holds
    no token afterwards. *)
Theorem rejected_session_token_is_dropped :
  forall (P : Platform) (v : Vault) (token : string),
    (forall tok now response,
        GET_rate_limit tok now = Some response -> response_ok response = false) ->
    fst (SecureStorage.getSessionData TokenManager.GITHUB_TOKEN v) = Ok (Some token) ->
    (forall entry,
        tokenValidationCache v !! hashToken token = Some entry ->
        (expires entry <= clock v)%N) ->
    exists v' more,
      TokenManager.getGitHubToken v = (Ok None, v')
      /\ fst (SecureStorage.getSessionData TokenManager.GITHUB_TOKEN v') = Ok None
      /\ validations v' = validations v ++ token :: more.
Proof.
  intros P v token Hrej Hs Hstale.
  destruct (validateTokenWithCache_rejects Hrej token v Hstale) as (v1 & E1 & L1 & S1 & V1).
  destruct (getSessionData_run TokenManager.GITHUB_TOKEN v) as (x & E).
  rewrite E in Hs. cbn [fst] in Hs. injection Hs as ->.
  set (v2 := snd (SecureStorage.clearSessionData TokenManager.GITHUB_TOKEN v1)).
  assert (E2 : SecureStorage.clearSessionData TokenManager.GITHUB_TOKEN v1 = (Ok tt, v2)).
  { destruct (returns_clearSessionData TokenManager.GITHUB_TOKEN v1) as ([] & v2' & E2).
    subst v2. now rewrite E2. }
  assert (Hs2 : fst (SecureStorage.getSessionData TokenManager.GITHUB_TOKEN v2) = Ok None).
  { subst v2. now rewrite getSessionData_cleared. }
  assert (V2 : validations v2 = validations v1).
  { subst v2. unfold SecureStorage.clearSessionData, tryCatch, bind, get, modify.
    destruct (session v1); reflexivity. }
  destruct (refreshTokenFromStorage_rejects Hrej v2 Hs2) as (v' & more & E3 & Hs3 & V3).
  exists v', more. split; [|split; [exact Hs3|]].
  - unfold TokenManager.getGitHubToken, tryCatch. unfold bind at 1. rewrite E.
    unfold bind at 1. unfold bind at 1. rewrite E1.
    unfold bind at 1. rewrite E2. unfold ret at 1.
    unfold bind at 1. rewrite E3. reflexivity.
  - rewrite V3, V2, V1. now rewrite <- app_assoc.
Qed.

Lemma rejected_session_token_is_dropped_witness :
  exists v' more,
    @TokenManager.getGitHubToken Rejecting.platform Rejecting.revoked = (Ok None, v')
    /\ fst (SecureStorage.getSessionData TokenManager.GITHUB_TOKEN v') = Ok None
    /\ validations v' = validations Rejecting.revoked ++ "ghp_revoked" :: more.
Proof.
  apply (rejected_session_token_is_dropped Rejecting.platform Rejecting.revoked "ghp_revoked").
  - intros tok now response [= <-]. reflexivity.
  - reflexivity.
  - intros entry Hentry. discriminate Hentry.
Defined.

(** ** Credential store: storing and reading back *)

Section StoreThenRead.
Context `{Platform}.

Lemma storeGitHubToken_state config v :
  exists v',
    TokenManager.storeGitHubToken config v = (Ok tt, v')
    /\ clock v' = clock v
    /\ tokenValidationCache v' = tokenValidationCache v
    /\ validations v' = validations v
    /\ local v' !! TokenManager.GITHUB_CONFIG
       = Some (VGitHubConfig (TokenManager.without_tokens config))
    /\ (forall r, gh_refreshToken config = Some r -> JS.truthy r = true ->
                  local v' !! TokenManager.GITHUB_REFRESH = Some (VText r)).
Proof.
  unfold TokenManager.storeGitHubToken, tryCatch, bind.
  unfold SecureStorage.setSessionData, SecureStorage.setSecureData, Date_now_vault,
    tryCatch, bind, get, gets, modify, ret.
  destruct (JS.truthy (gh_accessToken config));
    destruct (session v) as [s|] eqn:Es;
    destruct (gh_refreshToken config) as [rt|]; try destruct (JS.truthy rt) eqn:Et;
    cbn [fst snd with_local with_session local session]; rewrite ?Es;
    cbn [fst snd with_local with_session local session clock tokenValidationCache
           validations];
    (eexists; split; [reflexivity|]);
    cbn [with_local with_session local session clock tokenValidationCache validations];
    (split; [reflexivity|]); (split; [reflexivity|]); (split; [reflexivity|]);
    (split; [rewrite lookup_insert_ne by discriminate; apply lookup_insert_eq|]);
    intros r Hr; try discriminate Hr; intros Hr'; injection Hr as ->;
    try congruence;
    rewrite !lookup_insert_ne by discriminate; apply lookup_insert_eq.
Qed.

Lemma validateTokenWithCache_accepts token v response :
  GET_rate_limit token (clock v) = Some response ->
  response_ok response = true ->
  (forall entry,
      tokenValidationCache v !! hashToken token = Some entry ->
      (expires entry <= clock v)%N) ->
  exists v1,
    TokenManager.validateTokenWithCache token v = (Ok true, v1)
    /\ local v1 = local v /\ session v1 = session v
    /\ validations v1 = validations v ++ [token].
Proof.
  intros Hget Hok Hstale.
  assert (Hv : TokenManager.validateTokenWithGitHub token v
               = (Ok true, with_validation token v)).
  { unfold TokenManager.validateTokenWithGitHub, tryCatch, bind, Date_now_vault, gets,
      modify. rewrite Hget. cbn [ret]. now rewrite Hok. }
  unfold TokenManager.validateTokenWithCache. unfold bind at 1. unfold gets at 1.
  unfold bind at 1. unfold Date_now_vault at 1, gets at 1.
  assert (Hmiss : exists v1,
    (isValid <- TokenManager.validateTokenWithGitHub token ;;
     now' <- Date_now_vault ;;
     modify (with_cache (fun c =>
       <[hashToken token := mkCacheEntry isValid (now' + TokenManager.CACHE_DURATION)%N]> c)) ;;
     ret isValid) v = (Ok true, v1)
    /\ local v1 = local v /\ session v1 = session v
    /\ validations v1 = validations v ++ [token]).
  { unfold bind at 1. rewrite Hv. eexists. split; [reflexivity|]. repeat split. }
  destruct (tokenValidationCache v !! hashToken token) as [entry|] eqn:Ec; [|exact Hmiss].
  specialize (Hstale entry eq_refl). apply N.ltb_ge in Hstale. rewrite Hstale. exact Hmiss.
Qed.

End StoreThenRead.

(** X24.  What [setConfig] saves, [getDecryptedConfig] reads back: when the
    remote accepts the access token and the cache holds no fresh verdict on
    it, the GitHub entry that comes back has the user name, the repository,
    the branch, the expiry date and the access token that were saved, next
    to the templates and the settings; reading costs one validation
    request. *)
Theorem saved_credential_is_read_back :
  forall (P : Platform) (config : ExtensionConfig) (g : GitHubConfig) (v : Vault)
         (response : Response string),
    cfg_github config = Some g ->
    JS.truthy (gh_accessToken g) = true ->
    GET_rate_limit (gh_accessToken g) (clock v) = Some response ->
    response_ok response = true ->
    (forall entry,
        tokenValidationCache v !! hashToken (gh_accessToken g) = Some entry ->
        (expires entry <= clock v)%N) ->
    exists v1 c alias v2 g',
      StorageManager.setConfig config v = (Ok tt, v1)
      /\ StorageManager.getDecryptedConfig v1 = (Ok (c, alias), v2)
      /\ cfg_github c = Some g'
      /\ gh_accessToken g' = gh_accessToken g
      /\ gh_username g' = gh_username g
      /\ gh_repository g' = gh_repository g
      /\ gh_branch g' = gh_branch g
      /\ gh_tokenExpiry g' = gh_tokenExpiry g
      /\ cfg_templates c = cfg_templates config
      /\ cfg_settings c = cfg_settings config
      /\ validations v2 = validations v ++ [gh_accessToken g].
Proof.
  intros P config g v response Hg Ht Hget Hok Hstale.
  destruct (storeGitHubToken_state g v) as (v0 & E0 & C0 & K0 & V0 & G0 & _).
  set (v1 := with_local (fun m => <[StorageManager.CONFIG := VConfig (stripped config)]> m) v0).
  assert (E1 : StorageManager.setConfig config v = (Ok tt, v1)).
  { unfold StorageManager.setConfig, tryCatch. unfold bind at 1.
    subst v1. unfold stripped. rewrite Hg, E0. reflexivity. }
  assert (Hs1 : fst (SecureStorage.getSessionData TokenManager.GITHUB_TOKEN v1)
                = Ok (Some (gh_accessToken g))).
  { pose proof (setConfig_session config g v Hg Ht) as Hs. now rewrite E1 in Hs. }
  assert (Hstale1 : forall entry,
             tokenValidationCache v1 !! hashToken (gh_accessToken g) = Some entry ->
             (expires entry <= clock v1)%N).
  { subst v1. cbn [with_local tokenValidationCache clock]. rewrite K0, C0. exact Hstale. }
  assert (Hget1 : GET_rate_limit (gh_accessToken g) (clock v1) = Some response).
  { subst v1. cbn [with_local clock]. now rewrite C0. }
  destruct (validateTokenWithCache_accepts (gh_accessToken g) v1 response Hget1 Hok Hstale1)
    as (v2 & E2 & L2 & S2 & V2).
  pose proof (getGitHubToken_session_valid (gh_accessToken g) v1 v2 Hs1 E2) as E3.
  assert (Ec : StorageManager.getConfig v1 = (Ok (stripped config, false), v1)).
  { unfold StorageManager.getConfig, tryCatch. unfold bind at 1, gets at 1.
    subst v1. unfold with_local at 1. cbn [local]. now rewrite lookup_insert_eq. }
  assert (Eg : exists r,
             TokenManager.getGitHubConfig v1
             = (Ok (Some (mkGitHubConfig (gh_username g) (gh_repository g) (gh_branch g)
                            (gh_accessToken g) (Some r) (gh_tokenExpiry g))), v2)).
  { unfold TokenManager.getGitHubConfig, tryCatch. unfold bind at 1.
    unfold SecureStorage.getSecureData at 1, gets at 1.
    assert (Hl : local v1 !! TokenManager.GITHUB_CONFIG
                 = Some (VGitHubConfig (TokenManager.without_tokens g))).
    { subst v1. unfold with_local. cbn [local].
      rewrite lookup_insert_ne by discriminate. exact G0. }
    rewrite Hl. unfold bind at 1. unfold TokenManager.parse_github_config, ret at 1.
    unfold bind at 1. rewrite E3. unfold bind at 1.
    unfold SecureStorage.getSecureData, gets. eexists. reflexivity. }
  destruct Eg as (r & Eg).
  eexists v1, _, false, v2, _. split; [exact E1|].
  split.
  { unfold StorageManager.getDecryptedConfig. unfold bind at 1. rewrite Ec.
    cbn [fst snd]. unfold bind at 1. rewrite Eg. reflexivity. }
  cbn [StorageManager.with_github cfg_github cfg_templates cfg_settings gh_accessToken
         gh_username gh_repository gh_branch gh_tokenExpiry].
  repeat (split; [reflexivity|]).
  rewrite V2. subst v1. cbn [with_local validations]. now rewrite V0.
Qed.

Lemma saved_credential_is_read_back_witness :
  exists v1 c alias v2 g',
    StorageManager.setConfig Saved.config Accepting.fresh = (Ok tt, v1)
    /\ StorageManager.getDecryptedConfig v1 = (Ok (c, alias), v2)
    /\ cfg_github c = Some g'
    /\ gh_accessToken g' = gh_accessToken Accepting.both_tokens
    /\ gh_username g' = gh_username Accepting.both_tokens
    /\ gh_repository g' = gh_repository Accepting.both_tokens
    /\ gh_branch g' = gh_branch Accepting.both_tokens
    /\ gh_tokenExpiry g' = gh_tokenExpiry Accepting.both_tokens
    /\ cfg_templates c = cfg_templates Saved.config
    /\ cfg_settings c = cfg_settings Saved.config
    /\ validations v2 = validations Accepting.fresh ++ [gh_accessToken Accepting.both_tokens].
Proof.
  apply (saved_credential_is_read_back Accepting.platform Saved.config Accepting.both_tokens
           Accepting.fresh (mkResponse 200 "{}")).
  - reflexivity.
  - reflexivity.
  - reflexivity.
  - reflexivity.
  - intros entry Hentry. discriminate Hentry.
Defined.

(** ** Credential store: the periodic cleanup *)

Section Cleanup.
Context `{Platform}.

Lemma getTokenMetadata_run v :
  exists r, TokenMaintenance.getTokenMetadata v = (Ok r, v)
            /\ (forall m, r = Some m -> local v !! TokenManager.TOKEN_METADATA
                                       = Some (VMetadata m)).
Proof.
  unfold TokenMaintenance.getTokenMetadata, tryCatch, bind, SecureStorage.getSecureData,
    gets, TokenManager.parse_metadata.
  destruct (local v !! TokenManager.TOKEN_METADATA) as [[s|g|m|c]|];
    cbn [ret throw]; eexists; (split; [reflexivity|]); intros m' [=]; congruence.
Qed.

Lemma validateTokenWithCache_paths token v :
  TokenManager.validateTokenWithCache token v
  = match tokenValidationCache v !! hashToken token with
    | Some entry =>
        if (clock v <? expires entry)%N then (Ok (valid entry), v) else asks_remote token v
    | None => asks_remote token v
    end.
Proof.
  unfold TokenManager.validateTokenWithCache. unfold bind at 1. unfold gets at 1.
  unfold bind at 1. unfold Date_now_vault at 1, gets at 1.
  destruct (tokenValidationCache v !! hashToken token) as [entry|]; [|reflexivity].
  destruct (clock v <? expires entry)%N; reflexivity.
Qed.

Lemma asks_remote_any_cache token c v :
  fst (asks_remote token (with_cache c v)) = fst (asks_remote token v)
  /\ validations (snd (asks_remote token (with_cache c v)))
     = validations (snd (asks_remote token v)).
Proof.
  unfold asks_remote, TokenManager.validateTokenWithGitHub, tryCatch, bind,
    Date_now_vault, gets, modify. cbn [with_cache clock].
  destruct (GET_rate_limit token (clock v)); split; reflexivity.
Qed.

(** The verdict on a token and the requests it costs depend on the fresh
    entries of the cache only. *)
Lemma validateTokenWithCache_fresh_entries token v :
  let v' := with_cache (filter (fun entry => (clock v < expires entry.2)%N)) v in
  fst (TokenManager.validateTokenWithCache token v')
  = fst (TokenManager.validateTokenWithCache token v)
  /\ validations (snd (TokenManager.validateTokenWithCache token v'))
     = validations (snd (TokenManager.validateTokenWithCache token v)).
Proof.
  intros v'. rewrite !validateTokenWithCache_paths.
  subst v'. cbn [with_cache tokenValidationCache clock].
  destruct (tokenValidationCache v !! hashToken token) as [entry|] eqn:Ec.
  - destruct (clock v <? expires entry)%N eqn:Et.
    + assert (Hf : filter (fun entry => (clock v < expires entry.2)%N)
                     (tokenValidationCache v) !! hashToken token = Some entry).
      { apply map_lookup_filter_Some. split; [exact Ec|]. now apply N.ltb_lt. }
      rewrite Hf, Et. split; reflexivity.
    + assert (Hf : filter (fun entry => (clock v < expires entry.2)%N)
                     (tokenValidationCache v) !! hashToken token = None).
      { apply map_lookup_filter_None. right. intros x Hx. rewrite Ec in Hx.
        injection Hx as <-. cbn [snd]. apply N.ltb_ge in Et. lia. }
      rewrite Hf. apply asks_remote_any_cache.
  - assert (Hf : filter (fun entry => (clock v < expires entry.2)%N)
                   (tokenValidationCache v) !! hashToken token = None).
    { apply map_lookup_filter_None. now left. }
    rewrite Hf. apply asks_remote_any_cache.
Qed.

End Cleanup.

(** X25.  While the stored credential has not expired,
    [performSecurityCleanup] removes from the validation cache the entries
    whose time has passed and nothing else; it leaves both storage areas
    alone and sends no request, and the verdict of
    [validateTokenWithCache] on any token, and the requests that verdict
    costs, are the same after the cleanup as before. *)
Theorem cleanup_removes_stale_verdicts_only :
  forall (P : Platform) (v : Vault),
    (forall m, local v !! TokenManager.TOKEN_METADATA = Some (VMetadata m) ->
               TokenManager.expired m (clock v) = false) ->
    exists v',
      TokenMaintenance.performSecurityCleanup v = (Ok tt, v')
      /\ (forall key entry,
            tokenValidationCache v' !! key = Some entry
            <-> tokenValidationCache v !! key = Some entry /\ (clock v < expires entry)%N)
      /\ local v' = local v /\ session v' = session v
      /\ validations v' = validations v
      /\ (forall token,
            fst (TokenManager.validateTokenWithCache token v')
            = fst (TokenManager.validateTokenWithCache token v)
            /\ validations (snd (TokenManager.validateTokenWithCache token v'))
               = validations (snd (TokenManager.validateTokenWithCache token v))).
Proof.
  intros P v Hfresh.
  set (v' := with_cache (filter (fun entry => (clock v < expires entry.2)%N)) v).
  exists v'. split.
  { unfold TokenMaintenance.performSecurityCleanup, tryCatch. unfold bind at 1.
    unfold Date_now_vault, gets at 1. unfold bind at 1. unfold modify at 1. fold v'.
    unfold bind at 1.
    destruct (getTokenMetadata_run v') as (r & -> & Hr).
    destruct r as [m|]; [|reflexivity].
    specialize (Hr m eq_refl). rewrite (Hfresh m Hr). reflexivity. }
  split.
  { intros key entry. subst v'. cbn [with_cache tokenValidationCache].
    rewrite map_lookup_filter_Some. reflexivity. }
  split; [reflexivity|]. split; [reflexivity|]. split; [reflexivity|].
  intros token. apply validateTokenWithCache_fresh_entries.
Qed.

Lemma cleanup_removes_stale_verdicts_only_witness :
  exists v',
    TokenMaintenance.performSecurityCleanup Accepting.fresh = (Ok tt, v')
    /\ (forall key entry,
          tokenValidationCache v' !! key = Some entry
          <-> tokenValidationCache Accepting.fresh !! key = Some entry
              /\ (clock Accepting.fresh < expires entry)%N)
    /\ local v' = local Accepting.fresh /\ session v' = session Accepting.fresh
    /\ validations v' = validations Accepting.fresh
    /\ (forall token,
          fst (TokenManager.validateTokenWithCache token v')
          = fst (TokenManager.validateTokenWithCache token Accepting.fresh)
          /\ validations (snd (TokenManager.validateTokenWithCache token v'))
             = validations (snd (TokenManager.validateTokenWithCache token Accepting.fresh))).
Proof.
  apply (cleanup_removes_stale_verdicts_only Accepting.platform Accepting.fresh).
  intros m Hm. discriminate Hm.
Defined.

(** ** The three checks of a token *)

Section TokenChecks.
Context `{Platform}.

Lemma tryGetUserInfo_run token v :
  exists user v', GitHubAuth.tryGetUserInfo token v = (Ok user, v').
Proof.
  unfold GitHubAuth.tryGetUserInfo, GitHubAuth.ghFetch, tryCatch, bind, Date_now_vault,
    gets, modify.
  destruct (GET_user token (clock v)) as [response|]; cbn [ret throw].
  - destruct (status response =? 403); [eexists _, _; reflexivity|].
    destruct (negb (response_ok response)); eexists _, _; reflexivity.
  - eexists _, _; reflexivity.
Qed.

Lemma ghFetch_run token v :
  GitHubAuth.ghFetch GET_rate_limit token v
  = match GET_rate_limit token (clock v) with
    | Some response => (Ok response, elapse round_trip v)
    | None => (Throw "Failed to fetch", elapse round_trip v)
    end.
Proof.
  unfold GitHubAuth.ghFetch, bind, Date_now_vault, gets, modify.
  destruct (GET_rate_limit token (clock v)); reflexivity.
Qed.

End TokenChecks.

(** X26.  The three checks of a token give one verdict.  [validateToken]
    never throws; it reports the token as valid exactly when
    [validateTokenWithGitHub] says true, which is exactly when
    [authenticateWithToken] returns a configuration instead of throwing.
    A token reported as invalid comes with a message, after one request. *)
Theorem token_checks_agree :
  forall (P : Platform) (token : string) (v : Vault),
  exists report v',
    GitHubAuthValidation.validateToken token v = (Ok report, v')
    /\ fst (TokenManager.validateTokenWithGitHub token v) = Ok (tv_valid report)
    /\ (tv_valid report = true
        <-> exists config v'', GitHubAuth.authenticateWithToken token v = (Ok config, v''))
    /\ (tv_valid report = true -> tv_error report = None)
    /\ (tv_valid report = false ->
        (exists message, tv_error report = Some message) /\ v' = elapse round_trip v).
Proof.
  intros P token v.
  assert (Ev : TokenManager.validateTokenWithGitHub token v
               = (match GET_rate_limit token (clock v) with
                  | Some response => Ok (response_ok response)
                  | None => Ok false
                  end, with_validation token v)).
  { unfold TokenManager.validateTokenWithGitHub, tryCatch, bind, Date_now_vault, gets, modify.
    destruct (GET_rate_limit token (clock v)); reflexivity. }
  rewrite Ev. cbn [fst]. clear Ev.
  unfold GitHubAuthValidation.validateToken, GitHubAuth.authenticateWithToken,
    GitHubAuth.assertTokenAccepted, tryCatch.
  unfold bind at 1. rewrite ghFetch_run.
  destruct (GET_rate_limit token (clock v)) as [response|] eqn:E.
  - destruct (response_ok response) eqn:Eok; cbn [negb].
    + destruct (tryGetUserInfo_run token (elapse round_trip v)) as (user & v1 & Eu).
      unfold bind at 1. rewrite Eu. eexists _, _. split; [reflexivity|].
      cbn [tv_valid tv_error].
      split; [reflexivity|]. split; [|split; [reflexivity|discriminate]].
      split; [|reflexivity]. intros _.
      unfold bind at 1. unfold bind at 1. rewrite ghFetch_run, E, Eok. cbn [negb].
      unfold ret at 1. unfold bind at 1. rewrite Eu.
      eexists _, _. reflexivity.
    + eexists _, _. split; [reflexivity|]. cbn [tv_valid tv_error].
      split; [reflexivity|]. split; [|split; [discriminate|]].
      * split; [discriminate|]. intros (config & v'' & Hc). revert Hc.
        unfold bind at 1. unfold bind at 1. rewrite ghFetch_run, E, Eok. cbn [negb].
        discriminate.
      * intros _. split; [eexists; reflexivity|reflexivity].
  - eexists _, _. split; [reflexivity|]. cbn [tv_valid tv_error].
    split; [reflexivity|]. split; [|split; [discriminate|]].
    + split; [discriminate|]. intros (config & v'' & Hc). revert Hc.
      unfold bind at 1. unfold bind at 1. rewrite ghFetch_run, E. discriminate.
    + intros _. split; [eexists; reflexivity|reflexivity].
Qed.

(** ** The extractors: what is read from the address *)

Lemma run_every cls (s : string) : every cls (run cls s) = true.
Proof.
  induction s as [|c s IH]; [reflexivity|]. cbn [run].
  destruct (cls c) eqn:Ec; [|reflexivity]. cbn [every]. now rewrite Ec, IH.
Qed.

(** The run stops where the class stops. *)
Lemma run_append cls (group rest : string) :
  every cls group = true ->
  every cls (JS.take 1 rest) = false \/ rest = EmptyString ->
  run cls (group +:+ rest) = group.
Proof.
  intros Hg Hrest. induction group as [|c group IH].
  - change (run cls rest = EmptyString).
    destruct rest as [|r rest]; [reflexivity|]. cbn [run].
    destruct Hrest as [Hr|Hr]; [|discriminate Hr].
    cbn in Hr. rewrite andb_true_r in Hr. now rewrite Hr.
  - cbn [every] in Hg. apply andb_true_iff in Hg as [Hc Hg].
    change (run cls (String c (group +:+ rest)) = String c group).
    cbn [run]. rewrite Hc. now rewrite (IH Hg).
Qed.

Lemma drop_append (a b : string) : JS.drop (String.length a) (a +:+ b) = b.
Proof.
  induction a as [|c a IH]; [now destruct b|].
  change (JS.drop (S (String.length a)) (String c (a +:+ b)) = b). exact IH.
Qed.

Lemma match_after_group prefix cls (s group : string) :
  match_after prefix cls s = Some group ->
  group <> EmptyString /\ every cls group = true.
Proof.
  induction s as [|c s IH]; cbn [match_after].
  - destruct (JS.startsWith prefix EmptyString); [|discriminate].
    pose proof (run_every cls (JS.drop (String.length prefix) EmptyString)) as He.
    destruct (run cls (JS.drop (String.length prefix) EmptyString)); [discriminate|].
    intros [= <-]. split; [discriminate|exact He].
  - destruct (JS.startsWith prefix (String c s)).
    + pose proof (run_every cls (JS.drop (String.length prefix) (String c s))) as He.
      destruct (run cls (JS.drop (String.length prefix) (String c s))); [exact IH|].
      intros [= <-]. split; [discriminate|exact He].
    + exact IH.
Qed.

Lemma match_after_head prefix cls (group rest : string) :
  group <> EmptyString ->
  every cls group = true ->
  every cls (JS.take 1 rest) = false \/ rest = EmptyString ->
  match_after prefix cls (prefix +:+ group +:+ rest) = Some group.
Proof.
  intros Hne Hg Hrest.
  assert (Hhere :
    (if JS.startsWith prefix (prefix +:+ group +:+ rest) then
       match run cls (JS.drop (String.length prefix) (prefix +:+ group +:+ rest)) with
       | EmptyString => None
       | String a g => Some (String a g)
       end
     else None) = Some group).
  { rewrite includes_here, drop_append, (run_append cls group rest Hg Hrest).
    destruct group; [now contradiction Hne|reflexivity]. }
  destruct (prefix +:+ group +:+ rest) eqn:Es; cbn [match_after]; now rewrite Hhere.
Qed.

(** X27.  The slug that the extractors read from the address has no slash
    in it; when the path begins with [/problems/], a name and then a slash
    or nothing, the slug is that name. *)
Theorem extractTitleSlugFromUrl_first_segment :
  forall (page : Page),
    every not_slash (extractTitleSlugFromUrl page) = true
    /\ (forall slug rest,
          slug <> EmptyString ->
          every not_slash slug = true ->
          JS.startsWith "/" rest = true \/ rest = EmptyString ->
          location_pathname page = "/problems/" +:+ slug +:+ rest ->
          extractTitleSlugFromUrl page = slug).
Proof.
  intros page. unfold extractTitleSlugFromUrl. split.
  - destruct (match_after "/problems/" not_slash (location_pathname page)) as [g|] eqn:E;
      [|reflexivity].
    cbn [default]. now apply match_after_group in E.
  - intros slug rest Hne Hs Hrest ->.
    rewrite (match_after_head "/problems/" not_slash slug rest Hne Hs); [reflexivity|].
    destruct Hrest as [Hr|Hr]; [left|now right].
    destruct rest as [|r rest]; [discriminate Hr|].
    cbn [JS.startsWith] in Hr. destruct (Ascii.eqb "/" r) eqn:Er; [|discriminate Hr].
    apply Ascii.eqb_eq in Er. subst r. reflexivity.
Qed.

Lemma extractTitleSlugFromUrl_first_segment_witness :
  every not_slash (extractTitleSlugFromUrl Pages.classic) = true
  /\ extractTitleSlugFromUrl Pages.classic = "two-sum".
Proof.
  destruct (extractTitleSlugFromUrl_first_segment Pages.classic) as [Hclean Hslug].
  split; [exact Hclean|].
  apply (Hslug "two-sum" "/").
  - discriminate.
  - reflexivity.
  - left. reflexivity.
  - reflexivity.
Defined.

(** ** The extractors: what a submission is made of *)

Lemma or_else_truthy (a b : string) : b <> EmptyString -> JS.or_else a b <> EmptyString.
Proof.
  intros Hb. unfold JS.or_else. destruct a; [exact Hb|discriminate].
Qed.

Lemma append_truthy (a b : string) : b <> EmptyString -> a +:+ b <> EmptyString.
Proof.
  intros Hb. destruct a; [exact Hb|discriminate].
Qed.

Lemma pageSubmission_built page problemInfo code language stats :
  built_from page (pageSubmission page problemInfo code language stats).
Proof.
  unfold built_from, pageSubmission.
  cbn [sub_status sub_link sub_timestamp sub_tags sub_fileExtension sub_language
         sub_runtime sub_memory].
  repeat (split; [reflexivity|]). split; apply or_else_truthy; discriminate.
Qed.

Lemma getSubmissionFromGraphQL_built page submissionId sub :
  LeetCodeV2.getSubmissionFromGraphQL page submissionId = Some sub ->
  built_from page sub /\ sub_id sub = submissionId.
Proof.
  unfold LeetCodeV2.getSubmissionFromGraphQL.
  destruct (graphql page submissionId) as [|ok st [[details|]|]]; try discriminate;
    destruct ok; cbn [negb]; try discriminate.
  destruct (d_question details) as [question|]; [|discriminate].
  destruct (d_lang details) as [lang|]; [|discriminate].
  intros [= <-]. unfold built_from.
  cbn [sub_status sub_link sub_timestamp sub_tags sub_fileExtension sub_language
         sub_runtime sub_memory sub_id].
  split; [|reflexivity].
  repeat (split; [reflexivity|]).
  split; apply or_else_truthy, append_truthy; discriminate.
Qed.

(** X28.  An extractor gives a submission only for a page that shows a
    success, and every submission it gives has the accepted status, the
    address and the date of the page, no tags, the file extension that
    belongs to its language, and a text for the run time and for the
    memory.  The new extractor, when it finds a submission id, gives what
    the query for that id gives and nothing from the page. *)
Theorem extracted_submission_is_built_from_page :
  forall (page : Page),
    (forall sub,
        LeetCodeV1.getSubmissionDetails page = Some sub ->
        LeetCodeV1.isSubmissionSuccess page = true /\ built_from page sub)
    /\ (forall sub,
          LeetCodeV2.getSubmissionDetails page = Some sub ->
          LeetCodeV2.isSubmissionSuccess page = true /\ built_from page sub)
    /\ (forall submissionId,
          LeetCodeV2.isSubmissionSuccess page = true ->
          LeetCodeV2.findSubmissionId page = Some submissionId ->
          LeetCodeV2.getSubmissionDetails page
          = LeetCodeV2.getSubmissionFromGraphQL page submissionId
          /\ (forall sub, LeetCodeV2.getSubmissionDetails page = Some sub ->
                          sub_id sub = submissionId)).
Proof.
  intros page. split; [|split].
  - intros sub. unfold LeetCodeV1.getSubmissionDetails.
    destruct (LeetCodeV1.isSubmissionSuccess page); cbn [negb]; [|discriminate].
    destruct (LeetCodeV1.getProblemInfo page) as [problemInfo|]; [|discriminate].
    destruct (LeetCodeV1.getCode page) as [code|]; [|discriminate].
    destruct (negb (JS.truthy code)); [discriminate|].
    intros [= <-]. split; [reflexivity|apply pageSubmission_built].
  - intros sub. unfold LeetCodeV2.getSubmissionDetails.
    destruct (LeetCodeV2.isSubmissionSuccess page); cbn [negb]; [|discriminate].
    destruct (LeetCodeV2.findSubmissionId page) as [submissionId|].
    + intros Hq. split; [reflexivity|].
      now apply getSubmissionFromGraphQL_built in Hq.
    + unfold LeetCodeV2.getSubmissionFromPage.
      destruct (LeetCodeV2.getProblemInfo page) as [problemInfo|]; [|discriminate].
      destruct (LeetCodeV2.getCode page) as [code|]; [|discriminate].
      destruct (negb (JS.truthy code)); [discriminate|].
      intros [= <-]. split; [reflexivity|apply pageSubmission_built].
  - intros submissionId Hok Hid. unfold LeetCodeV2.getSubmissionDetails.
    rewrite Hok, Hid. cbn [negb]. split; [reflexivity|].
    intros sub Hq. now apply getSubmissionFromGraphQL_built in Hq.
Qed.

Lemma extracted_submission_is_built_from_page_witness :
  exists sub,
    LeetCodeV2.getSubmissionDetails Pages.answered_short = Some sub
    /\ LeetCodeV2.isSubmissionSuccess Pages.answered_short = true
    /\ built_from Pages.answered_short sub
    /\ sub_id sub = "1234".
Proof.
  destruct (extracted_submission_is_built_from_page Pages.answered_short)
    as (_ & Hbuilt & Hid).
  destruct (LeetCodeV2.getSubmissionDetails Pages.answered_short) as [sub|] eqn:E;
    [|vm_compute in E; discriminate E].
  exists sub. split; [reflexivity|].
  destruct (Hbuilt sub eq_refl) as [Hok Hb].
  split; [exact Hok|]. split; [exact Hb|].
  refine (proj2 (Hid "1234" Hok _) sub eq_refl). vm_compute. reflexivity.
Defined.

(** ** The extractors: the statistics *)

Lemma match_before_group cls unit (s group : string) :
  match_before cls unit s = Some group ->
  group <> EmptyString /\ every cls group = true.
Proof.
  induction s as [|c s IH]; cbn [match_before].
  - cbn [run]. discriminate.
  - pose proof (run_every cls (String c s)) as He.
    destruct (run cls (String c s)) as [|a g] eqn:Er; [exact IH|].
    destruct (JS.startsWith unit
                (JS.trimStart (JS.drop (String.length (String a g)) (String c s))));
      [|exact IH].
    intros [= <-]. split; [discriminate|exact He].
Qed.

Lemma scanStats_measured (elements : list Element) :
  measured is_digit "ms" (fst (scanStats elements))
  /\ measured is_digit_or_dot "MB" (snd (scanStats elements)).
Proof.
  unfold scanStats.
  assert (Hstart : measured is_digit "ms" (fst ("N/A", "N/A"))
                   /\ measured is_digit_or_dot "MB" (snd ("N/A", "N/A")))
    by (split; left; reflexivity).
  revert Hstart. generalize ("N/A", "N/A") as acc.
  induction elements as [|el elements IH]; intros acc Hacc; [exact Hacc|].
  cbn [fold_left]. apply IH. cbn [fst snd]. destruct Hacc as [Hr Hm]. split.
  - destruct (match_before is_digit "ms" (text_or_empty (el_textContent el)))
      as [group|] eqn:E; [|exact Hr].
    apply match_before_group in E as [Hne Hd]. right. exists group. auto.
  - destruct (match_before is_digit_or_dot "MB" (text_or_empty (el_textContent el)))
      as [group|] eqn:E; [|exact Hm].
    apply match_before_group in E as [Hne Hd]. right. exists group. auto.
Qed.

(** X29.  The statistics that the two extractors read from the page are
    well formed: the run time is [N/A] or digits followed by a space and
    [ms], the memory is [N/A] or digits and dots followed by a space and
    [MB], whatever the elements of the page say. *)
Theorem getStats_is_measured :
  forall (page : Page),
    measured is_digit "ms" (fst (LeetCodeV1.getStats page))
    /\ measured is_digit_or_dot "MB" (snd (LeetCodeV1.getStats page))
    /\ measured is_digit "ms" (fst (LeetCodeV2.getStats page))
    /\ measured is_digit_or_dot "MB" (snd (LeetCodeV2.getStats page)).
Proof.
  intros page. unfold LeetCodeV1.getStats, LeetCodeV2.getStats.
  split; [apply scanStats_measured|]. split; [apply scanStats_measured|].
  apply scanStats_measured.
Qed.

(** ** Signing out *)

Section SignedOut.
Context `{Platform}.

Lemma signOut_run v :
  exists v',
    SignOut.signOut v = (Ok tt, v')
    /\ local v' = ∅
    /\ session v' = (fun _ => ∅) <$> session v
    /\ DEFAULT_CONFIG_github v' = DEFAULT_CONFIG_github v
    /\ clock v' = clock v
    /\ validations v' = validations v.
Proof.
  unfold SignOut.signOut, SignOut.clearAll, tryCatch. unfold bind at 1.
  rewrite clearAllTokens_run.
  unfold SecureStorage.clearSessionData, tryCatch, bind, get, modify.
  destruct (session v) as [s|] eqn:Es;
    cbn [fst snd with_cache with_local with_session session]; rewrite ?Es;
    eexists; (split; [reflexivity|]);
    cbn [with_cache with_local with_session local session DEFAULT_CONFIG_github clock
           validations fmap option_fmap option_map];
    rewrite ?Es; repeat split; reflexivity.
Qed.

Lemma getGitHubToken_empty v :
  local v = ∅ ->
  (forall s, session v = Some s -> s = ∅) ->
  TokenManager.getGitHubToken v = (Ok None, v).
Proof.
  intros Hl Hs.
  assert (Hg : SecureStorage.getSessionData TokenManager.GITHUB_TOKEN v = (Ok None, v)).
  { unfold SecureStorage.getSessionData, SecureStorage.getSecureData, tryCatch, bind, get,
      gets, ret.
    destruct (session v) as [s|] eqn:Es; cbn [fst snd].
    - rewrite (Hs s eq_refl). reflexivity.
    - rewrite Hl. reflexivity. }
  rewrite getGitHubToken_no_session by now rewrite Hg.
  unfold TokenManager.refreshTokenFromStorage, tryCatch. unfold bind at 1.
  unfold SecureStorage.getSecureData, gets. rewrite Hl. reflexivity.
Qed.

End SignedOut.

(** X30.  When the shared default configuration carries no GitHub entry,
    signing out forgets the account: both storage areas are empty
    afterwards, the token manager finds no token, and the configuration
    that is read back is the default one, without a GitHub entry; nothing
    of this asks the remote. *)
Theorem signOut_forgets_the_account :
  forall (P : Platform) (v : Vault),
    DEFAULT_CONFIG_github v = None ->
    exists v' c v'',
      SignOut.signOut v = (Ok tt, v')
      /\ local v' = ∅
      /\ (forall s, session v' = Some s -> s = ∅)
      /\ TokenManager.getGitHubToken v' = (Ok None, v')
      /\ StorageManager.getDecryptedConfig v' = (Ok (c, true), v'')
      /\ cfg_github c = None
      /\ cfg_templates c = DEFAULT_templates
      /\ cfg_settings c = DEFAULT_settings
      /\ validations v'' = validations v.
Proof.
  intros P v Hd.
  destruct (signOut_run v) as (v' & E & Hl & Hs & Hd' & _ & Hv).
  assert (Hs' : forall s, session v' = Some s -> s = ∅).
  { intros s. rewrite Hs. destruct (session v); cbn; congruence. }
  rewrite Hd in Hd'.
  set (c := mkExtensionConfig None DEFAULT_templates DEFAULT_settings 1).
  set (v'' := with_local (fun m => <[StorageManager.CONFIG := VConfig c]> m) v').
  assert (Hc : cfg_github c = None) by reflexivity.
  assert (Eg : StorageManager.getConfig v' = (Ok (c, true), v'')).
  { unfold StorageManager.getConfig, StorageManager.setConfig, tryCatch, bind, gets, modify,
      ret, StorageManager.DEFAULT_CONFIG.
    rewrite Hl, lookup_empty. cbn [cfg_github]. rewrite Hd'.
    cbn [with_local DEFAULT_CONFIG_github fst snd]. rewrite Hd'. reflexivity. }
  exists v', c, v''. split; [exact E|]. split; [exact Hl|]. split; [exact Hs'|].
  split; [now apply getGitHubToken_empty|].
  split.
  { unfold StorageManager.getDecryptedConfig. unfold bind at 1. rewrite Eg.
    cbn [fst snd]. unfold bind at 1.
    assert (Egc : TokenManager.getGitHubConfig v'' = (Ok None, v'')).
    { unfold TokenManager.getGitHubConfig, tryCatch. unfold bind at 1.
      unfold SecureStorage.getSecureData, gets. subst v''. unfold with_local at 1.
      cbn [local]. rewrite lookup_insert_ne by discriminate. rewrite Hl.
      now rewrite lookup_empty. }
    rewrite Egc. now rewrite Hc. }
  split; [exact Hc|]. split; [reflexivity|]. split; [reflexivity|].
  subst v''. cbn [with_local validations]. exact Hv.
Qed.

Lemma signOut_forgets_the_account_witness :
  exists v' c v'',
    SignOut.signOut (snd (StorageManager.setConfig Saved.config Accepting.fresh)) = (Ok tt, v')
    /\ local v' = ∅
    /\ (forall s, session v' = Some s -> s = ∅)
    /\ TokenManager.getGitHubToken v' = (Ok None, v')
    /\ StorageManager.getDecryptedConfig v' = (Ok (c, true), v'')
    /\ cfg_github c = None
    /\ cfg_templates c = DEFAULT_templates
    /\ cfg_settings c = DEFAULT_settings
    /\ validations v''
       = validations (snd (StorageManager.setConfig Saved.config Accepting.fresh)).
Proof.
  apply (signOut_forgets_the_account Accepting.platform
           (snd (StorageManager.setConfig Saved.config Accepting.fresh))).
  reflexivity.
Defined.
